(** * graph-draft: viewport transform, graph geometry and the WebGPU renderer

  A shallow embedding of [src/renderers/WebGpuGraphRenderer.tsx] and of the
  geometry module it imports ([graph/geometry]), together with the
  statements of the repository's specification that concern them.

  Numbers.  A JavaScript [number] is modelled as an exact rational in
  canonical form ([Qc]): [+], [-], [*] and [/] are the field operations,
  [<=] and [>=] the rational order.  IEEE-754 rounding, [NaN] and the
  infinities are outside the model, so every equation below is an
  equation of exact arithmetic.  Byte sizes, which the code only ever
  adds, doubles and compares, are integers ([Z]). *)

From Stdlib Require Import QArith Qcanon Qround Lqa.
From stdpp Require Import base numbers list strings gmap.

Open Scope Qc_scope.

(** ** Numbers *)

Abbreviation number := Qc.

(** [a <= b] and [a >= b] of the source, as booleans. *)
Definition num_le (a b : number) : bool := bool_decide (a ≤ b).
Definition num_ge (a b : number) : bool := bool_decide (b ≤ a).

(** [Math.min] and [Math.max] on two arguments. *)
Definition Math_min (a b : number) : number := if num_le a b then a else b.
Definition Math_max (a b : number) : number := if num_le a b then b else a.

(** ** Data model ([types/common], [types/node], [types/edge]) *)

(** [WorldPoint] and [BoardPoint] are both [{x, y}]. *)
Record Point : Type := { x : number; y : number }.

Record ViewportType : Type :=
{ offsetX : number; offsetY : number; zoom : number }.

Record NodeType : Type :=
{ id : string; position : Point; width : number; height : number }.

Record EdgeType : Type := { source : string; target : string }.

(** ** Viewport transform ([graph/coordinates]) *)

Module Coordinates.

(** Modelled from the spec: [graph/coordinates] is not among the sources;
    [worldPointToBoard] is the spec's [worldToBoard],
    [x' = x*zoom + offsetX], [y' = y*zoom + offsetY]. *)
Definition worldPointToBoard (p : Point) (v : ViewportType) : Point :=
  {| x := x p * zoom v + offsetX v;
     y := y p * zoom v + offsetY v |}.

(** Modelled from the spec: [graph/coordinates] is not among the sources;
    [boardPointToWorld] is the spec's [boardToWorld],
    [x = (x' - offsetX)/zoom], [y = (y' - offsetY)/zoom]. *)
Definition boardPointToWorld (p : Point) (v : ViewportType) : Point :=
  {| x := (x p - offsetX v) / zoom v;
     y := (y p - offsetY v) / zoom v |}.

End Coordinates.

(** ** Geometry ([graph/geometry]) *)

Module Geometry.

Record EdgeCurve : Type :=
  { sx : number; sy : number;
    x1 : number; y1 : number;
    x2 : number; y2 : number;
    tx : number; ty : number }.

(** [height] and [width] of the source are [bheight] and [bwidth] here:
    [NodeType] already has fields of those names. *)
Record NodeBounds : Type :=
  { centerX : number; centerY : number;
    bheight : number;
    maxX : number; maxY : number;
    minX : number; minY : number;
    bwidth : number }.

(** [nodes.forEach((node) => map.set(node.id, node))] on a fresh [Map]. *)
Definition createNodeMap (nodes : list NodeType) : gmap string NodeType :=
  foldl (λ map node, <[id node := node]> map) ∅ nodes.

(** The four running extrema of [getNodesBounds]. *)
Record Extrema : Type :=
  { e_minX : number; e_minY : number; e_maxX : number; e_maxY : number }.

(** One iteration of the loop [for (let i = 1; i < nodes.length; i += 1)]. *)
Definition bounds_step (acc : Extrema) (node : NodeType) : Extrema :=
  {| e_minX := Math_min (e_minX acc) (x (position node));
     e_minY := Math_min (e_minY acc) (y (position node));
     e_maxX := Math_max (e_maxX acc) (x (position node) + width node);
     e_maxY := Math_max (e_maxY acc) (y (position node) + height node) |}.

Definition getNodesBounds (nodes : list NodeType) : option NodeBounds :=
  match nodes with
  | [] => None
  | node0 :: rest =>
      let init :=
        {| e_minX := x (position node0);
           e_minY := y (position node0);
           e_maxX := x (position node0) + width node0;
           e_maxY := y (position node0) + height node0 |} in
      let acc := foldl bounds_step init rest in
      let width := e_maxX acc - e_minX acc in
      let height := e_maxY acc - e_minY acc in
      Some {| centerX := e_minX acc + width / Q2Qc 2;
              centerY := e_minY acc + height / Q2Qc 2;
              bheight := height;
              maxX := e_maxX acc;
              maxY := e_maxY acc;
              minX := e_minX acc;
              minY := e_minY acc;
              bwidth := width |}
  end.

Definition getEdgeCurve (sourceNode targetNode : NodeType) : EdgeCurve :=
  let sx := x (position sourceNode) + width sourceNode / Q2Qc 2 in
  let sy := y (position sourceNode) + height sourceNode / Q2Qc 2 in
  let tx := x (position targetNode) + width targetNode / Q2Qc 2 in
  let ty := y (position targetNode) + height targetNode / Q2Qc 2 in
  let dx := tx - sx in
  let k := Q2Qc 0.35 in
  {| sx := sx; sy := sy;
     x1 := sx + dx * k; y1 := sy;
     x2 := tx - dx * k; y2 := ty;
     tx := tx; ty := ty |}.

Definition isPointInsideNode (worldX worldY : number) (node : NodeType) : bool :=
  num_ge worldX (x (position node)) &&
  num_le worldX (x (position node) + width node) &&
  num_ge worldY (y (position node)) &&
  num_le worldY (y (position node) + height node).

(** The loop [for (let i = nodes.length - 1; i >= 0; i -= 1)], entered with
    [i + 1 = n]: it inspects [nodes[n-1]], then [nodes[n-2]], and so on down
    to [nodes[0]].  The index is always in range, the [None] branch of the
    lookup is never taken from [getTopNodeAtPoint]. *)
Fixpoint topNodeBelow (nodes : list NodeType) (n : nat)
    (worldX worldY : number) : option NodeType :=
  match n with
  | O => None
  | S i =>
      match nodes !! i with
      | Some node =>
          if isPointInsideNode worldX worldY node then Some node
          else topNodeBelow nodes i worldX worldY
      | None => None
      end
  end.

Definition getTopNodeAtPoint (nodes : list NodeType)
    (worldX worldY : number) : option NodeType :=
  topNodeBelow nodes (length nodes) worldX worldY.

Definition cubicBezierPoint (t : number) (curve : EdgeCurve) : Point :=
  let omt := Q2Qc 1 - t in
  let omt2 := omt * omt in
  let omt3 := omt2 * omt in
  let t2 := t * t in
  let t3 := t2 * t in
  {| x := omt3 * sx curve + Q2Qc 3 * omt2 * t * x1 curve
          + Q2Qc 3 * omt * t2 * x2 curve + t3 * tx curve;
     y := omt3 * sy curve + Q2Qc 3 * omt2 * t * y1 curve
          + Q2Qc 3 * omt * t2 * y2 curve + t3 * ty curve |}.

(** The spec's wording of the evaluation, to compare [cubicBezierPoint]
    with: [B(t) = (1−t)³·P0 + 3(1−t)²t·P1 + 3(1−t)t²·P2 + t³·P3]. *)
Definition bernstein3 (t p0 p1 p2 p3 : number) : number :=
  (Q2Qc 1 - t) ^ 3 * p0 + Q2Qc 3 * (Q2Qc 1 - t) ^ 2 * t * p1
  + Q2Qc 3 * (Q2Qc 1 - t) * t ^ 2 * p2 + t ^ 3 * p3.

(** The centre of a node's rectangle. *)
Definition nodeCenter (node : NodeType) : Point :=
  {| x := x (position node) + width node / Q2Qc 2;
     y := y (position node) + height node / Q2Qc 2 |}.

End Geometry.

(** ** The WebGPU renderer ([renderers/WebGpuGraphRenderer.tsx]) *)

Module Renderer.
Import Coordinates Geometry.

Definition FLOATS_PER_VERTEX : Z := 6.
Definition BYTES_PER_FLOAT : Z := 4.
Definition STRIDE_BYTES : Z := FLOATS_PER_VERTEX * BYTES_PER_FLOAT.
Definition EDGE_SEGMENTS : nat := 28.

Definition GPU_BUFFER_USAGE_COPY_DST : Z := 0x0008.
Definition GPU_BUFFER_USAGE_VERTEX : Z := 0x0020.
Definition GPU_BUFFER_USAGE_UNIFORM : Z := 0x0040.
Definition GPU_SHADER_STAGE_VERTEX : Z := 0x1.
Definition GPU_COLOR_WRITE_ALL : Z := 0xf.

Definition Color : Type := number * number * number * number.

Definition NODE_COLOR : Color :=
  (Q2Qc 0.14, Q2Qc 0.21, Q2Qc 0.31, Q2Qc 0.94).
Definition EDGE_COLOR : Color :=
  (Q2Qc 0.33, Q2Qc 0.89, Q2Qc 0.84, Q2Qc 0.95).

(** *** The GPU seen from the renderer

    GPU objects (buffers, pipelines, the device, ...) are opaque handles.
    What the renderer does to the GPU is recorded as the chronological list
    of the API calls it issued. *)

Definition handle : Type := nat.

Inductive Topology : Type := TriangleList | LineList.

Inductive GpuCall : Type :=
  | RequestAdapter
  | RequestDevice
  | GetContext
  | GetPreferredCanvasFormat
  | Configure (device : handle)
  | CreateShaderModule (h : handle)
  | CreateBindGroupLayout (h : handle)
  | CreatePipelineLayout (h : handle)
  | CreateRenderPipeline (h : handle) (topology : Topology)
  | CreateBuffer (h : handle) (size usage : Z)
  | CreateBindGroup (h : handle) (resource : handle)
  | DestroyBuffer (h : handle)
  | DestroyDevice (h : handle)
  | WriteBuffer (h : handle) (bufferOffset : Z) (data : list number)
      (dataOffset size : Z)
  | CreateCommandEncoder
  | BeginRenderPass
  | SetBindGroup (index : Z) (bindGroup : handle)
  | SetPipeline (pipeline : handle)
  | SetVertexBuffer (slot : Z) (h : handle)
  | Draw (count : number)
  | EndPass
  | Submit.

Record Gpu : Type := { nextHandle : handle; calls : list GpuCall }.

(** Record an API call. *)
Definition issue (call : GpuCall) (g : Gpu) : Gpu :=
  {| nextHandle := nextHandle g; calls := calls g ++ [call] |}.

(** Allocate the handle of a newly created GPU object. *)
Definition fresh (g : Gpu) : handle * Gpu :=
  (nextHandle g, {| nextHandle := S (nextHandle g); calls := calls g |}).

(** [device.createBuffer({ size, usage })]. *)
Definition createBuffer (g : Gpu) (size usage : Z) : handle * Gpu :=
  let '(h, g) := fresh g in (h, issue (CreateBuffer h size usage) g).

Record Runtime : Type :=
  { bindGroup : handle;
    context : handle;
    device : handle;
    linePipeline : handle;
    trianglePipeline : handle;
    uniformBuffer : handle }.

Record DynamicVertexBuffer : Type :=
  { buffer : option handle;
    capacityBytes : Z;
    vertexCount : number }.

Record SceneSnapshot : Type :=
  { edges : list EdgeType;
    nodes : list NodeType;
    viewport : ViewportType }.

(** A [number] holding an integer, such as [data.length]. *)
Definition of_Z (n : Z) : number := Qc_of_Z n.
Definition of_nat (n : nat) : number := of_Z (Z.of_nat n).

Definition appendVertex (vertices : list number) (x y : number)
    (color : Color) : list number :=
  let '(c0, c1, c2, c3) := color in
  vertices ++ [x; y; c0; c1; c2; c3].

Definition ensureVertexBuffer (g : Gpu) (state : DynamicVertexBuffer)
    (requiredBytes : Z) : Gpu * DynamicVertexBuffer :=
  if bool_decide (is_Some (buffer state))
     && bool_decide (capacityBytes state >= requiredBytes)%Z
  then (g, state)
  else
    let g :=
      match buffer state with
      | Some old => issue (DestroyBuffer old) g
      | None => g
      end in
    let capacity :=
      Z.max 4096 (Z.max requiredBytes (capacityBytes state * 2)) in
    let '(h, g) :=
      createBuffer g capacity
        (Z.lor GPU_BUFFER_USAGE_VERTEX GPU_BUFFER_USAGE_COPY_DST) in
    (g, {| buffer := Some h;
           capacityBytes := capacity;
           vertexCount := vertexCount state |}).

(** [new Float32Array(data).byteLength]; the conversion to single precision
    itself is the identity in this model. *)
Definition byteLength (data : list number) : Z :=
  Z.of_nat (length data) * BYTES_PER_FLOAT.

Definition uploadVertices (g : Gpu) (state : DynamicVertexBuffer)
    (data : list number) : Gpu * DynamicVertexBuffer :=
  let state :=
    {| buffer := buffer state;
       capacityBytes := capacityBytes state;
       vertexCount := of_nat (length data) / of_Z FLOATS_PER_VERTEX |} in
  if bool_decide (length data = 0%nat) then (g, state)
  else
    let floatData := data in
    let '(g, state) := ensureVertexBuffer g state (byteLength floatData) in
    match buffer state with
    | None => (g, state)
    | Some h =>
        (issue (WriteBuffer h 0 floatData 0 (Z.of_nat (length floatData))) g,
         state)
    end.

(** *** Per-frame vertex generation *)

(** One iteration of [for (let i = 1; i <= EDGE_SEGMENTS; i += 1)]; the loop
    carries [edgeVertices] and [previous]. *)
Definition edgeSegment (curve : EdgeCurve) (sceneViewport : ViewportType)
    (dpr : number) (acc : list number * Point) (i : nat)
    : list number * Point :=
  let '(edgeVertices, previous) := acc in
  let t := of_nat i / of_nat EDGE_SEGMENTS in
  let next := cubicBezierPoint t curve in
  let p0 := worldPointToBoard previous sceneViewport in
  let p1 := worldPointToBoard next sceneViewport in
  let edgeVertices :=
    appendVertex edgeVertices (x p0 * dpr) (y p0 * dpr) EDGE_COLOR in
  let edgeVertices :=
    appendVertex edgeVertices (x p1 * dpr) (y p1 * dpr) EDGE_COLOR in
  (edgeVertices, next).

(** The callback of [sceneEdges.forEach]. *)
Definition appendEdge (nodeMap : gmap string NodeType)
    (sceneViewport : ViewportType) (dpr : number)
    (edgeVertices : list number) (edge : EdgeType) : list number :=
  match nodeMap !! source edge, nodeMap !! target edge with
  | Some sourceNode, Some targetNode =>
      let curve := getEdgeCurve sourceNode targetNode in
      let previous := cubicBezierPoint (Q2Qc 0) curve in
      fst (foldl (edgeSegment curve sceneViewport dpr)
             (edgeVertices, previous) (seq 1 EDGE_SEGMENTS))
  | _, _ => edgeVertices
  end.

(** The callback of [sceneNodes.forEach]. *)
Definition appendNode (sceneViewport : ViewportType) (dpr : number)
    (nodeVertices : list number) (node : NodeType) : list number :=
  let topLeft := worldPointToBoard (position node) sceneViewport in
  let x := x topLeft * dpr in
  let y := y topLeft * dpr in
  let width := width node * zoom sceneViewport * dpr in
  let height := height node * zoom sceneViewport * dpr in
  let nodeVertices := appendVertex nodeVertices x y NODE_COLOR in
  let nodeVertices := appendVertex nodeVertices (x + width) y NODE_COLOR in
  let nodeVertices := appendVertex nodeVertices x (y + height) NODE_COLOR in
  let nodeVertices := appendVertex nodeVertices (x + width) y NODE_COLOR in
  let nodeVertices :=
    appendVertex nodeVertices (x + width) (y + height) NODE_COLOR in
  let nodeVertices := appendVertex nodeVertices x (y + height) NODE_COLOR in
  nodeVertices.

(** The two vertex arrays [draw] builds from the scene snapshot. *)
Definition buildEdgeVertices (scene : SceneSnapshot) (dpr : number)
    : list number :=
  let nodeMap := createNodeMap (nodes scene) in
  foldl (appendEdge nodeMap (viewport scene) dpr) [] (edges scene).

Definition buildNodeVertices (scene : SceneSnapshot) (dpr : number)
    : list number :=
  foldl (appendNode (viewport scene) dpr) [] (nodes scene).

(** *** The hosting environment

    What the component reads from the browser.  [navigator.gpu] may be
    missing from [navigator] altogether, present with a nullish value, or
    present.  The [throws] oracle says which of the initialization's API
    calls raises when made; [contextAvailable] whether
    [canvas.getContext("webgpu")] yields a context. *)

Inductive NavigatorGpu : Type := GpuMissing | GpuNullish | GpuPresent.

Inductive Api : Type :=
  | ApiRequestAdapter
  | ApiRequestDevice
  | ApiGetContext
  | ApiGetPreferredCanvasFormat
  | ApiConfigure
  | ApiCreateShaderModule
  | ApiCreateBindGroupLayout
  | ApiCreatePipelineLayout
  | ApiCreateRenderPipeline (topology : Topology)
  | ApiCreateUniformBuffer
  | ApiCreateBindGroup.

Record Host : Type :=
  { navigatorGpu : NavigatorGpu;
    contextAvailable : bool;
    throws : Api → bool;
    rectWidth : number;
    rectHeight : number;
    devicePixelRatio : number }.

(** [typeof navigator !== "undefined" && "gpu" in navigator]. *)
Definition browserHasWebGpu (h : Host) : bool :=
  match navigatorGpu h with
  | GpuMissing => false
  | GpuNullish | GpuPresent => true
  end.

(** [nav.gpu ?? null]. *)
Definition resolveGpuNavigator (h : Host) : option unit :=
  match navigatorGpu h with
  | GpuPresent => Some ()
  | GpuMissing | GpuNullish => None
  end.

(** *** The component instance *)

(** The canvas element, reduced to its [width] and [height] attributes. *)
Record Canvas : Type := { canvas_width : Z; canvas_height : Z }.

(** Where the asynchronous [initialize] stands: not called, suspended at
    [await gpu.requestAdapter()], suspended at
    [await adapter.requestDevice()], or returned. *)
Inductive InitPc : Type :=
  NotStarted | AwaitingAdapter | AwaitingDevice | Settled.

(** The writes [initialize] makes to the state it shares with the rest of
    the component, in the order it makes them. *)
Inductive InitWrite : Type :=
  | InstalledRuntime (r : Runtime)
  | SetRuntimeError (s : option string).

Record Component : Type :=
  { host : Host;
    canvasRef : option Canvas;
    runtimeRef : option Runtime;
    dprRef : number;
    sceneRef : SceneSnapshot;
    edgeBufferRef : DynamicVertexBuffer;
    nodeBufferRef : DynamicVertexBuffer;
    runtimeError : option string;
    disposed : bool;
    initPc : InitPc;
    initWrites : list InitWrite;
    gpu : Gpu }.

Definition set_canvasRef (v : option Canvas) (c : Component) : Component :=
  Build_Component (host c) v (runtimeRef c) (dprRef c) (sceneRef c)
    (edgeBufferRef c) (nodeBufferRef c) (runtimeError c) (disposed c)
    (initPc c) (initWrites c) (gpu c).

Definition set_runtimeRef (v : option Runtime) (c : Component) : Component :=
  Build_Component (host c) (canvasRef c) v (dprRef c) (sceneRef c)
    (edgeBufferRef c) (nodeBufferRef c) (runtimeError c) (disposed c)
    (initPc c) (initWrites c) (gpu c).

Definition set_dprRef (v : number) (c : Component) : Component :=
  Build_Component (host c) (canvasRef c) (runtimeRef c) v (sceneRef c)
    (edgeBufferRef c) (nodeBufferRef c) (runtimeError c) (disposed c)
    (initPc c) (initWrites c) (gpu c).

Definition set_sceneRef (v : SceneSnapshot) (c : Component) : Component :=
  Build_Component (host c) (canvasRef c) (runtimeRef c) (dprRef c) v
    (edgeBufferRef c) (nodeBufferRef c) (runtimeError c) (disposed c)
    (initPc c) (initWrites c) (gpu c).

Definition set_edgeBufferRef (v : DynamicVertexBuffer) (c : Component)
    : Component :=
  Build_Component (host c) (canvasRef c) (runtimeRef c) (dprRef c)
    (sceneRef c) v (nodeBufferRef c) (runtimeError c) (disposed c)
    (initPc c) (initWrites c) (gpu c).

Definition set_nodeBufferRef (v : DynamicVertexBuffer) (c : Component)
    : Component :=
  Build_Component (host c) (canvasRef c) (runtimeRef c) (dprRef c)
    (sceneRef c) (edgeBufferRef c) v (runtimeError c) (disposed c)
    (initPc c) (initWrites c) (gpu c).

Definition set_runtimeError (v : option string) (c : Component) : Component :=
  Build_Component (host c) (canvasRef c) (runtimeRef c) (dprRef c)
    (sceneRef c) (edgeBufferRef c) (nodeBufferRef c) v (disposed c)
    (initPc c) (initWrites c) (gpu c).

Definition set_disposed (v : bool) (c : Component) : Component :=
  Build_Component (host c) (canvasRef c) (runtimeRef c) (dprRef c)
    (sceneRef c) (edgeBufferRef c) (nodeBufferRef c) (runtimeError c) v
    (initPc c) (initWrites c) (gpu c).

Definition set_initPc (v : InitPc) (c : Component) : Component :=
  Build_Component (host c) (canvasRef c) (runtimeRef c) (dprRef c)
    (sceneRef c) (edgeBufferRef c) (nodeBufferRef c) (runtimeError c)
    (disposed c) v (initWrites c) (gpu c).

Definition set_initWrites (v : list InitWrite) (c : Component) : Component :=
  Build_Component (host c) (canvasRef c) (runtimeRef c) (dprRef c)
    (sceneRef c) (edgeBufferRef c) (nodeBufferRef c) (runtimeError c)
    (disposed c) (initPc c) v (gpu c).

Definition set_gpu (v : Gpu) (c : Component) : Component :=
  Build_Component (host c) (canvasRef c) (runtimeRef c) (dprRef c)
    (sceneRef c) (edgeBufferRef c) (nodeBufferRef c) (runtimeError c)
    (disposed c) (initPc c) (initWrites c) v.

Definition emptyBuffer : DynamicVertexBuffer :=
  {| buffer := None; capacityBytes := 0; vertexCount := Q2Qc 0 |}.

(** The component as React creates it: the refs at their [useRef] initial
    values, the canvas element attached at its default size. *)
Definition newComponent (h : Host) (props : SceneSnapshot) : Component :=
  {| host := h;
     canvasRef := Some {| canvas_width := 300; canvas_height := 150 |};
     runtimeRef := None;
     dprRef := Q2Qc 1;
     sceneRef := props;
     edgeBufferRef := emptyBuffer;
     nodeBufferRef := emptyBuffer;
     runtimeError := None;
     disposed := false;
     initPc := NotStarted;
     initWrites := [];
     gpu := {| nextHandle := 0%nat; calls := [] |} |}.

(** [Math.floor] of a number, as an integer. *)
Definition Math_floor (q : number) : Z := Qfloor q.

Definition syncCanvasSize (c : Component) : Component :=
  match runtimeRef c, canvasRef c with
  | Some runtime, Some canvas =>
      let dpr :=
        if bool_decide (devicePixelRatio (host c) = Q2Qc 0) then Q2Qc 1
        else devicePixelRatio (host c) in
      let width := Z.max 1 (Math_floor (rectWidth (host c) * dpr)) in
      let height := Z.max 1 (Math_floor (rectHeight (host c) * dpr)) in
      let canvas :=
        if bool_decide (canvas_width canvas ≠ width)
           || bool_decide (canvas_height canvas ≠ height)
        then {| canvas_width := width; canvas_height := height |}
        else canvas in
      let c := set_canvasRef (Some canvas) c in
      let c := set_dprRef dpr c in
      set_gpu
        (issue (WriteBuffer (uniformBuffer runtime) 0
                  [of_Z width; of_Z height; Q2Qc 0; Q2Qc 0] 0 4) (gpu c)) c
  | _, _ => c
  end.

(** [draw] below records the render pass from [createCommandEncoder] to
    [queue.submit]; the texture view and [encoder.finish()] are part of
    [BeginRenderPass] and [Submit].  Per-frame GPU calls do not raise in
    this model. *)

(** The optional draw call of one vertex buffer:
    [if (ref.current.vertexCount > 0 && ref.current.buffer) { ... }]. *)
Definition drawBuffer (pipeline : handle) (state : DynamicVertexBuffer)
    (g : Gpu) : Gpu :=
  match buffer state with
  | Some h =>
      if bool_decide (Q2Qc 0 < vertexCount state) then
        issue (Draw (vertexCount state))
          (issue (SetVertexBuffer 0 h) (issue (SetPipeline pipeline) g))
      else g
  | None => g
  end.

Definition draw (c : Component) : Component :=
  match runtimeRef c, canvasRef c with
  | Some runtime, Some canvas =>
      if bool_decide (canvas_width canvas = 0%Z)
         || bool_decide (canvas_height canvas = 0%Z)
      then c
      else
        let dpr := dprRef c in
        let edgeVertices := buildEdgeVertices (sceneRef c) dpr in
        let nodeVertices := buildNodeVertices (sceneRef c) dpr in
        let '(g, edgeBuffer) :=
          uploadVertices (gpu c) (edgeBufferRef c) edgeVertices in
        let '(g, nodeBuffer) :=
          uploadVertices g (nodeBufferRef c) nodeVertices in
        let g := issue CreateCommandEncoder g in
        let g := issue BeginRenderPass g in
        let g := issue (SetBindGroup 0 (bindGroup runtime)) g in
        let g := drawBuffer (trianglePipeline runtime) nodeBuffer g in
        let g := drawBuffer (linePipeline runtime) edgeBuffer g in
        let g := issue EndPass g in
        let g := issue Submit g in
        set_gpu g (set_nodeBufferRef nodeBuffer
                     (set_edgeBufferRef edgeBuffer c))
  | _, _ => c
  end.

(** The effect [sceneRef.current = { edges, nodes, viewport }; draw()]. *)
Definition publishScene (props : SceneSnapshot) (c : Component) : Component :=
  draw (set_sceneRef props c).

(** [handleResize]. *)
Definition handleResize (c : Component) : Component :=
  draw (syncCanvasSize c).

(** *** Asynchronous initialization

    The body of [initialize] runs in a small monad over the component: a
    computation either completes normally or throws, and in both cases the
    writes made so far stay.  The two [await]s cut the body into three
    stretches; between stretches any other event of the component may run. *)

Inductive Completion (A : Type) : Type :=
  | Normal (a : A)
  | Thrown.
Arguments Normal {A} a.
Arguments Thrown {A}.

Definition Eff (A : Type) : Type := Component → Component * Completion A.

#[global] Instance Eff_ret : MRet Eff := λ A a c, (c, Normal a).

#[global] Instance Eff_bind : MBind Eff := λ A B k m c,
  match m c with
  | (c', Normal a) => k a c'
  | (c', Thrown) => (c', Thrown)
  end.

Definition throw {A : Type} : Eff A := λ c, (c, Thrown).

Definition read {A : Type} (f : Component → A) : Eff A :=
  λ c, (c, Normal (f c)).

Definition update (f : Component → Component) : Eff unit :=
  λ c, (f c, Normal ()).

(** [try { body } catch { handler }]. *)
Definition try_catch (body handler : Eff unit) : Eff unit := λ c,
  match body c with
  | (c', Thrown) => handler c'
  | (c', Normal a) => (c', Normal a)
  end.

(** How a promise settles. *)
Inductive Settlement (A : Type) : Type :=
  | Fulfilled (a : A)
  | Rejected.
Arguments Fulfilled {A} a.
Arguments Rejected {A}.

(** Resuming from [await p] once [p] has settled. *)
Definition await {A : Type} (s : Settlement A) : Eff A :=
  match s with
  | Fulfilled a => mret a
  | Rejected => throw
  end.

(** A call into the host's API that may raise. *)
Definition call (a : Api) : Eff unit := λ c,
  if throws (host c) a then (c, Thrown) else (c, Normal ()).

Definition gpuIssue (k : GpuCall) : Eff unit :=
  update (λ c, set_gpu (issue k (gpu c)) c).

Definition gpuFresh : Eff handle := λ c,
  let '(h, g) := fresh (gpu c) in (set_gpu g c, Normal h).

(** A [device.createX(...)] call returning a new object. *)
Definition create (a : Api) (mk : handle → GpuCall) : Eff handle :=
  call a;; h ← gpuFresh; gpuIssue (mk h);; mret h.

Definition setRuntimeError (s : option string) : Eff unit :=
  update (λ c, set_initWrites (initWrites c ++ [SetRuntimeError s])
                 (set_runtimeError s c)).

Definition installRuntime (r : Runtime) : Eff unit :=
  update (λ c, set_initWrites (initWrites c ++ [InstalledRuntime r])
                 (set_runtimeRef (Some r) c)).

(** [if (!disposed) { body }]. *)
Definition unlessDisposed (body : Eff unit) : Eff unit :=
  d ← read disposed; if d : bool then mret () else body.

(** Suspending at an [await]. *)
Definition suspend (pc : InitPc) : Eff unit := update (set_initPc pc).

(** [canvas.getContext("webgpu")]. *)
Definition getContext : Eff (option handle) :=
  call ApiGetContext;; gpuIssue GetContext;;
  available ← read (λ c, contextAvailable (host c));
  if available : bool then h ← gpuFresh; mret (Some h) else mret None.

(** [initialize] up to [await gpu.requestAdapter()]. *)
Definition initialize_begin : Eff unit :=
  call ApiRequestAdapter;; gpuIssue RequestAdapter;;
  suspend AwaitingAdapter.

(** [initialize] from the first [await] to [await adapter.requestDevice()]. *)
Definition initialize_after_adapter (s : Settlement (option unit)) : Eff unit :=
  adapter ← await s;
  match adapter with
  | None =>
      unlessDisposed (setRuntimeError (Some "WebGPU adapter is unavailable."))
  | Some _ =>
      call ApiRequestDevice;; gpuIssue RequestDevice;;
      suspend AwaitingDevice
  end.

(** [initialize] from the second [await] to its end. *)
Definition initialize_after_device (s : Settlement unit) : Eff unit :=
  await s;;
  device ← gpuFresh;
  d ← read disposed;
  if d : bool then mret ()
  else
    context ← getContext;
    match context with
    | None =>
        unlessDisposed
          (setRuntimeError (Some "Failed to acquire WebGPU context."))
    | Some context =>
        call ApiGetPreferredCanvasFormat;; gpuIssue GetPreferredCanvasFormat;;
        call ApiConfigure;; gpuIssue (Configure device);;
        shaderModule ← create ApiCreateShaderModule CreateShaderModule;
        bindGroupLayout ←
          create ApiCreateBindGroupLayout CreateBindGroupLayout;
        pipelineLayout ← create ApiCreatePipelineLayout CreatePipelineLayout;
        trianglePipeline ←
          create (ApiCreateRenderPipeline TriangleList)
            (λ h, CreateRenderPipeline h TriangleList);
        linePipeline ←
          create (ApiCreateRenderPipeline LineList)
            (λ h, CreateRenderPipeline h LineList);
        uniformBuffer ←
          create ApiCreateUniformBuffer
            (λ h, CreateBuffer h 16
                    (Z.lor GPU_BUFFER_USAGE_UNIFORM GPU_BUFFER_USAGE_COPY_DST));
        bindGroup ←
          create ApiCreateBindGroup (λ h, CreateBindGroup h uniformBuffer);
        installRuntime
          {| bindGroup := bindGroup;
             context := context;
             device := device;
             linePipeline := linePipeline;
             trianglePipeline := trianglePipeline;
             uniformBuffer := uniformBuffer |};;
        unlessDisposed
          (setRuntimeError None;; update syncCanvasSize;; update draw)
    end.

(** The [catch] clause of [initialize]. *)
Definition catchClause : Eff unit :=
  unlessDisposed (setRuntimeError (Some "Failed to initialize WebGPU device.")).

(** One stretch of [initialize], inside its [try]/[catch]: unless the
    stretch ends by suspending at the next [await], [initialize] has
    returned. *)
Definition stretch (body : Eff unit) : Eff unit :=
  update (set_initPc Settled);; try_catch body catchClause.

(** The initialization effect, up to the point where it returns to React. *)
Definition initEffect : Eff unit := λ c,
  match canvasRef c with
  | None => (c, Normal ())
  | Some canvas =>
      match resolveGpuNavigator (host c) with
      | None => (c, Normal ())
      | Some gpu => stretch initialize_begin (set_disposed false c)
      end
  end.

Definition destroyBufferOf (state : DynamicVertexBuffer) (g : Gpu) : Gpu :=
  match buffer state with
  | Some h => issue (DestroyBuffer h) g
  | None => g
  end.

(** The cleanup function the initialization effect returns. *)
Definition teardown (c : Component) : Component :=
  let c := set_disposed true c in
  let g := destroyBufferOf (edgeBufferRef c) (gpu c) in
  let g := destroyBufferOf (nodeBufferRef c) g in
  let g :=
    match runtimeRef c with
    | Some runtime =>
        issue (DestroyDevice (device runtime))
          (issue (DestroyBuffer (uniformBuffer runtime)) g)
    | None => g
    end in
  set_runtimeRef None
    (set_nodeBufferRef emptyBuffer
       (set_edgeBufferRef emptyBuffer (set_gpu g c))).

(** The status line the component renders. *)
Definition statusText (c : Component) : option string :=
  if negb (browserHasWebGpu (host c))
  then Some "WebGPU is unavailable in this browser."
  else runtimeError c.

(** *** The component as a transition system

    After mounting, the events that can reach the component are: one of the
    two pending promises settles, React runs the cleanup, new props are
    published, or a resize is observed.  Each runs to completion before the
    next (one cooperative thread). *)

Inductive Event : Type :=
  | AdapterSettles (s : Settlement (option unit))
  | DeviceSettles (s : Settlement unit)
  | Teardown
  | Publish (props : SceneSnapshot)
  | ResizeObserved.

(** The cleanup exists once the effect got past its early returns, and React
    runs it once. *)
Definition cleanupPending (c : Component) : bool :=
  match initPc c with
  | NotStarted => false
  | _ => negb (disposed c)
  end.

Definition step (c : Component) (e : Event) : option Component :=
  match e with
  | AdapterSettles s =>
      match initPc c with
      | AwaitingAdapter => Some (stretch (initialize_after_adapter s) c).1
      | _ => None
      end
  | DeviceSettles s =>
      match initPc c with
      | AwaitingDevice => Some (stretch (initialize_after_device s) c).1
      | _ => None
      end
  | Teardown => if cleanupPending c then Some (teardown c) else None
  | Publish props => Some (publishScene props c)
  | ResizeObserved => Some (handleResize c)
  end.

Fixpoint run (c : Component) (es : list Event) : option Component :=
  match es with
  | [] => Some c
  | e :: es => c' ← step c e; run c' es
  end.

(** Mounting: the three effects in source order. *)
Definition mount (h : Host) (props : SceneSnapshot) : Component :=
  handleResize (initEffect (publishScene props (newComponent h props))).1.

End Renderer.

(** ** Vocabulary of the statements

    Predicates and auxiliary functions the theorems are stated with.  None
    of them is code of the repository. *)

Section Vocabulary.
Import Coordinates Geometry Renderer.

(** [m] is the least (resp. greatest) of the values [f node]. *)
Definition least_of (f : NodeType → number) (nodes : list NodeType)
    (m : number) : Prop :=
  (∀ node, node ∈ nodes → m ≤ f node) ∧ (∃ node, node ∈ nodes ∧ m = f node).

Definition greatest_of (f : NodeType → number) (nodes : list NodeType)
    (m : number) : Prop :=
  (∀ node, node ∈ nodes → f node ≤ m) ∧ (∃ node, node ∈ nodes ∧ m = f node).

Definition left_of (node : NodeType) : number := x (position node).
Definition top_of (node : NodeType) : number := y (position node).
Definition right_of (node : NodeType) : number := x (position node) + width node.
Definition bottom_of (node : NodeType) : number := y (position node) + height node.

(** Both endpoints of the edge resolve in the node map. *)
Definition resolves (nodeMap : gmap string NodeType) (edge : EdgeType) : bool :=
  bool_decide (is_Some (nodeMap !! source edge) ∧ is_Some (nodeMap !! target edge)).

(** What [draw] does once past its guard. *)
Definition frame (runtime : Runtime) (c : Component) : Component :=
  let edgeVertices := buildEdgeVertices (sceneRef c) (dprRef c) in
  let nodeVertices := buildNodeVertices (sceneRef c) (dprRef c) in
  let edgeUpload := uploadVertices (gpu c) (edgeBufferRef c) edgeVertices in
  let nodeUpload := uploadVertices edgeUpload.1 (nodeBufferRef c) nodeVertices in
  let g := issue CreateCommandEncoder nodeUpload.1 in
  let g := issue BeginRenderPass g in
  let g := issue (SetBindGroup 0 (bindGroup runtime)) g in
  let g := drawBuffer (trianglePipeline runtime) nodeUpload.2 g in
  let g := drawBuffer (linePipeline runtime) edgeUpload.2 g in
  let g := issue EndPass g in
  let g := issue Submit g in
  set_gpu g (set_nodeBufferRef nodeUpload.2 (set_edgeBufferRef edgeUpload.2 c)).

(** The component is ready to draw: a runtime is installed and the canvas
    has a non-zero area. *)
Definition drawable (c : Component) (runtime : Runtime) : Prop :=
  runtimeRef c = Some runtime ∧
  ∃ canvas, canvasRef c = Some canvas ∧
            canvas_width canvas ≠ 0%Z ∧ canvas_height canvas ≠ 0%Z.

(** A buffer state as the renderer produces them: without a handle the
    recorded capacity is zero. *)
Definition buffer_wf (state : DynamicVertexBuffer) : Prop :=
  (0 ≤ capacityBytes state)%Z ∧
  (buffer state = None → capacityBytes state = 0%Z).

(** A sequence of uploads into the same buffer state. *)
Definition uploadAll (g : Gpu) (state : DynamicVertexBuffer)
    (payloads : list (list number)) : Gpu * DynamicVertexBuffer :=
  foldl (λ acc data, uploadVertices acc.1 acc.2 data) (g, state) payloads.

(** The GPU calls that release a buffer state's handle. *)
Definition release (state : DynamicVertexBuffer) : list GpuCall :=
  match buffer state with
  | Some old => [DestroyBuffer old]
  | None => []
  end.

Definition vertexUsage : Z :=
  Z.lor GPU_BUFFER_USAGE_VERTEX GPU_BUFFER_USAGE_COPY_DST.

(** The part of the component that [initialize] shares with the rest:
    the runtime slot, the status string, and the record of its writes. *)
Definition shared (c : Component)
    : option Runtime * option string * list InitWrite :=
  (runtimeRef c, runtimeError c, initWrites c).

(** A computation preserves a property of the component, however it
    completes. *)
Definition preserves {A : Type} (P : Component → Prop) (m : Eff A) : Prop :=
  ∀ c, P c → P (m c).1.

(** The calls [initialize] makes between acquiring the context and
    installing the runtime. *)
Definition setupCalls : list Api :=
  [ApiGetPreferredCanvasFormat; ApiConfigure; ApiCreateShaderModule;
   ApiCreateBindGroupLayout; ApiCreatePipelineLayout;
   ApiCreateRenderPipeline TriangleList; ApiCreateRenderPipeline LineList;
   ApiCreateUniformBuffer; ApiCreateBindGroup].

(** The fields of the component that neither a frame nor a size sync
    touches. *)
Definition control (c : Component)
    : Host * bool * InitPc * option Runtime * option string * list InitWrite :=
  (host c, disposed c, initPc c, runtimeRef c, runtimeError c, initWrites c).

(** The adapter and device requests among the calls issued so far. *)
Definition is_request (k : GpuCall) : bool :=
  match k with
  | RequestAdapter | RequestDevice => true
  | _ => false
  end.

Definition requestsOf (g : Gpu) : list GpuCall :=
  filter (λ k, is_request k = true) (calls g).

(** Both vertex buffers are in a state the renderer produces. *)
Definition buffers_wf (c : Component) : Prop :=
  buffer_wf (edgeBufferRef c) ∧ buffer_wf (nodeBufferRef c).

(** A set flag goes with an empty runtime slot. *)
Definition slot_released (c : Component) : Prop :=
  disposed c = true → runtimeRef c = None.

(** The requests issued so far, as the position of [initialize] allows. *)
Definition requests_in_step (c : Component) : Prop :=
  match initPc c with
  | NotStarted => requestsOf (gpu c) = []
  | AwaitingAdapter => requestsOf (gpu c) = [RequestAdapter]
  | AwaitingDevice => requestsOf (gpu c) = [RequestAdapter; RequestDevice]
  | Settled => requestsOf (gpu c) `prefix_of` [RequestAdapter; RequestDevice]
  end.

(** Without the capability the component never leaves its initial state. *)
Definition idle (h : Host) (c : Component) : Prop :=
  host c = h ∧ initPc c = NotStarted ∧ runtimeRef c = None ∧
  runtimeError c = None ∧ calls (gpu c) = [].

(** The point lies within the bounds, boundary included. *)
Definition within (b : NodeBounds) (px py : number) : Prop :=
  minX b ≤ px ∧ px ≤ maxX b ∧ minY b ≤ py ∧ py ≤ maxY b.

(** The bounds [inner] lie within the bounds [outer]. *)
Definition bounds_le (inner outer : NodeBounds) : Prop :=
  minX outer ≤ minX inner ∧ maxX inner ≤ maxX outer ∧
  minY outer ≤ minY inner ∧ maxY inner ≤ maxY outer.




(** Buffer creations and releases among the calls issued so far. *)
Definition is_allocation (k : GpuCall) : bool :=
  match k with
  | CreateBuffer _ _ _ | DestroyBuffer _ => true
  | _ => false
  end.

Definition allocationsOf (g : Gpu) : list GpuCall :=
  filter (λ k, is_allocation k = true) (calls g).

(** The [i]-th sample of a curve, [i = 0 .. EDGE_SEGMENTS]. *)
Definition sample (curve : EdgeCurve) (i : nat) : Point :=
  cubicBezierPoint (of_nat i / of_nat EDGE_SEGMENTS) curve.

(** The six floats of the vertex drawn at world point [p]. *)
Definition boardVertex (v : ViewportType) (dpr : number) (color : Color)
    (p : Point) : list number :=
  appendVertex [] (x (worldPointToBoard p v) * dpr)
    (y (worldPointToBoard p v) * dpr) color.

(** Segment [i] of the polyline joins sample [i − 1] to sample [i]. *)
Definition polyline (curve : EdgeCurve) (v : ViewportType) (dpr : number)
    : list number :=
  flat_map (λ i, boardVertex v dpr EDGE_COLOR (sample curve (i - 1))
                 ++ boardVertex v dpr EDGE_COLOR (sample curve i))
    (seq 1 EDGE_SEGMENTS).

(** The device pixel ratio [syncCanvasSize] settles on. *)
Definition effectiveDpr (h : Host) : number :=
  if bool_decide (devicePixelRatio h = Q2Qc 0) then Q2Qc 1
  else devicePixelRatio h.

(** The backing-store size [syncCanvasSize] settles on. *)
Definition backingSize (h : Host) : Canvas :=
  {| canvas_width := Z.max 1 (Math_floor (rectWidth h * effectiveDpr h));
     canvas_height := Z.max 1 (Math_floor (rectHeight h * effectiveDpr h)) |}.

(** A runtime is installed only after [initialize] has returned, and only
    on a component that is not disposed. *)
Definition installed_late (c : Component) : Prop :=
  is_Some (runtimeRef c) → initPc c = Settled ∧ disposed c = false.

(** The host lets the whole setup through: a context is available and none
    of the calls made after the device arrives raises. *)
Definition setup_succeeds (h : Host) : Prop :=
  contextAvailable h = true ∧
  ∀ a, a ∈ ApiGetContext :: setupCalls → throws h a = false.

(** The calls of a successful setup, for handles allocated from [n] on. *)
Definition setupLog (n : handle) : list GpuCall :=
  [GetContext; GetPreferredCanvasFormat; Configure n;
   CreateShaderModule (n + 2)%nat; CreateBindGroupLayout (n + 3)%nat;
   CreatePipelineLayout (n + 4)%nat;
   CreateRenderPipeline (n + 5)%nat TriangleList;
   CreateRenderPipeline (n + 6)%nat LineList;
   CreateBuffer (n + 7)%nat 16
     (Z.lor GPU_BUFFER_USAGE_UNIFORM GPU_BUFFER_USAGE_COPY_DST);
   CreateBindGroup (n + 8)%nat (n + 7)%nat].

(** The runtime a successful setup installs. *)
Definition setupRuntime (n : handle) : Runtime :=
  {| bindGroup := (n + 8)%nat; context := (n + 1)%nat; device := n;
     linePipeline := (n + 6)%nat; trianglePipeline := (n + 5)%nat;
     uniformBuffer := (n + 7)%nat |}.

(** The component right after the runtime is installed and the status
    cleared, before the first size sync and frame. *)
Definition installed (c : Component) : Component :=
  let n := nextHandle (gpu c) in
  set_initWrites
    (initWrites c ++ [InstalledRuntime (setupRuntime n); SetRuntimeError None])
    (set_runtimeError None
       (set_runtimeRef (Some (setupRuntime n))
          (set_gpu {| nextHandle := (n + 9)%nat;
                      calls := calls (gpu c) ++ setupLog n |}
             (set_initPc Settled c)))).

End Vocabulary.

(** ** Sample inputs *)

Module Samples.
Import Renderer.

(** A host where everything succeeds. *)
Definition host : Host :=
  {| navigatorGpu := GpuPresent;
     contextAvailable := true;
     throws := λ _, false;
     rectWidth := Q2Qc 800;
     rectHeight := Q2Qc 600;
     devicePixelRatio := Q2Qc 2 |}.

(** The same host, except that [context.configure] raises. *)
Definition hostConfigureFails : Host :=
  {| navigatorGpu := GpuPresent;
     contextAvailable := true;
     throws := λ a, match a with ApiConfigure => true | _ => false end;
     rectWidth := Q2Qc 800;
     rectHeight := Q2Qc 600;
     devicePixelRatio := Q2Qc 2 |}.

Definition nodeA : NodeType :=
  {| id := "a"; position := {| x := Q2Qc 0; y := Q2Qc 0 |};
     width := Q2Qc 10; height := Q2Qc 20 |}.

Definition nodeB : NodeType :=
  {| id := "b"; position := {| x := Q2Qc 100; y := Q2Qc 50 |};
     width := Q2Qc 10; height := Q2Qc 20 |}.

(** Two nodes, one edge between them, one edge to a missing node. *)
Definition scene : SceneSnapshot :=
  {| edges := [{| source := "a"; target := "b" |};
               {| source := "a"; target := "missing" |}];
     nodes := [nodeA; nodeB];
     viewport := {| offsetX := Q2Qc 0; offsetY := Q2Qc 0; zoom := Q2Qc 1 |} |}.

Definition noNodes : SceneSnapshot :=
  {| edges := []; nodes := []; viewport := viewport scene |}.

Definition runtime : Runtime :=
  {| bindGroup := 8%nat; context := 1%nat; device := 0%nat;
     linePipeline := 6%nat; trianglePipeline := 5%nat;
     uniformBuffer := 7%nat |}.

(** A component that is ready to draw [props]. *)
Definition ready (props : SceneSnapshot) : Component :=
  set_runtimeRef (Some runtime) (newComponent host props).

End Samples.

(** ** Tactics *)

(** Unfold the monadic vocabulary of [initialize] down to functions on
    components. *)
Ltac eff_unfold :=
  unfold Renderer.stretch, Renderer.try_catch, Renderer.catchClause,
    Renderer.initialize_begin, Renderer.initialize_after_adapter,
    Renderer.initialize_after_device, Renderer.getContext, Renderer.create,
    Renderer.unlessDisposed, Renderer.setRuntimeError,
    Renderer.installRuntime, Renderer.suspend, Renderer.gpuIssue,
    Renderer.gpuFresh, Renderer.call, Renderer.await, Renderer.update,
    Renderer.read, Renderer.throw;
  unfold mbind, Renderer.Eff_bind, mret, Renderer.Eff_ret.

(** Symbolic execution of a stretch of [initialize], case by case on the
    host's oracle. *)
Ltac eff_run :=
  eff_unfold;
  repeat (cbn;
          first [ match goal with
                  | H : Renderer.disposed ?c = _
                    |- context [Renderer.disposed ?c] => rewrite H
                  | H : Renderer.throws ?h ?a = _
                    |- context [Renderer.throws ?h ?a] => rewrite H
                  | H : Renderer.contextAvailable ?h = _
                    |- context [Renderer.contextAvailable ?h] => rewrite H
                  end
                | match goal with
                  | |- context [Renderer.throws ?h ?a] =>
                      destruct (Renderer.throws h a) eqn:?
                  end ]).

(** * Facts about numbers *)

Lemma num_le_true a b : num_le a b = true ↔ a ≤ b.
Proof. unfold num_le. apply bool_decide_eq_true. Qed.

Lemma num_ge_true a b : num_ge a b = true ↔ b ≤ a.
Proof. unfold num_ge. apply bool_decide_eq_true. Qed.

Lemma Qc_le_total (a b : number) : a ≤ b ∨ b ≤ a.
Proof.
  destruct (Qclt_le_dec a b) as [Hlt | Hle]; [left | right]; [|done].
  by apply Qclt_le_weak.
Qed.

Lemma Math_min_le_l a b : Math_min a b ≤ a.
Proof.
  unfold Math_min. destruct (num_le a b) eqn:E; [apply Qcle_refl|].
  destruct (Qc_le_total a b) as [H | H]; [|done].
  apply num_le_true in H. congruence.
Qed.

Lemma Math_min_le_r a b : Math_min a b ≤ b.
Proof.
  unfold Math_min. destruct (num_le a b) eqn:E; [|apply Qcle_refl].
  by apply num_le_true.
Qed.

Lemma Math_min_cases a b : Math_min a b = a ∨ Math_min a b = b.
Proof. unfold Math_min. destruct (num_le a b); auto. Qed.

Lemma Math_max_ge_l a b : a ≤ Math_max a b.
Proof.
  unfold Math_max. destruct (num_le a b) eqn:E; [|apply Qcle_refl].
  by apply num_le_true.
Qed.

Lemma Math_max_ge_r a b : b ≤ Math_max a b.
Proof.
  unfold Math_max. destruct (num_le a b) eqn:E; [apply Qcle_refl|].
  destruct (Qc_le_total a b) as [H | H]; [|done].
  apply num_le_true in H. congruence.
Qed.

Lemma Math_max_cases a b : Math_max a b = a ∨ Math_max a b = b.
Proof. unfold Math_max. destruct (num_le a b); auto. Qed.

Lemma Point_eq (p q : Point) : x p = x q → y p = y q → p = q.
Proof. destruct p, q; simpl; intros -> ->; reflexivity. Qed.

(** A number written with a literal is the canonical form of that literal. *)
Lemma Qc_literal (a b : Qc) : (this a == this b)%Q → a = b.
Proof. apply Qc_is_canon. Qed.

(** * Viewport transform *)

Section ViewportTransform.
Import Coordinates.

Variable v : ViewportType.
Hypothesis zoom_positive : Q2Qc 0 < zoom v.

Lemma zoom_nonzero : zoom v ≠ Q2Qc 0.
Proof.
  intros E. rewrite E in zoom_positive. by apply Qclt_not_eq in zoom_positive.
Qed.

Lemma boardPointToWorld_worldPointToBoard (p : Point) :
  boardPointToWorld (worldPointToBoard p v) v = p.
Proof.
  pose proof zoom_nonzero as Hz.
  apply Point_eq; simpl; field; exact Hz.
Qed.

Lemma worldPointToBoard_boardPointToWorld (b : Point) :
  worldPointToBoard (boardPointToWorld b v) v = b.
Proof.
  pose proof zoom_nonzero as Hz.
  apply Point_eq; simpl; field; exact Hz.
Qed.

End ViewportTransform.

(** C2.  For every point [p] and every viewport [v] with [zoom v > 0]:
    [worldPointToBoard] computes [x*zoom + offsetX], [y*zoom + offsetY];
    [boardPointToWorld] computes [(x' - offsetX)/zoom], [(y' - offsetY)/zoom];
    and the two are inverse to each other, in particular
    [boardPointToWorld (worldPointToBoard p v) v = p].  The equations are
    those of exact arithmetic. *)
Theorem viewport_round_trip (p : Point) (v : ViewportType) :
  Q2Qc 0 < zoom v →
  x (Coordinates.worldPointToBoard p v) = x p * zoom v + offsetX v ∧
  y (Coordinates.worldPointToBoard p v) = y p * zoom v + offsetY v ∧
  x (Coordinates.boardPointToWorld p v) = (x p - offsetX v) / zoom v ∧
  y (Coordinates.boardPointToWorld p v) = (y p - offsetY v) / zoom v ∧
  Coordinates.boardPointToWorld (Coordinates.worldPointToBoard p v) v = p ∧
  Coordinates.worldPointToBoard (Coordinates.boardPointToWorld p v) v = p.
Proof.
  intros Hzoom. repeat split.
  - by apply boardPointToWorld_worldPointToBoard.
  - by apply worldPointToBoard_boardPointToWorld.
Qed.

Lemma viewport_round_trip_witness :
  let p := {| x := Q2Qc 12; y := Q2Qc (-7) |} in
  let v := {| offsetX := Q2Qc 40; offsetY := Q2Qc 2.5; zoom := Q2Qc 1.5 |} in
  Q2Qc 0 < zoom v ∧
  Coordinates.boardPointToWorld (Coordinates.worldPointToBoard p v) v = p.
Proof.
  intros p v. split; [reflexivity|].
  apply (viewport_round_trip p v); reflexivity.
Defined.

(** * Geometry *)

Section EdgeCurves.
Import Geometry.

Lemma getEdgeCurve_anchors (s t : NodeType) :
  {| x := sx (getEdgeCurve s t); y := sy (getEdgeCurve s t) |} = nodeCenter s ∧
  {| x := tx (getEdgeCurve s t); y := ty (getEdgeCurve s t) |} = nodeCenter t.
Proof. split; reflexivity. Qed.

Lemma getEdgeCurve_controls (s t : NodeType) :
  let c := getEdgeCurve s t in
  let dx := tx c - sx c in
  x1 c = sx c + Q2Qc 0.35 * dx ∧ y1 c = sy c ∧
  x2 c = tx c - Q2Qc 0.35 * dx ∧ y2 c = ty c.
Proof. simpl. repeat split; ring. Qed.

Lemma bernstein3_at_0 (p0 p1 p2 p3 : number) : bernstein3 (Q2Qc 0) p0 p1 p2 p3 = p0.
Proof. unfold bernstein3. simpl. ring. Qed.

Lemma bernstein3_at_1 (p0 p1 p2 p3 : number) : bernstein3 (Q2Qc 1) p0 p1 p2 p3 = p3.
Proof. unfold bernstein3. simpl. ring. Qed.

Lemma cubicBezierPoint_x (t : number) (c : EdgeCurve) :
  x (cubicBezierPoint t c) = bernstein3 t (sx c) (x1 c) (x2 c) (tx c).
Proof. unfold cubicBezierPoint, bernstein3. simpl. ring. Qed.

Lemma cubicBezierPoint_y (t : number) (c : EdgeCurve) :
  y (cubicBezierPoint t c) = bernstein3 t (sy c) (y1 c) (y2 c) (ty c).
Proof. unfold cubicBezierPoint, bernstein3. simpl. ring. Qed.

End EdgeCurves.

(** C6.  For every pair of nodes, [getEdgeCurve] anchors the curve at the
    centres of the two rectangles and sets the control points to
    [x1 = sx + 0.35·dx], [y1 = sy], [x2 = tx − 0.35·dx], [y2 = ty] with
    [dx = tx − sx]; when the source centre is [(0,0)] and the target centre
    [(100,0)] this gives [x1=35, y1=0, x2=65, y2=0, tx=100, ty=0]. *)
Theorem getEdgeCurve_spec (s t : NodeType) :
  let c := Geometry.getEdgeCurve s t in
  let dx := Geometry.tx c - Geometry.sx c in
  {| x := Geometry.sx c; y := Geometry.sy c |} = Geometry.nodeCenter s ∧
  {| x := Geometry.tx c; y := Geometry.ty c |} = Geometry.nodeCenter t ∧
  Geometry.x1 c = Geometry.sx c + Q2Qc 0.35 * dx ∧
  Geometry.y1 c = Geometry.sy c ∧
  Geometry.x2 c = Geometry.tx c - Q2Qc 0.35 * dx ∧
  Geometry.y2 c = Geometry.ty c ∧
  (Geometry.nodeCenter s = {| x := Q2Qc 0; y := Q2Qc 0 |} →
   Geometry.nodeCenter t = {| x := Q2Qc 100; y := Q2Qc 0 |} →
   Geometry.x1 c = Q2Qc 35 ∧ Geometry.y1 c = Q2Qc 0 ∧
   Geometry.x2 c = Q2Qc 65 ∧ Geometry.y2 c = Q2Qc 0 ∧
   Geometry.tx c = Q2Qc 100 ∧ Geometry.ty c = Q2Qc 0).
Proof.
  intros c dx.
  destruct (getEdgeCurve_anchors s t) as [Hs Ht].
  destruct (getEdgeCurve_controls s t) as (H1 & H2 & H3 & H4).
  fold c in Hs, Ht, H1, H2, H3, H4. fold dx in H1, H3.
  split_and!; try done.
  intros Es Et. rewrite Es in Hs. rewrite Et in Ht.
  pose proof (f_equal x Hs) as Hsx. pose proof (f_equal y Hs) as Hsy.
  pose proof (f_equal x Ht) as Htx. pose proof (f_equal y Ht) as Hty.
  cbn [x y] in Hsx, Hsy, Htx, Hty.
  subst dx. rewrite H1, H2, H3, H4, Hsx, Hsy, Htx, Hty.
  split_and!; try done; by apply Qc_literal.
Qed.

Lemma getEdgeCurve_spec_witness :
  let s := {| id := "s"; position := {| x := Q2Qc (-5); y := Q2Qc (-10) |};
              width := Q2Qc 10; height := Q2Qc 20 |} in
  let t := {| id := "t"; position := {| x := Q2Qc 80; y := Q2Qc (-3) |};
              width := Q2Qc 40; height := Q2Qc 6 |} in
  Geometry.x1 (Geometry.getEdgeCurve s t) = Q2Qc 35 ∧
  Geometry.x2 (Geometry.getEdgeCurve s t) = Q2Qc 65.
Proof.
  intros s t.
  destruct (getEdgeCurve_spec s t) as (_ & _ & _ & _ & _ & _ & H).
  destruct H as (H1 & _ & H2 & _).
  - apply Point_eq; by apply Qc_literal.
  - apply Point_eq; by apply Qc_literal.
  - split; [exact H1 | exact H2].
Defined.

(** C7.  For every curve and every [t] (so in particular every [t] in
    [[0,1]]), [cubicBezierPoint t curve] is the cubic Bernstein evaluation
    [(1−t)³·P0 + 3(1−t)²t·P1 + 3(1−t)t²·P2 + t³·P3] in each coordinate, and
    the end points are exact: at [t = 0] it is [(sx, sy)], at [t = 1] it is
    [(tx, ty)]. *)
Theorem cubicBezierPoint_spec (t : number) (curve : Geometry.EdgeCurve) :
  Geometry.cubicBezierPoint t curve =
    {| x := Geometry.bernstein3 t (Geometry.sx curve) (Geometry.x1 curve)
              (Geometry.x2 curve) (Geometry.tx curve);
       y := Geometry.bernstein3 t (Geometry.sy curve) (Geometry.y1 curve)
              (Geometry.y2 curve) (Geometry.ty curve) |} ∧
  Geometry.cubicBezierPoint (Q2Qc 0) curve =
    {| x := Geometry.sx curve; y := Geometry.sy curve |} ∧
  Geometry.cubicBezierPoint (Q2Qc 1) curve =
    {| x := Geometry.tx curve; y := Geometry.ty curve |}.
Proof.
  split_and!; apply Point_eq;
    rewrite ?cubicBezierPoint_x, ?cubicBezierPoint_y; simpl x; simpl y;
    auto using bernstein3_at_0, bernstein3_at_1.
Qed.

Section HitTesting.
Import Geometry.

Variables worldX worldY : number.

Lemma isPointInsideNode_true (node : NodeType) :
  isPointInsideNode worldX worldY node = true ↔
  x (position node) ≤ worldX ∧ worldX ≤ x (position node) + width node ∧
  y (position node) ≤ worldY ∧ worldY ≤ y (position node) + height node.
Proof.
  unfold isPointInsideNode.
  rewrite !andb_true_iff, !num_ge_true, !num_le_true. tauto.
Qed.

(** The descending index loop is a left-to-right search of the reversed
    prefix. *)
Lemma topNodeBelow_find (nodes : list NodeType) (n : nat) :
  (n ≤ length nodes)%nat →
  topNodeBelow nodes n worldX worldY =
  find (isPointInsideNode worldX worldY) (rev (take n nodes)).
Proof.
  induction n as [|i IH]; intros Hn; [done|].
  destruct (lookup_lt_is_Some_2 nodes i) as [node Hnode]; [lia|].
  simpl topNodeBelow. rewrite Hnode.
  rewrite (take_S_r _ _ _ Hnode), rev_app_distr. simpl.
  destruct (isPointInsideNode worldX worldY node); [done|].
  apply IH. lia.
Qed.

Lemma topNodeBelow_Some (nodes : list NodeType) (n : nat) (node : NodeType) :
  (n ≤ length nodes)%nat →
  topNodeBelow nodes n worldX worldY = Some node ↔
  ∃ i, (i < n)%nat ∧ nodes !! i = Some node ∧
       isPointInsideNode worldX worldY node = true ∧
       ∀ j other, (i < j < n)%nat → nodes !! j = Some other →
                  isPointInsideNode worldX worldY other = false.
Proof.
  induction n as [|k IH]; intros Hn.
  - simpl. split; [done|]. intros (i & Hi & _). lia.
  - destruct (lookup_lt_is_Some_2 nodes k) as [top Htop]; [lia|].
    simpl topNodeBelow. rewrite Htop.
    destruct (isPointInsideNode worldX worldY top) eqn:Hin.
    + split.
      * intros [= <-]. exists k. split_and!; [lia|done|done|].
        intros j other Hj. lia.
      * intros (i & Hi & Hnode & Hinside & Hlast).
        destruct (decide (i = k)) as [->|Hne]; [congruence|].
        rewrite (Hlast k top) in Hin; [done|lia|done].
    + rewrite IH by lia. split.
      * intros (i & Hi & Hnode & Hinside & Hlast).
        exists i. split_and!; [lia|done|done|].
        intros j other Hj Hother.
        destruct (decide (j = k)) as [->|Hne]; [congruence|].
        apply (Hlast j); [lia|done].
      * intros (i & Hi & Hnode & Hinside & Hlast).
        destruct (decide (i = k)) as [->|Hne]; [congruence|].
        exists i. split_and!; [lia|done|done|].
        intros j other Hj. apply Hlast. lia.
Qed.

Lemma topNodeBelow_None (nodes : list NodeType) (n : nat) :
  (n ≤ length nodes)%nat →
  topNodeBelow nodes n worldX worldY = None ↔
  ∀ i node, (i < n)%nat → nodes !! i = Some node →
            isPointInsideNode worldX worldY node = false.
Proof.
  induction n as [|k IH]; intros Hn.
  - simpl. split; [|done]. intros _ i node Hi. lia.
  - destruct (lookup_lt_is_Some_2 nodes k) as [top Htop]; [lia|].
    simpl topNodeBelow. rewrite Htop.
    destruct (isPointInsideNode worldX worldY top) eqn:Hin.
    + split; [done|]. intros H. rewrite (H k top) in Hin; [done|lia|done].
    + rewrite IH by lia. split.
      * intros H i node Hi Hnode.
        destruct (decide (i = k)) as [->|Hne]; [congruence|].
        apply (H i); [lia|done].
      * intros H i node Hi. apply H. lia.
Qed.

End HitTesting.

(** C8.  For every node list and point: [isPointInsideNode] is containment
    in the axis-aligned rectangle, boundary included; [getTopNodeAtPoint] is
    the search of the reversed list for the first containing node, so it
    returns the containing node of highest index (the last in draw order),
    and returns nothing exactly when no node contains the point; for two
    nodes [A] then [B] that both contain the point it returns [B]. *)
Theorem getTopNodeAtPoint_spec (nodes : list NodeType) (worldX worldY : number) :
  (∀ node,
     Geometry.isPointInsideNode worldX worldY node = true ↔
     x (position node) ≤ worldX ∧ worldX ≤ x (position node) + width node ∧
     y (position node) ≤ worldY ∧ worldY ≤ y (position node) + height node) ∧
  Geometry.getTopNodeAtPoint nodes worldX worldY =
    find (Geometry.isPointInsideNode worldX worldY) (rev nodes) ∧
  (∀ node,
     Geometry.getTopNodeAtPoint nodes worldX worldY = Some node ↔
     ∃ i, nodes !! i = Some node ∧
          Geometry.isPointInsideNode worldX worldY node = true ∧
          ∀ j other, (i < j)%nat → nodes !! j = Some other →
                     Geometry.isPointInsideNode worldX worldY other = false) ∧
  (Geometry.getTopNodeAtPoint nodes worldX worldY = None ↔
   ∀ node, node ∈ nodes →
           Geometry.isPointInsideNode worldX worldY node = false) ∧
  (∀ A B,
     Geometry.isPointInsideNode worldX worldY A = true →
     Geometry.isPointInsideNode worldX worldY B = true →
     Geometry.getTopNodeAtPoint [A; B] worldX worldY = Some B).
Proof.
  unfold Geometry.getTopNodeAtPoint. split_and!.
  - apply isPointInsideNode_true.
  - rewrite topNodeBelow_find by done. by rewrite firstn_all.
  - intros node. rewrite topNodeBelow_Some by done. split.
    + intros (i & Hi & Hnode & Hin & Hlast). exists i. split_and!; [done..|].
      intros j other Hj Hother. apply (Hlast j); [|done].
      apply lookup_lt_Some in Hother. lia.
    + intros (i & Hnode & Hin & Hlast). exists i.
      split_and!; [by eapply lookup_lt_Some|done|done|].
      intros j other Hj. apply Hlast. lia.
  - rewrite topNodeBelow_None by done. split.
    + intros H node [i Hi]%list_elem_of_lookup.
      apply (H i); [|done]. by eapply lookup_lt_Some.
    + intros H i node _ Hnode. apply H. by eapply list_elem_of_lookup_2.
  - intros A B HA HB. simpl. by rewrite HB.
Qed.

Lemma getTopNodeAtPoint_spec_witness :
  let A := {| id := "A"; position := {| x := Q2Qc 0; y := Q2Qc 0 |};
              width := Q2Qc 10; height := Q2Qc 10 |} in
  let B := {| id := "B"; position := {| x := Q2Qc 5; y := Q2Qc 5 |};
              width := Q2Qc 10; height := Q2Qc 10 |} in
  Geometry.getTopNodeAtPoint [A; B] (Q2Qc 5) (Q2Qc 5) = Some B.
Proof.
  intros A B.
  apply (getTopNodeAtPoint_spec [] (Q2Qc 5) (Q2Qc 5)); reflexivity.
Defined.

Lemma Qc_two : Q2Qc 2 = Q2Qc 1 + Q2Qc 1.
Proof. by apply Qc_literal. Qed.

Section Bounds.
Import Geometry.

Lemma foldl_bounds_step (rest : list NodeType) (acc : Extrema) :
  foldl bounds_step acc rest =
  {| e_minX := foldl (λ m node, Math_min m (left_of node)) (e_minX acc) rest;
     e_minY := foldl (λ m node, Math_min m (top_of node)) (e_minY acc) rest;
     e_maxX := foldl (λ m node, Math_max m (right_of node)) (e_maxX acc) rest;
     e_maxY := foldl (λ m node, Math_max m (bottom_of node)) (e_maxY acc) rest |}.
Proof.
  revert acc. induction rest as [|node rest IH]; intros acc; simpl.
  - by destruct acc.
  - by rewrite IH.
Qed.

Lemma foldl_min_least (f : NodeType → number) (rest : list NodeType)
    (node0 : NodeType) :
  ∀ m seen, least_of f (node0 :: seen) m →
  least_of f (node0 :: seen ++ rest) (foldl (λ m node, Math_min m (f node)) m rest).
Proof.
  induction rest as [|node rest IH]; intros m seen Hm; simpl.
  - by rewrite app_nil_r.
  - replace (seen ++ node :: rest) with ((seen ++ [node]) ++ rest)
      by (by rewrite <- app_assoc).
    apply IH. destruct Hm as [Hlow (w & Hw & Hwm)]. split.
    + intros other Hother.
      rewrite app_comm_cons in Hother. apply elem_of_app in Hother.
      destruct Hother as [Hother|Hother%list_elem_of_singleton].
      * eapply Qcle_trans; [apply Math_min_le_l|]. by apply Hlow.
      * subst other. apply Math_min_le_r.
    + destruct (Math_min_cases m (f node)) as [E|E]; rewrite E.
      * exists w. split; [|done]. rewrite app_comm_cons. apply elem_of_app. by left.
      * exists node. split; [|done]. rewrite app_comm_cons. apply elem_of_app.
        right. by apply list_elem_of_singleton.
Qed.

Lemma foldl_max_greatest (f : NodeType → number) (rest : list NodeType)
    (node0 : NodeType) :
  ∀ m seen, greatest_of f (node0 :: seen) m →
  greatest_of f (node0 :: seen ++ rest) (foldl (λ m node, Math_max m (f node)) m rest).
Proof.
  induction rest as [|node rest IH]; intros m seen Hm; simpl.
  - by rewrite app_nil_r.
  - replace (seen ++ node :: rest) with ((seen ++ [node]) ++ rest)
      by (by rewrite <- app_assoc).
    apply IH. destruct Hm as [Hup (w & Hw & Hwm)]. split.
    + intros other Hother.
      rewrite app_comm_cons in Hother. apply elem_of_app in Hother.
      destruct Hother as [Hother|Hother%list_elem_of_singleton].
      * eapply Qcle_trans; [|apply Math_max_ge_l]. by apply Hup.
      * subst other. apply Math_max_ge_r.
    + destruct (Math_max_cases m (f node)) as [E|E]; rewrite E.
      * exists w. split; [|done]. rewrite app_comm_cons. apply elem_of_app. by left.
      * exists node. split; [|done]. rewrite app_comm_cons. apply elem_of_app.
        right. by apply list_elem_of_singleton.
Qed.

Lemma least_of_singleton (f : NodeType → number) (node0 : NodeType) :
  least_of f [node0] (f node0).
Proof.
  split.
  - intros node ->%list_elem_of_singleton. apply Qcle_refl.
  - exists node0. split; [by apply list_elem_of_singleton|done].
Qed.

Lemma greatest_of_singleton (f : NodeType → number) (node0 : NodeType) :
  greatest_of f [node0] (f node0).
Proof.
  split.
  - intros node ->%list_elem_of_singleton. apply Qcle_refl.
  - exists node0. split; [by apply list_elem_of_singleton|done].
Qed.

Lemma getNodesBounds_None (nodes : list NodeType) :
  getNodesBounds nodes = None ↔ nodes = [].
Proof. by destruct nodes. Qed.

Lemma getNodesBounds_extrema (nodes : list NodeType) (b : NodeBounds) :
  getNodesBounds nodes = Some b →
  least_of left_of nodes (minX b) ∧ least_of top_of nodes (minY b) ∧
  greatest_of right_of nodes (maxX b) ∧ greatest_of bottom_of nodes (maxY b).
Proof.
  destruct nodes as [|node0 rest]; [done|].
  unfold getNodesBounds. rewrite foldl_bounds_step. intros [= <-]. simpl.
  split_and!.
  - apply (foldl_min_least left_of rest node0 _ []), least_of_singleton.
  - apply (foldl_min_least top_of rest node0 _ []), least_of_singleton.
  - apply (foldl_max_greatest right_of rest node0 _ []), greatest_of_singleton.
  - apply (foldl_max_greatest bottom_of rest node0 _ []), greatest_of_singleton.
Qed.

Lemma getNodesBounds_derived (nodes : list NodeType) (b : NodeBounds) :
  getNodesBounds nodes = Some b →
  bwidth b = maxX b - minX b ∧ bheight b = maxY b - minY b ∧
  centerX b = (minX b + maxX b) / Q2Qc 2 ∧
  centerY b = (minY b + maxY b) / Q2Qc 2.
Proof.
  destruct nodes as [|node0 rest]; [done|].
  unfold getNodesBounds. intros [= <-].
  cbn [bwidth bheight centerX centerY minX maxX minY maxY].
  split_and!; try done; rewrite Qc_two; field; done.
Qed.

End Bounds.

(** C9.  [getNodesBounds] returns nothing exactly when the node list is
    empty.  For a non-empty list it returns bounds whose [minX]/[minY] are
    the least left/top corner coordinates and whose [maxX]/[maxY] are the
    greatest right/bottom corner coordinates over all nodes, with
    [width = maxX − minX], [height = maxY − minY] and the centre at the
    midpoint of the bounds.  A single node at [(0,0)] of width 10 and height
    20 gives [{minX:0, minY:0, maxX:10, maxY:20, width:10, height:20,
    centerX:5, centerY:10}]. *)
Theorem getNodesBounds_spec (nodes : list NodeType) :
  (Geometry.getNodesBounds nodes = None ↔ nodes = []) ∧
  (nodes ≠ [] → ∃ b, Geometry.getNodesBounds nodes = Some b) ∧
  (∀ b, Geometry.getNodesBounds nodes = Some b →
     least_of left_of nodes (Geometry.minX b) ∧
     least_of top_of nodes (Geometry.minY b) ∧
     greatest_of right_of nodes (Geometry.maxX b) ∧
     greatest_of bottom_of nodes (Geometry.maxY b) ∧
     Geometry.bwidth b = Geometry.maxX b - Geometry.minX b ∧
     Geometry.bheight b = Geometry.maxY b - Geometry.minY b ∧
     Geometry.centerX b = (Geometry.minX b + Geometry.maxX b) / Q2Qc 2 ∧
     Geometry.centerY b = (Geometry.minY b + Geometry.maxY b) / Q2Qc 2) ∧
  (∀ name,
     Geometry.getNodesBounds
       [{| id := name; position := {| x := Q2Qc 0; y := Q2Qc 0 |};
           width := Q2Qc 10; height := Q2Qc 20 |}] =
     Some {| Geometry.centerX := Q2Qc 5; Geometry.centerY := Q2Qc 10;
             Geometry.bheight := Q2Qc 20;
             Geometry.maxX := Q2Qc 10; Geometry.maxY := Q2Qc 20;
             Geometry.minX := Q2Qc 0; Geometry.minY := Q2Qc 0;
             Geometry.bwidth := Q2Qc 10 |}).
Proof.
  split_and!.
  - apply getNodesBounds_None.
  - intros Hne. destruct (Geometry.getNodesBounds nodes) as [b|] eqn:E; [by exists b|].
    by apply getNodesBounds_None in E.
  - intros b Hb.
    destruct (getNodesBounds_extrema nodes b Hb) as (H1 & H2 & H3 & H4).
    destruct (getNodesBounds_derived nodes b Hb) as (H5 & H6 & H7 & H8).
    done.
  - intros name. unfold Geometry.getNodesBounds. simpl foldl. cbv zeta.
    cbn [Geometry.e_minX Geometry.e_minY Geometry.e_maxX Geometry.e_maxY
         x y position width height].
    f_equal; by apply Qc_literal.
Qed.

Lemma getNodesBounds_spec_witness :
  let a := {| id := "a"; position := {| x := Q2Qc 0; y := Q2Qc 0 |};
              width := Q2Qc 10; height := Q2Qc 20 |} in
  let b := {| id := "b"; position := {| x := Q2Qc (-4); y := Q2Qc 6 |};
              width := Q2Qc 8; height := Q2Qc 30 |} in
  ∃ bounds, Geometry.getNodesBounds [a; b] = Some bounds.
Proof.
  intros a b. apply (getNodesBounds_spec [a; b]). discriminate.
Defined.

(** * Per-frame vertex generation *)

Section VertexGeneration.
Import Geometry Renderer.

Lemma createNodeMap_snoc (nodes : list NodeType) (node : NodeType) :
  createNodeMap (nodes ++ [node]) = <[id node := node]> (createNodeMap nodes).
Proof. unfold createNodeMap. by rewrite foldl_snoc. Qed.

(** An id resolves in the node map exactly when some node carries it. *)
Lemma createNodeMap_is_Some (nodes : list NodeType) (key : string) :
  is_Some (createNodeMap nodes !! key) ↔ ∃ node, node ∈ nodes ∧ id node = key.
Proof.
  induction nodes as [|node nodes IH] using rev_ind.
  - unfold createNodeMap. simpl. rewrite lookup_empty. split.
    + by intros [? ?].
    + intros (node & Hin & _). by apply elem_of_nil in Hin.
  - rewrite createNodeMap_snoc. rewrite lookup_insert_is_Some, IH. split.
    + intros [<- | [_ (other & Hin & Hid)]].
      * exists node. split; [|done]. apply elem_of_app. right. by apply list_elem_of_singleton.
      * exists other. split; [|done]. apply elem_of_app. by left.
    + intros (other & [Hin | ->%list_elem_of_singleton]%elem_of_app & Hid).
      * destruct (decide (id node = key)); [by left|right]. split; [done|]. by exists other.
      * by left.
Qed.

Lemma length_appendVertex (vertices : list number) (px py : number) (color : Color) :
  length (appendVertex vertices px py color) = (length vertices + 6)%nat.
Proof.
  unfold appendVertex. destruct color as [[[c0 c1] c2] c3].
  by rewrite length_app.
Qed.

Lemma length_appendNode (v : ViewportType) (dpr : number)
    (vertices : list number) (node : NodeType) :
  length (appendNode v dpr vertices node) = (length vertices + 6 * 6)%nat.
Proof. unfold appendNode. rewrite !length_appendVertex. lia. Qed.

Lemma length_foldl_appendNode (v : ViewportType) (dpr : number)
    (nodes : list NodeType) (vertices : list number) :
  length (foldl (appendNode v dpr) vertices nodes) =
  (length vertices + 6 * (6 * length nodes))%nat.
Proof.
  revert vertices. induction nodes as [|node nodes IH]; intros vertices; simpl.
  - lia.
  - rewrite IH, length_appendNode. lia.
Qed.

Lemma length_edgeSegment (curve : EdgeCurve) (v : ViewportType)
    (dpr : number) (vertices : list number) (previous : Point) (i : nat) :
  length (edgeSegment curve v dpr (vertices, previous) i).1 =
  (length vertices + 6 * 2)%nat.
Proof.
  unfold edgeSegment. cbv zeta. cbn [fst]. rewrite !length_appendVertex. lia.
Qed.

Lemma length_foldl_edgeSegment (curve : EdgeCurve) (v : ViewportType)
    (dpr : number) (steps : list nat) (vertices : list number) (previous : Point) :
  length (foldl (edgeSegment curve v dpr) (vertices, previous) steps).1 =
  (length vertices + 6 * (2 * length steps))%nat.
Proof.
  revert vertices previous.
  induction steps as [|i steps IH]; intros vertices previous.
  - simpl. lia.
  - cbn [foldl].
    destruct (edgeSegment curve v dpr (vertices, previous) i)
      as [vertices' next] eqn:E.
    rewrite IH. pose proof (length_edgeSegment curve v dpr vertices previous i) as H.
    rewrite E in H. simpl in H. simpl length. lia.
Qed.

Lemma appendEdge_unresolved (nodeMap : gmap string NodeType) (v : ViewportType)
    (dpr : number) (vertices : list number) (edge : EdgeType) :
  resolves nodeMap edge = false →
  appendEdge nodeMap v dpr vertices edge = vertices.
Proof.
  unfold resolves, appendEdge. intros H%bool_decide_eq_false.
  destruct (nodeMap !! source edge), (nodeMap !! target edge); try done.
  destruct H. split; by eexists.
Qed.

Lemma length_appendEdge_resolved (nodeMap : gmap string NodeType)
    (v : ViewportType) (dpr : number) (vertices : list number) (edge : EdgeType) :
  resolves nodeMap edge = true →
  length (appendEdge nodeMap v dpr vertices edge) =
  (length vertices + 6 * (2 * EDGE_SEGMENTS))%nat.
Proof.
  unfold resolves, appendEdge. intros [[s Hs] [t Ht]]%bool_decide_eq_true.
  rewrite Hs, Ht. by rewrite length_foldl_edgeSegment, length_seq.
Qed.

Lemma length_foldl_appendEdge (nodeMap : gmap string NodeType)
    (v : ViewportType) (dpr : number) (edges : list EdgeType)
    (vertices : list number) :
  length (foldl (appendEdge nodeMap v dpr) vertices edges) =
  (length vertices
   + 6 * (2 * EDGE_SEGMENTS * length (filter (λ e, resolves nodeMap e = true) edges)))%nat.
Proof.
  revert vertices. induction edges as [|edge edges IH]; intros vertices.
  - simpl. lia.
  - simpl foldl. rewrite IH. rewrite filter_cons.
    destruct (resolves nodeMap edge) eqn:E.
    + rewrite decide_True by done. rewrite length_appendEdge_resolved by done.
      simpl length. lia.
    + rewrite decide_False by done. by rewrite appendEdge_unresolved.
Qed.

(** [data.length / FLOATS_PER_VERTEX] for an array of [n] whole vertices. *)
Lemma whole_vertices (n : nat) :
  of_nat (6 * n) / of_Z FLOATS_PER_VERTEX = of_nat n.
Proof.
  unfold of_nat, of_Z, FLOATS_PER_VERTEX.
  rewrite Nat2Z.inj_mul, Z2Qc_inj_mul. change (Z.of_nat 6) with 6%Z.
  field. rewrite <- Z2Qc_inj_0. by intros ?%Z2Qc_inj.
Qed.

Lemma vertexCount_uploadVertices (g : Gpu) (state : DynamicVertexBuffer)
    (data : list number) :
  vertexCount (uploadVertices g state data).2 =
  of_nat (length data) / of_Z FLOATS_PER_VERTEX.
Proof.
  unfold uploadVertices, ensureVertexBuffer.
  repeat (case_bool_decide || case_match || simplify_eq/= || destruct (_ && _)); done.
Qed.

End VertexGeneration.

(** * Frames *)

Section Frames.
Import Geometry Renderer.

Lemma draw_drawable (c : Component) (runtime : Runtime) :
  drawable c runtime → draw c = frame runtime c.
Proof.
  intros (Hr & canvas & Hc & Hw & Hh). unfold draw, frame. rewrite Hr, Hc.
  rewrite !bool_decide_eq_false_2 by done. simpl.
  destruct (uploadVertices (gpu c) _ _) as [g1 edgeBuffer]. cbn [fst snd].
  by destruct (uploadVertices g1 _ _) as [g2 nodeBuffer].
Qed.

Lemma draw_not_drawable (c : Component) :
  (∀ runtime, ¬ drawable c runtime) → draw c = c.
Proof.
  intros H. unfold draw.
  destruct (runtimeRef c) as [runtime|] eqn:Hr; [|done].
  destruct (canvasRef c) as [canvas|] eqn:Hc; [|done].
  repeat case_bool_decide; try done.
  destruct (H runtime). split; [done|]. by exists canvas.
Qed.

Lemma uploadVertices_nil (g : Gpu) (state : DynamicVertexBuffer) :
  uploadVertices g state [] =
  (g, {| buffer := buffer state;
         capacityBytes := capacityBytes state;
         vertexCount := Q2Qc 0 |}).
Proof. unfold uploadVertices. simpl. do 2 f_equal. by apply Qc_literal. Qed.

Lemma drawBuffer_empty (pipeline : handle) (state : DynamicVertexBuffer) (g : Gpu) :
  vertexCount state = Q2Qc 0 → drawBuffer pipeline state g = g.
Proof. unfold drawBuffer. intros ->. by destruct (buffer state). Qed.

End Frames.

(** C1.  For every scene snapshot and device pixel ratio: an id resolves in
    the node map exactly when a node of the scene carries it; the node
    vertex array holds 6 vertices (of 6 floats) per node; the edge vertex
    array holds [2 × 28 = 56] vertices per edge whose two ids resolve, an
    edge with a missing id adding nothing; and a frame drawn from that
    snapshot records these counts as the [vertexCount] of the two buffers.
    Every function involved is total, so no input raises. *)
Theorem draw_vertex_counts (scene : Renderer.SceneSnapshot) (dpr : number) :
  let nodeMap := Geometry.createNodeMap (Renderer.nodes scene) in
  let resolved :=
    filter (λ e, resolves nodeMap e = true) (Renderer.edges scene) in
  (∀ key, is_Some (nodeMap !! key) ↔
          ∃ node, node ∈ Renderer.nodes scene ∧ id node = key) ∧
  length (Renderer.buildNodeVertices scene dpr) =
    (6 * (6 * length (Renderer.nodes scene)))%nat ∧
  length (Renderer.buildEdgeVertices scene dpr) =
    (6 * (56 * length resolved))%nat ∧
  (∀ vertices edge,
     resolves nodeMap edge = true →
     length (Renderer.appendEdge nodeMap (Renderer.viewport scene) dpr
               vertices edge) = (length vertices + 6 * 56)%nat) ∧
  (∀ vertices edge,
     resolves nodeMap edge = false →
     Renderer.appendEdge nodeMap (Renderer.viewport scene) dpr vertices edge =
     vertices) ∧
  (∀ c runtime,
     drawable c runtime →
     Renderer.sceneRef c = scene → Renderer.dprRef c = dpr →
     Renderer.vertexCount (Renderer.nodeBufferRef (Renderer.draw c)) =
       Renderer.of_nat (6 * length (Renderer.nodes scene)) ∧
     Renderer.vertexCount (Renderer.edgeBufferRef (Renderer.draw c)) =
       Renderer.of_nat (56 * length resolved)).
Proof.
  intros nodeMap resolved.
  assert (Hnodes : length (Renderer.buildNodeVertices scene dpr) =
                   (6 * (6 * length (Renderer.nodes scene)))%nat).
  { unfold Renderer.buildNodeVertices. by rewrite length_foldl_appendNode. }
  assert (Hedges : length (Renderer.buildEdgeVertices scene dpr) =
                   (6 * (56 * length resolved))%nat).
  { unfold Renderer.buildEdgeVertices. by rewrite length_foldl_appendEdge. }
  split_and!; try done.
  - apply createNodeMap_is_Some.
  - intros vertices edge H. by rewrite length_appendEdge_resolved.
  - intros vertices edge H. by apply appendEdge_unresolved.
  - intros c runtime Hc Hscene Hdpr. rewrite (draw_drawable c runtime Hc).
    unfold frame. cbn. rewrite !vertexCount_uploadVertices.
    rewrite Hscene, Hdpr, Hnodes, Hedges. by rewrite !whole_vertices.
Qed.

(** * Dynamic vertex buffers *)

Section VertexBuffers.
Import Renderer.

Lemma byteLength_nonneg (data : list number) : (0 ≤ byteLength data)%Z.
Proof. unfold byteLength, BYTES_PER_FLOAT. lia. Qed.

Lemma byteLength_pos (data : list number) : data ≠ [] → (0 < byteLength data)%Z.
Proof. unfold byteLength, BYTES_PER_FLOAT. destruct data; [done|]. simpl length. lia. Qed.

Lemma buffer_wf_empty : buffer_wf emptyBuffer.
Proof. done. Qed.

(** An upload that fits: nothing but the write. *)
Lemma uploadVertices_fits (g : Gpu) (state : DynamicVertexBuffer)
    (data : list number) (h : handle) :
  data ≠ [] → buffer state = Some h →
  (byteLength data ≤ capacityBytes state)%Z →
  uploadVertices g state data =
  (issue (WriteBuffer h 0 data 0 (Z.of_nat (length data))) g,
   {| buffer := Some h;
      capacityBytes := capacityBytes state;
      vertexCount := of_nat (length data) / of_Z FLOATS_PER_VERTEX |}).
Proof.
  intros Hdata Hbuf Hfit. unfold uploadVertices, ensureVertexBuffer.
  rewrite bool_decide_eq_false_2 by (by destruct data).
  cbn [buffer capacityBytes]. rewrite Hbuf.
  rewrite (bool_decide_eq_true_2 (is_Some _)) by (by eexists).
  rewrite bool_decide_eq_true_2 by lia. by cbn.
Qed.

(** An upload that does not fit: release, allocate, write. *)
Lemma uploadVertices_grows (g : Gpu) (state : DynamicVertexBuffer)
    (data : list number) :
  data ≠ [] →
  (capacityBytes state < byteLength data)%Z →
  let capacity :=
    Z.max 4096 (Z.max (byteLength data) (capacityBytes state * 2)) in
  uploadVertices g state data =
  ({| nextHandle := S (nextHandle g);
      calls := calls g ++ release state
               ++ [CreateBuffer (nextHandle g) capacity vertexUsage;
                   WriteBuffer (nextHandle g) 0 data 0 (Z.of_nat (length data))] |},
   {| buffer := Some (nextHandle g);
      capacityBytes := capacity;
      vertexCount := of_nat (length data) / of_Z FLOATS_PER_VERTEX |}).
Proof.
  intros Hdata Hgrow capacity. unfold uploadVertices, ensureVertexBuffer.
  rewrite bool_decide_eq_false_2 by (by destruct data).
  cbn [buffer capacityBytes].
  rewrite (bool_decide_eq_false_2 (_ >= _)%Z) by lia. rewrite andb_false_r.
  unfold release, createBuffer, fresh, issue. fold vertexUsage. fold capacity.
  destruct (buffer state); cbn; by rewrite <- ?app_assoc.
Qed.

Lemma uploadVertices_step (g : Gpu) (state : DynamicVertexBuffer)
    (data : list number) :
  buffer_wf state →
  buffer_wf (uploadVertices g state data).2 ∧
  (capacityBytes state ≤ capacityBytes (uploadVertices g state data).2)%Z ∧
  (data ≠ [] → byteLength data ≤ capacityBytes (uploadVertices g state data).2)%Z.
Proof.
  intros [Hnonneg Hnone].
  destruct data as [|d data].
  { rewrite uploadVertices_nil. unfold buffer_wf. cbn. split_and!; done || lia. }
  set (payload := d :: data).
  assert (Hdata : payload ≠ []) by done.
  destruct (decide (byteLength payload ≤ capacityBytes state)%Z) as [Hfit|Hgrow].
  - pose proof (byteLength_pos payload Hdata) as Hpos.
    destruct (buffer state) as [h|] eqn:Hbuf; [|rewrite Hnone in Hfit by done; lia].
    rewrite (uploadVertices_fits g state payload h) by done.
    unfold buffer_wf. cbn. split_and!; done || lia.
  - rewrite uploadVertices_grows by (done || lia).
    unfold buffer_wf. cbn. split_and!; done || lia.
Qed.

Lemma uploadAll_snoc (g : Gpu) (state : DynamicVertexBuffer)
    (payloads : list (list number)) (data : list number) :
  uploadAll g state (payloads ++ [data]) =
  uploadVertices (uploadAll g state payloads).1 (uploadAll g state payloads).2 data.
Proof. unfold uploadAll. by rewrite foldl_snoc. Qed.

Lemma uploadAll_monotone (g : Gpu) (state : DynamicVertexBuffer)
    (payloads : list (list number)) :
  buffer_wf state →
  buffer_wf (uploadAll g state payloads).2 ∧
  (capacityBytes state ≤ capacityBytes (uploadAll g state payloads).2)%Z ∧
  (∀ data, data ∈ payloads → data ≠ [] →
           byteLength data ≤ capacityBytes (uploadAll g state payloads).2)%Z.
Proof.
  intros Hwf. induction payloads as [|data payloads IH] using rev_ind.
  - cbn. split; [done|]. split; [lia|]. by intros data ?%elem_of_nil.
  - rewrite uploadAll_snoc. destruct IH as (IHwf & IHcap & IHall).
    destruct (uploadVertices_step (uploadAll g state payloads).1
                (uploadAll g state payloads).2 data IHwf) as (Swf & Scap & Sreq).
    split; [done|]. split; [lia|].
    intros other [Hin | ->%list_elem_of_singleton]%elem_of_app Hne.
    + specialize (IHall other Hin Hne). lia.
    + by apply Sreq.
Qed.

Lemma buildNodeVertices_nil (scene : SceneSnapshot) (dpr : number) :
  nodes scene = [] → buildNodeVertices scene dpr = [].
Proof. unfold buildNodeVertices. by intros ->. Qed.

Lemma buildEdgeVertices_nil (scene : SceneSnapshot) (dpr : number) :
  edges scene = [] → buildEdgeVertices scene dpr = [].
Proof. unfold buildEdgeVertices. by intros ->. Qed.

End VertexBuffers.

(** C3.  For every buffer state the renderer can hold (no handle means
    capacity zero, which [buffers_wf_run] shows of both buffers in every
    run) and every payload: an upload whose byte size is at most the
    capacity allocates and releases nothing and leaves [capacityBytes] and the
    handle unchanged; an upload whose byte size exceeds the capacity releases
    the old handle and allocates a new buffer of exactly
    [max(4096, max(required, capacity*2))] bytes, into which the payload is
    written; so across any sequence of uploads [capacityBytes] never
    decreases and is at least the byte size of every non-empty payload
    uploaded, the last one in particular. *)
Theorem vertex_buffer_growth (g : Renderer.Gpu)
    (state : Renderer.DynamicVertexBuffer) (data : list number) :
  buffer_wf state →
  let required := Renderer.byteLength data in
  let result := Renderer.uploadVertices g state data in
  buffer_wf result.2 ∧
  ((required ≤ Renderer.capacityBytes state)%Z →
     Renderer.capacityBytes result.2 = Renderer.capacityBytes state ∧
     Renderer.buffer result.2 = Renderer.buffer state ∧
     Renderer.nextHandle result.1 = Renderer.nextHandle g ∧
     (Renderer.calls result.1 = Renderer.calls g ∨
      ∃ h, Renderer.buffer state = Some h ∧
           Renderer.calls result.1 =
             Renderer.calls g
             ++ [Renderer.WriteBuffer h 0 data 0 (Z.of_nat (length data))])) ∧
  ((Renderer.capacityBytes state < required)%Z →
     let capacity :=
       Z.max 4096 (Z.max required (Renderer.capacityBytes state * 2)) in
     Renderer.capacityBytes result.2 = capacity ∧
     Renderer.buffer result.2 = Some (Renderer.nextHandle g) ∧
     Renderer.calls result.1 =
       Renderer.calls g ++ release state
       ++ [Renderer.CreateBuffer (Renderer.nextHandle g) capacity vertexUsage;
           Renderer.WriteBuffer (Renderer.nextHandle g) 0 data 0
             (Z.of_nat (length data))]) ∧
  (Renderer.capacityBytes state ≤ Renderer.capacityBytes result.2)%Z ∧
  (data ≠ [] → (required ≤ Renderer.capacityBytes result.2)%Z) ∧
  (∀ g' payloads,
     let final := (uploadAll g' state payloads).2 in
     buffer_wf final ∧
     (Renderer.capacityBytes state ≤ Renderer.capacityBytes final)%Z ∧
     ∀ payload, payload ∈ payloads → payload ≠ [] →
                (Renderer.byteLength payload ≤ Renderer.capacityBytes final)%Z).
Proof.
  intros Hwf required result.
  destruct (uploadVertices_step g state data Hwf) as (Swf & Scap & Sreq).
  split_and!; try done.
  - intros Hfit. subst result. destruct Hwf as [Hnonneg Hnone].
    destruct data as [|d data].
    { rewrite uploadVertices_nil. cbn. split_and!; try done. by left. }
    assert (0 < Renderer.byteLength (d :: data))%Z as Hpos
      by (by apply byteLength_pos).
    subst required.
    destruct (Renderer.buffer state) as [h|] eqn:Hbuf;
      [|rewrite Hnone in Hfit by done; lia].
    rewrite (uploadVertices_fits g state (d :: data) h) by done. cbn.
    split_and!; try done. right. by exists h.
  - intros Hgrow capacity. subst result required.
    assert (data ≠ []) as Hdata.
    { intros ->. destruct Hwf as [Hnonneg _].
      change (Renderer.byteLength []) with 0%Z in Hgrow. lia. }
    by rewrite uploadVertices_grows.
  - intros g' payloads. by apply uploadAll_monotone.
Qed.

Lemma vertex_buffer_growth_witness :
  let data := [Q2Qc 1; Q2Qc 2; Q2Qc 0.5; Q2Qc 0.5; Q2Qc 0.5; Q2Qc 1] in
  let g := {| Renderer.nextHandle := 3%nat; Renderer.calls := [] |} in
  buffer_wf Renderer.emptyBuffer ∧
  Renderer.capacityBytes (Renderer.uploadVertices g Renderer.emptyBuffer data).2
  = 4096%Z.
Proof.
  intros data g. split; [apply buffer_wf_empty|].
  apply (vertex_buffer_growth g Renderer.emptyBuffer data buffer_wf_empty).
  reflexivity.
Defined.

(** C10.  For every buffer state, [uploadVertices] with an empty payload sets
    [vertexCount] to 0 and changes nothing else: handle and [capacityBytes]
    are as before and the GPU sees no call at all (no allocation, no release,
    no write); the draw call of a buffer whose [vertexCount] is 0 is skipped.
    So a frame of a scene without nodes leaves the node buffer's handle and
    capacity as they were and issues nothing for it, and likewise for the
    edge buffer when the scene has no edges. *)
Theorem upload_of_empty_payload (g : Renderer.Gpu)
    (state : Renderer.DynamicVertexBuffer) :
  Renderer.uploadVertices g state [] =
    (g, {| Renderer.buffer := Renderer.buffer state;
           Renderer.capacityBytes := Renderer.capacityBytes state;
           Renderer.vertexCount := Q2Qc 0 |}) ∧
  (∀ pipeline,
     Renderer.drawBuffer pipeline (Renderer.uploadVertices g state []).2 g = g) ∧
  (∀ c runtime,
     drawable c runtime → Renderer.nodes (Renderer.sceneRef c) = [] →
     Renderer.buffer (Renderer.nodeBufferRef (Renderer.draw c)) =
       Renderer.buffer (Renderer.nodeBufferRef c) ∧
     Renderer.capacityBytes (Renderer.nodeBufferRef (Renderer.draw c)) =
       Renderer.capacityBytes (Renderer.nodeBufferRef c) ∧
     Renderer.vertexCount (Renderer.nodeBufferRef (Renderer.draw c)) = Q2Qc 0 ∧
     let edgeUpload :=
       Renderer.uploadVertices (Renderer.gpu c) (Renderer.edgeBufferRef c)
         (Renderer.buildEdgeVertices (Renderer.sceneRef c) (Renderer.dprRef c)) in
     Renderer.gpu (Renderer.draw c) =
       Renderer.issue Renderer.Submit
         (Renderer.issue Renderer.EndPass
            (Renderer.drawBuffer (Renderer.linePipeline runtime) edgeUpload.2
               (Renderer.issue
                  (Renderer.SetBindGroup 0 (Renderer.bindGroup runtime))
                  (Renderer.issue Renderer.BeginRenderPass
                     (Renderer.issue Renderer.CreateCommandEncoder
                        edgeUpload.1)))))) ∧
  (∀ c runtime,
     drawable c runtime → Renderer.edges (Renderer.sceneRef c) = [] →
     Renderer.buffer (Renderer.edgeBufferRef (Renderer.draw c)) =
       Renderer.buffer (Renderer.edgeBufferRef c) ∧
     Renderer.capacityBytes (Renderer.edgeBufferRef (Renderer.draw c)) =
       Renderer.capacityBytes (Renderer.edgeBufferRef c) ∧
     Renderer.vertexCount (Renderer.edgeBufferRef (Renderer.draw c)) = Q2Qc 0 ∧
     let nodeUpload :=
       Renderer.uploadVertices (Renderer.gpu c) (Renderer.nodeBufferRef c)
         (Renderer.buildNodeVertices (Renderer.sceneRef c) (Renderer.dprRef c)) in
     Renderer.gpu (Renderer.draw c) =
       Renderer.issue Renderer.Submit
         (Renderer.issue Renderer.EndPass
            (Renderer.drawBuffer (Renderer.trianglePipeline runtime) nodeUpload.2
               (Renderer.issue
                  (Renderer.SetBindGroup 0 (Renderer.bindGroup runtime))
                  (Renderer.issue Renderer.BeginRenderPass
                     (Renderer.issue Renderer.CreateCommandEncoder
                        nodeUpload.1)))))).
Proof.
  split_and!.
  - apply uploadVertices_nil.
  - intros pipeline. rewrite uploadVertices_nil. by apply drawBuffer_empty.
  - intros c runtime Hc Hnodes. rewrite (draw_drawable c runtime Hc).
    unfold frame. rewrite (buildNodeVertices_nil _ _ Hnodes).
    rewrite uploadVertices_nil. cbn. split_and!; try done.
    by rewrite (drawBuffer_empty (Renderer.trianglePipeline runtime)).
  - intros c runtime Hc Hedges. rewrite (draw_drawable c runtime Hc).
    unfold frame. rewrite (buildEdgeVertices_nil _ _ Hedges).
    rewrite uploadVertices_nil. cbn. split_and!; try done.
    by rewrite (drawBuffer_empty (Renderer.linePipeline runtime)).
Qed.

(** * Asynchronous initialization *)

Section Initialization.
Import Renderer.

Lemma stretch_completes (body : Eff unit) (c : Component) :
  (stretch body c).2 = Normal ().
Proof.
  unfold stretch, try_catch, catchClause, unlessDisposed, setRuntimeError,
    update, read, mbind, Eff_bind, mret, Eff_ret.
  destruct (body (set_initPc Settled c)) as [c' [[]|]]; [done|].
  by destruct (disposed c').
Qed.

Lemma initEffect_completes (c : Component) : (initEffect c).2 = Normal ().
Proof.
  unfold initEffect. destruct (canvasRef c); [|done].
  destruct (resolveGpuNavigator (host c)); [|done]. apply stretch_completes.
Qed.

Lemma disposed_after_adapter (s : Settlement (option unit)) (c : Component) :
  disposed c = true →
  disposed (stretch (initialize_after_adapter s) c).1 = true ∧
  shared (stretch (initialize_after_adapter s) c).1 = shared c.
Proof.
  intros Hd. unfold shared.
  destruct s as [[[]|]|]; eff_unfold; cbn; rewrite ?Hd; cbn;
    try destruct (throws (host c) ApiRequestDevice); cbn; rewrite ?Hd; done.
Qed.

Lemma disposed_after_device (s : Settlement unit) (c : Component) :
  disposed c = true →
  disposed (stretch (initialize_after_device s) c).1 = true ∧
  shared (stretch (initialize_after_device s) c).1 = shared c.
Proof.
  intros Hd. unfold shared.
  destruct s as [[]|]; eff_unfold; cbn; rewrite ?Hd; done.
Qed.

End Initialization.

Section Preservation.
Import Renderer.

Variable P : Component → Prop.

Lemma preserves_ret {A : Type} (a : A) : preserves P (mret a).
Proof. intros c Hc. exact Hc. Qed.

Lemma preserves_throw {A : Type} : preserves P (@throw A).
Proof. intros c Hc. exact Hc. Qed.

Lemma preserves_read {A : Type} (f : Component → A) : preserves P (read f).
Proof. intros c Hc. exact Hc. Qed.

Lemma preserves_call (a : Api) : preserves P (call a).
Proof. intros c Hc. unfold call. by destruct (throws (host c) a). Qed.

Lemma preserves_await {A : Type} (s : Settlement A) : preserves P (await s).
Proof. destruct s; [apply preserves_ret|apply preserves_throw]. Qed.

Lemma preserves_bind {A B : Type} (m : Eff A) (k : A → Eff B) :
  preserves P m → (∀ a, preserves P (k a)) → preserves P (m ≫= k).
Proof.
  intros Hm Hk c Hc. unfold mbind, Eff_bind. specialize (Hm c Hc).
  destruct (m c) as [c' [a|]]; [|done]. by apply Hk.
Qed.

Lemma preserves_update (f : Component → Component) :
  (∀ c, P c → P (f c)) → preserves P (update f).
Proof. intros Hf c Hc. by apply Hf. Qed.

Lemma preserves_try_catch (body handler : Eff unit) :
  preserves P body → preserves P handler → preserves P (try_catch body handler).
Proof.
  intros Hb Hh c Hc. unfold try_catch. specialize (Hb c Hc).
  destruct (body c) as [c' [[]|]]; [done|]. by apply Hh.
Qed.

Lemma preserves_unlessDisposed (body : Eff unit) :
  preserves P body → preserves P (unlessDisposed body).
Proof.
  intros Hb. apply preserves_bind; [apply preserves_read|].
  intros []; [apply preserves_ret|done].
Qed.

(** What a property must tolerate to survive [initialize]: allocation of
    handles, the calls other than the two requests, the two shared writes,
    the two bookkeeping assignments, and a size sync and frame. *)
Hypothesis P_fresh : preserves P gpuFresh.
Hypothesis P_issue : ∀ k,
  k ≠ RequestAdapter → k ≠ RequestDevice → preserves P (gpuIssue k).
Hypothesis P_setRuntimeError : ∀ s, preserves P (setRuntimeError s).
Hypothesis P_installRuntime : ∀ r, preserves P (installRuntime r).
Hypothesis P_syncCanvasSize : ∀ c, P c → P (syncCanvasSize c).
Hypothesis P_draw : ∀ c, P c → P (draw c).

Lemma preserves_create (a : Api) (mk : handle → GpuCall) :
  (∀ h, mk h ≠ RequestAdapter ∧ mk h ≠ RequestDevice) →
  preserves P (create a mk).
Proof.
  intros Hmk. unfold create.
  apply preserves_bind; [apply preserves_call|intros _].
  apply preserves_bind; [apply P_fresh|intros h].
  apply preserves_bind; [by apply P_issue; apply Hmk|intros _].
  apply preserves_ret.
Qed.

Lemma preserves_catchClause : preserves P catchClause.
Proof. apply preserves_unlessDisposed, P_setRuntimeError. Qed.

Lemma preserves_after_device (s : Settlement unit) :
  preserves P (initialize_after_device s).
Proof.
  unfold initialize_after_device.
  apply preserves_bind; [apply preserves_await|intros _].
  apply preserves_bind; [apply P_fresh|intros device].
  apply preserves_bind; [apply preserves_read|intros d].
  destruct d; [apply preserves_ret|].
  apply preserves_bind.
  { unfold getContext.
    apply preserves_bind; [apply preserves_call|intros _].
    apply preserves_bind; [by apply P_issue|intros _].
    apply preserves_bind; [apply preserves_read|intros available].
    destruct available; [|apply preserves_ret].
    apply preserves_bind; [apply P_fresh|intros h]. apply preserves_ret. }
  intros [context|]; [|apply preserves_unlessDisposed, P_setRuntimeError].
  apply preserves_bind; [apply preserves_call|intros _].
  apply preserves_bind; [by apply P_issue|intros _].
  apply preserves_bind; [apply preserves_call|intros _].
  apply preserves_bind; [by apply P_issue|intros _].
  do 7 (apply preserves_bind; [by apply preserves_create|intros ?]).
  apply preserves_bind; [apply P_installRuntime|intros _].
  apply preserves_unlessDisposed.
  apply preserves_bind; [apply P_setRuntimeError|intros _].
  apply preserves_bind; [by apply preserves_update|intros _].
  by apply preserves_update.
Qed.

End Preservation.

Section Reports.
Import Renderer.

Lemma stretch_thrown (body : Eff unit) (c c' : Component) :
  body (set_initPc Settled c) = (c', Thrown) → disposed c' = false →
  (stretch body c).1 =
  set_initWrites
    (initWrites c' ++ [SetRuntimeError (Some "Failed to initialize WebGPU device.")])
    (set_runtimeError (Some "Failed to initialize WebGPU device.") c').
Proof.
  intros Hbody Hd. eff_unfold. cbn. rewrite Hbody. cbn. by rewrite Hd.
Qed.

Lemma after_device_setup_fault (c : Component) :
  disposed c = false →
  throws (host c) ApiGetContext = false → contextAvailable (host c) = true →
  (∃ a, a ∈ setupCalls ∧ throws (host c) a = true) →
  runtimeError (stretch (initialize_after_device (Fulfilled ())) c).1 =
    Some "Failed to initialize WebGPU device." ∧
  runtimeRef (stretch (initialize_after_device (Fulfilled ())) c).1 = runtimeRef c.
Proof.
  intros Hd Hctx Havail (a & Ha & Hthrows).
  eff_run; try done.
  exfalso. unfold setupCalls in Ha.
  repeat (apply elem_of_cons in Ha as [-> | Ha]; [congruence|]).
  by apply elem_of_nil in Ha.
Qed.

Lemma control_draw (c : Component) : control (draw c) = control c.
Proof. unfold draw. by repeat case_match. Qed.

Lemma control_syncCanvasSize (c : Component) :
  control (syncCanvasSize c) = control c.
Proof. unfold syncCanvasSize. by repeat case_match. Qed.

Lemma control_handleResize (c : Component) : control (handleResize c) = control c.
Proof. unfold handleResize. by rewrite control_draw, control_syncCanvasSize. Qed.

Lemma control_publishScene (props : SceneSnapshot) (c : Component) :
  control (publishScene props c) = control c.
Proof. unfold publishScene. by rewrite control_draw. Qed.

Lemma requestsOf_issue (k : GpuCall) (g : Gpu) :
  requestsOf (issue k g) =
  requestsOf g ++ (if is_request k then [k] else []).
Proof.
  unfold requestsOf, issue. cbn. rewrite filter_app. f_equal.
  rewrite filter_cons, filter_nil. by destruct (is_request k).
Qed.

Lemma requestsOf_issue_other (k : GpuCall) (g : Gpu) :
  is_request k = false → requestsOf (issue k g) = requestsOf g.
Proof. intros H. by rewrite requestsOf_issue, H, app_nil_r. Qed.

Lemma requestsOf_fresh (g : Gpu) : requestsOf (fresh g).2 = requestsOf g.
Proof. done. Qed.

Lemma requestsOf_createBuffer (g : Gpu) (size usage : Z) :
  requestsOf (createBuffer g size usage).2 = requestsOf g.
Proof.
  unfold createBuffer. destruct (fresh g) as [h g'] eqn:E. cbn [snd].
  rewrite requestsOf_issue_other by done.
  by rewrite <- (requestsOf_fresh g), E.
Qed.

Lemma requestsOf_ensureVertexBuffer (g : Gpu) (state : DynamicVertexBuffer)
    (requiredBytes : Z) :
  requestsOf (ensureVertexBuffer g state requiredBytes).1 = requestsOf g.
Proof.
  unfold ensureVertexBuffer. destruct (_ && _); [done|].
  set (g0 := match buffer state with
             | Some old => issue (DestroyBuffer old) g
             | None => g
             end).
  assert (requestsOf g0 = requestsOf g) as <-.
  { subst g0. destruct (buffer state); [|done].
    by rewrite requestsOf_issue_other. }
  pose proof (requestsOf_createBuffer g0
                (Z.max 4096 (Z.max requiredBytes (capacityBytes state * 2)))
                (Z.lor GPU_BUFFER_USAGE_VERTEX GPU_BUFFER_USAGE_COPY_DST)) as H.
  by destruct (createBuffer g0 _ _) as [h g1].
Qed.

Lemma requestsOf_uploadVertices (g : Gpu) (state : DynamicVertexBuffer)
    (data : list number) :
  requestsOf (uploadVertices g state data).1 = requestsOf g.
Proof.
  unfold uploadVertices. case_bool_decide; [done|].
  pose proof (requestsOf_ensureVertexBuffer g
                {| buffer := buffer state;
                   capacityBytes := capacityBytes state;
                   vertexCount := of_nat (length data) / of_Z FLOATS_PER_VERTEX |}
                (byteLength data)) as Hreq.
  destruct (ensureVertexBuffer _ _ _) as [g' state']. cbn [fst] in Hreq.
  destruct (buffer state'); [|done]. cbn [fst].
  by rewrite requestsOf_issue_other.
Qed.

Lemma requestsOf_drawBuffer (pipeline : handle) (state : DynamicVertexBuffer)
    (g : Gpu) :
  requestsOf (drawBuffer pipeline state g) = requestsOf g.
Proof.
  unfold drawBuffer. repeat case_match; [|done..].
  by rewrite !requestsOf_issue_other.
Qed.

Lemma requestsOf_frame (runtime : Runtime) (c : Component) :
  requestsOf (gpu (frame runtime c)) = requestsOf (gpu c).
Proof.
  unfold frame. cbn [gpu set_gpu].
  rewrite !requestsOf_issue_other, !requestsOf_drawBuffer by done.
  rewrite !requestsOf_issue_other by done.
  by rewrite !requestsOf_uploadVertices.
Qed.

Lemma draw_cases (c : Component) :
  draw c = c ∨ ∃ runtime, drawable c runtime ∧ draw c = frame runtime c.
Proof.
  destruct (runtimeRef c) as [runtime|] eqn:Hr;
    [|left; apply draw_not_drawable; intros r [? _]; congruence].
  destruct (canvasRef c) as [canvas|] eqn:Hc;
    [|left; apply draw_not_drawable; intros r (_ & ? & ? & _); congruence].
  destruct (decide (canvas_width canvas = 0%Z)) as [Hw|Hw].
  { left. unfold draw. rewrite Hr, Hc. by rewrite bool_decide_eq_true_2. }
  destruct (decide (canvas_height canvas = 0%Z)) as [Hh|Hh].
  { left. unfold draw. rewrite Hr, Hc.
    rewrite (bool_decide_eq_true_2 (canvas_height canvas = 0%Z)) by done.
    by rewrite orb_true_r. }
  right. exists runtime.
  assert (drawable c runtime) as Hd by (split; [done|by exists canvas]).
  split; [done|by apply draw_drawable].
Qed.

Lemma requestsOf_draw (c : Component) :
  requestsOf (gpu (draw c)) = requestsOf (gpu c).
Proof.
  destruct (draw_cases c) as [-> | (runtime & _ & ->)]; [done|].
  apply requestsOf_frame.
Qed.

Lemma requestsOf_syncCanvasSize (c : Component) :
  requestsOf (gpu (syncCanvasSize c)) = requestsOf (gpu c).
Proof.
  unfold syncCanvasSize. destruct (runtimeRef c); [|done].
  destruct (canvasRef c); [|done]. cbn [gpu set_gpu set_dprRef set_canvasRef].
  by rewrite requestsOf_issue_other.
Qed.

Lemma requestsOf_teardown (c : Component) :
  requestsOf (gpu (teardown c)) = requestsOf (gpu c).
Proof.
  unfold teardown, destroyBufferOf.
  cbn [gpu set_gpu set_runtimeRef set_nodeBufferRef set_edgeBufferRef
       set_disposed edgeBufferRef nodeBufferRef runtimeRef].
  destruct (runtimeRef c), (buffer (edgeBufferRef c)),
    (buffer (nodeBufferRef c)); by rewrite ?requestsOf_issue_other.
Qed.

End Reports.

(** * Runs of the component *)

Section Runs.
Import Renderer.

Lemma run_invariant (I : Component → Prop) :
  (∀ c c' e, I c → step c e = Some c' → I c') →
  ∀ es c c', I c → run c es = Some c' → I c'.
Proof.
  intros Hstep es. induction es as [|e es IH]; intros c c' Hc; simpl.
  - by intros [= <-].
  - destruct (step c e) as [c1|] eqn:E; [|done]. simpl.
    apply IH. by eapply Hstep.
Qed.

(** What one stretch establishes: a property that holds once [initialize]
    is marked as returned, and that the stretch's body and the status write
    of the [catch] clause preserve, holds after the stretch. *)
Lemma stretch_establishes (P : Component → Prop) (body : Eff unit)
    (c : Component) :
  P (set_initPc Settled c) → preserves P body →
  (∀ s, preserves P (setRuntimeError s)) →
  P (stretch body c).1.
Proof.
  intros Hc Hbody Hset.
  change (stretch body c) with (try_catch body catchClause (set_initPc Settled c)).
  apply preserves_try_catch; [done| |done].
  by apply preserves_unlessDisposed.
Qed.

Lemma control_eq (c c' : Component) :
  control c' = control c →
  host c' = host c ∧ disposed c' = disposed c ∧ initPc c' = initPc c ∧
  runtimeRef c' = runtimeRef c ∧ runtimeError c' = runtimeError c ∧
  initWrites c' = initWrites c.
Proof. unfold control. intros [= -> -> -> -> -> ->]. done. Qed.

Lemma buffers_wf_draw (c : Component) : buffers_wf c → buffers_wf (draw c).
Proof.
  intros [He Hn]. destruct (draw_cases c) as [-> | (runtime & _ & ->)]; [done|].
  unfold frame, buffers_wf. cbn. split; by apply uploadVertices_step.
Qed.

Lemma buffers_wf_syncCanvasSize (c : Component) :
  buffers_wf c → buffers_wf (syncCanvasSize c).
Proof. unfold syncCanvasSize. by repeat case_match. Qed.

(** What the last stretch of [initialize] leaves as it was. *)
Lemma after_device_frame (s : Settlement unit) (c : Component) :
  host (stretch (initialize_after_device s) c).1 = host c ∧
  disposed (stretch (initialize_after_device s) c).1 = disposed c ∧
  initPc (stretch (initialize_after_device s) c).1 = Settled ∧
  requestsOf (gpu (stretch (initialize_after_device s) c).1) =
    requestsOf (gpu c) ∧
  (buffers_wf c → buffers_wf (stretch (initialize_after_device s) c).1).
Proof.
  assert ((host (stretch (initialize_after_device s) c).1,
           disposed (stretch (initialize_after_device s) c).1,
           initPc (stretch (initialize_after_device s) c).1)
          = (host c, disposed c, Settled)) as [= -> -> ->].
  { apply (stretch_establishes
             (λ c', (host c', disposed c', initPc c') = (host c, disposed c, Settled)));
      [done| |by intros ? ?].
    apply preserves_after_device.
    - by intros ? ?.
    - by intros ? ? ? ? ?.
    - by intros ? ? ?.
    - by intros ? ? ?.
    - intros c' <-.
      destruct (control_eq _ _ (control_syncCanvasSize c')) as (-> & -> & -> & _).
      done.
    - intros c' <-.
      destruct (control_eq _ _ (control_draw c')) as (-> & -> & -> & _).
      done. }
  split_and!; try done.
  - apply (stretch_establishes (λ c', requestsOf (gpu c') = requestsOf (gpu c)));
      [done| |by intros ? ?].
    apply preserves_after_device.
    + by intros ? ?.
    + intros k Hk1 Hk2 c' <-. unfold gpuIssue, update. cbn [fst gpu set_gpu].
      apply requestsOf_issue_other. by destruct k.
    + by intros ? ? ?.
    + by intros ? ? ?.
    + intros c' <-. apply requestsOf_syncCanvasSize.
    + intros c' <-. apply requestsOf_draw.
  - intros Hwf.
    apply (stretch_establishes buffers_wf); [done| |by intros ? ?].
    apply preserves_after_device.
    + by intros ? ?.
    + by intros ? ? ? ? ?.
    + by intros ? ? ?.
    + by intros ? ? ?.
    + apply buffers_wf_syncCanvasSize.
    + apply buffers_wf_draw.
Qed.

(** What the middle stretch of [initialize] leaves as it was, and the two
    ways it can end. *)
Lemma after_adapter_frame (s : Settlement (option unit)) (c : Component) :
  host (stretch (initialize_after_adapter s) c).1 = host c ∧
  disposed (stretch (initialize_after_adapter s) c).1 = disposed c ∧
  runtimeRef (stretch (initialize_after_adapter s) c).1 = runtimeRef c ∧
  edgeBufferRef (stretch (initialize_after_adapter s) c).1 = edgeBufferRef c ∧
  nodeBufferRef (stretch (initialize_after_adapter s) c).1 = nodeBufferRef c ∧
  ((initPc (stretch (initialize_after_adapter s) c).1 = Settled ∧
    requestsOf (gpu (stretch (initialize_after_adapter s) c).1) =
      requestsOf (gpu c)) ∨
   (initPc (stretch (initialize_after_adapter s) c).1 = AwaitingDevice ∧
    requestsOf (gpu (stretch (initialize_after_adapter s) c).1) =
      requestsOf (gpu c) ++ [RequestDevice])).
Proof.
  destruct s as [[[]|]|]; destruct (disposed c) eqn:Hd; eff_run;
    rewrite ?Hd; split_and!; try done;
    first [ by left
          | right; split; [done|];
            unfold requestsOf; cbn; rewrite filter_app; by f_equal ].
Qed.

Lemma begin_frame (c : Component) :
  host (stretch initialize_begin c).1 = host c ∧
  disposed (stretch initialize_begin c).1 = disposed c ∧
  runtimeRef (stretch initialize_begin c).1 = runtimeRef c ∧
  edgeBufferRef (stretch initialize_begin c).1 = edgeBufferRef c ∧
  nodeBufferRef (stretch initialize_begin c).1 = nodeBufferRef c ∧
  ((initPc (stretch initialize_begin c).1 = Settled ∧
    requestsOf (gpu (stretch initialize_begin c).1) = requestsOf (gpu c)) ∨
   (initPc (stretch initialize_begin c).1 = AwaitingAdapter ∧
    requestsOf (gpu (stretch initialize_begin c).1) =
      requestsOf (gpu c) ++ [RequestAdapter])).
Proof.
  destruct (disposed c) eqn:Hd; eff_run;
    rewrite ?Hd; split_and!; try done;
    first [ by left
          | right; split; [done|];
            unfold requestsOf; cbn; rewrite filter_app; by f_equal ].
Qed.

(** Once the flag is set, no event changes what [initialize] shares. *)
Lemma disposed_step (c c' : Component) (e : Event) :
  disposed c = true → step c e = Some c' →
  disposed c' = true ∧ shared c' = shared c.
Proof.
  intros Hd. destruct e as [s|s| |props|]; simpl.
  - destruct (initPc c); try done. intros [= <-].
    by apply disposed_after_adapter.
  - destruct (initPc c); try done. intros [= <-].
    by apply disposed_after_device.
  - unfold cleanupPending. rewrite Hd. by destruct (initPc c).
  - intros [= <-].
    destruct (control_eq _ _ (control_publishScene props c))
      as (_ & -> & _ & H1 & H2 & H3).
    unfold shared. by rewrite H1, H2, H3.
  - intros [= <-].
    destruct (control_eq _ _ (control_handleResize c))
      as (_ & -> & _ & H1 & H2 & H3).
    unfold shared. by rewrite H1, H2, H3.
Qed.

Lemma disposed_run (es : list Event) (c c' : Component) :
  disposed c = true → run c es = Some c' →
  disposed c' = true ∧ shared c' = shared c.
Proof.
  revert c. induction es as [|e es IH]; intros c Hd; simpl.
  - by intros [= <-].
  - destruct (step c e) as [c1|] eqn:E; [|done]. simpl. intros Hrun.
    destruct (disposed_step c c1 e Hd E) as [Hd1 Hs1].
    destruct (IH c1 Hd1 Hrun) as [Hd' Hs']. split; [done|congruence].
Qed.

Lemma slot_released_step (c c' : Component) (e : Event) :
  slot_released c → step c e = Some c' → slot_released c'.
Proof.
  intros Hc Hstep. destruct (disposed c) eqn:Hd.
  - destruct (disposed_step c c' e Hd Hstep) as [_ [= Hr _ _]].
    intros _. rewrite Hr. by apply Hc.
  - destruct e as [s|s| |props|]; simpl in Hstep.
    + destruct (initPc c); try done. injection Hstep as <-.
      destruct (after_adapter_frame s c) as (_ & Hd' & _).
      intros Hd''. congruence.
    + destruct (initPc c); try done. injection Hstep as <-.
      destruct (after_device_frame s c) as (_ & Hd' & _).
      intros Hd''. congruence.
    + destruct (cleanupPending c); [|done]. by injection Hstep as <-.
    + injection Hstep as <-.
      destruct (control_eq _ _ (control_publishScene props c)) as (_ & Hd' & _).
      intros Hd''. congruence.
    + injection Hstep as <-.
      destruct (control_eq _ _ (control_handleResize c)) as (_ & Hd' & _).
      intros Hd''. congruence.
Qed.

Lemma handleResize_no_runtime (c : Component) :
  runtimeRef c = None → handleResize c = c.
Proof.
  intros Hr. unfold handleResize, syncCanvasSize. rewrite Hr.
  unfold draw. by rewrite Hr.
Qed.

Lemma publishScene_no_runtime (props : SceneSnapshot) (c : Component) :
  runtimeRef c = None → publishScene props c = set_sceneRef props c.
Proof. intros Hr. unfold publishScene, draw. cbn. by rewrite Hr. Qed.

Lemma initEffect_new (h : Host) (props : SceneSnapshot) :
  (initEffect (newComponent h props)).1 =
  match resolveGpuNavigator h with
  | Some _ => (stretch initialize_begin (newComponent h props)).1
  | None => newComponent h props
  end.
Proof. unfold initEffect. cbn. by destruct (resolveGpuNavigator h). Qed.

Lemma mount_eq (h : Host) (props : SceneSnapshot) :
  mount h props = (initEffect (newComponent h props)).1.
Proof.
  unfold mount. rewrite publishScene_no_runtime by done.
  change (set_sceneRef props (newComponent h props)) with (newComponent h props).
  apply handleResize_no_runtime. rewrite initEffect_new.
  destruct (resolveGpuNavigator h); [|done].
  by destruct (begin_frame (newComponent h props)) as (_ & _ & -> & _).
Qed.

Lemma requests_in_step_prefix (c : Component) :
  requests_in_step c →
  requestsOf (gpu c) `prefix_of` [RequestAdapter; RequestDevice].
Proof.
  unfold requests_in_step. destruct (initPc c); [intros ->..|done].
  - apply prefix_nil.
  - by exists [RequestDevice].
  - done.
Qed.

Lemma requests_in_step_keep (c c' : Component) :
  initPc c' = initPc c → requestsOf (gpu c') = requestsOf (gpu c) →
  requests_in_step c → requests_in_step c'.
Proof. unfold requests_in_step. by intros -> ->. Qed.

Lemma requests_in_step_step (c c' : Component) (e : Event) :
  requests_in_step c → step c e = Some c' → requests_in_step c'.
Proof.
  intros Hc Hstep. destruct e as [s|s| |props|]; simpl in Hstep.
  - unfold requests_in_step in Hc.
    destruct (initPc c) eqn:Hpc; try done. injection Hstep as <-.
    destruct (after_adapter_frame s c)
      as (_ & _ & _ & _ & _ & [[Hpc' Hreq] | [Hpc' Hreq]]);
      unfold requests_in_step; rewrite Hpc', Hreq, Hc; [|done].
    by exists [RequestDevice].
  - unfold requests_in_step in Hc.
    destruct (initPc c) eqn:Hpc; try done. injection Hstep as <-.
    destruct (after_device_frame s c) as (_ & _ & Hpc' & Hreq & _).
    unfold requests_in_step. by rewrite Hpc', Hreq, Hc.
  - destruct (cleanupPending c); [|done]. injection Hstep as <-.
    apply (requests_in_step_keep c); [done|apply requestsOf_teardown|done].
  - injection Hstep as <-.
    apply (requests_in_step_keep c); [| |done].
    + by destruct (control_eq _ _ (control_publishScene props c)) as (_ & _ & -> & _).
    + unfold publishScene. by rewrite requestsOf_draw.
  - injection Hstep as <-.
    apply (requests_in_step_keep c); [| |done].
    + by destruct (control_eq _ _ (control_handleResize c)) as (_ & _ & -> & _).
    + unfold handleResize. by rewrite requestsOf_draw, requestsOf_syncCanvasSize.
Qed.

Lemma requests_in_step_mount (h : Host) (props : SceneSnapshot) :
  requests_in_step (mount h props).
Proof.
  rewrite mount_eq, initEffect_new.
  destruct (resolveGpuNavigator h); [|done].
  destruct (begin_frame (newComponent h props))
    as (_ & _ & _ & _ & _ & [[Hpc Hreq] | [Hpc Hreq]]);
    unfold requests_in_step; rewrite Hpc, Hreq; [|done].
  apply prefix_nil.
Qed.

Lemma buffers_wf_step (c c' : Component) (e : Event) :
  buffers_wf c → step c e = Some c' → buffers_wf c'.
Proof.
  intros Hc Hstep. destruct e as [s|s| |props|]; simpl in Hstep.
  - destruct (initPc c); try done. injection Hstep as <-.
    destruct (after_adapter_frame s c) as (_ & _ & _ & He & Hn & _).
    unfold buffers_wf. by rewrite He, Hn.
  - destruct (initPc c); try done. injection Hstep as <-.
    by apply after_device_frame.
  - destruct (cleanupPending c); [|done]. injection Hstep as <-.
    split; apply buffer_wf_empty.
  - injection Hstep as <-. by apply buffers_wf_draw.
  - injection Hstep as <-. by apply buffers_wf_draw, buffers_wf_syncCanvasSize.
Qed.

Lemma buffers_wf_mount (h : Host) (props : SceneSnapshot) :
  buffers_wf (mount h props).
Proof.
  rewrite mount_eq, initEffect_new.
  destruct (resolveGpuNavigator h); [|split; apply buffer_wf_empty].
  destruct (begin_frame (newComponent h props)) as (_ & _ & _ & He & Hn & _).
  unfold buffers_wf. rewrite He, Hn. split; apply buffer_wf_empty.
Qed.

(** In every run both vertex buffers are in a state the renderer
    produces. *)
Lemma buffers_wf_run (h : Host) (props : SceneSnapshot) (es : list Event)
    (c : Component) :
  run (mount h props) es = Some c → buffers_wf c.
Proof.
  apply (run_invariant buffers_wf buffers_wf_step es (mount h props)).
  apply buffers_wf_mount.
Qed.

Lemma slot_released_mount (h : Host) (props : SceneSnapshot) :
  slot_released (mount h props).
Proof.
  rewrite mount_eq, initEffect_new. intros Hd.
  destruct (resolveGpuNavigator h); [|done].
  by destruct (begin_frame (newComponent h props)) as (_ & _ & -> & _).
Qed.

Lemma idle_step (h : Host) (c c' : Component) (e : Event) :
  idle h c → step c e = Some c' → idle h c'.
Proof.
  intros (Hh & Hpc & Hr & He & Hcalls) Hstep.
  destruct e as [s|s| |props|]; simpl in Hstep.
  - by rewrite Hpc in Hstep.
  - by rewrite Hpc in Hstep.
  - unfold cleanupPending in Hstep. by rewrite Hpc in Hstep.
  - injection Hstep as <-. by rewrite publishScene_no_runtime.
  - injection Hstep as <-. by rewrite handleResize_no_runtime.
Qed.

Lemma idle_mount (h : Host) (props : SceneSnapshot) :
  resolveGpuNavigator h = None → idle h (mount h props).
Proof. intros Hnav. rewrite mount_eq, initEffect_new, Hnav. done. Qed.

End Runs.

Lemma Settled_step (c c' : Renderer.Component) (e : Renderer.Event) :
  Renderer.initPc c = Renderer.Settled → Renderer.step c e = Some c' →
  Renderer.initPc c' = Renderer.Settled.
Proof.
  intros Hpc Hstep. destruct e as [s|s| |props|]; simpl in Hstep.
  - by rewrite Hpc in Hstep.
  - by rewrite Hpc in Hstep.
  - destruct (Renderer.cleanupPending c); [|done]. by injection Hstep as <-.
  - injection Hstep as <-.
    by destruct (control_eq _ _ (control_publishScene props c)) as (_ & _ & -> & _).
  - injection Hstep as <-.
    by destruct (control_eq _ _ (control_handleResize c)) as (_ & _ & -> & _).
Qed.

Lemma statusText_present (c : Renderer.Component) :
  Renderer.navigatorGpu (Renderer.host c) = Renderer.GpuPresent →
  Renderer.statusText c = Renderer.runtimeError c.
Proof. unfold Renderer.statusText, Renderer.browserHasWebGpu. by intros ->. Qed.

(** C5.  In every run of the component (any interleaving of the two promise
    settlements with teardown, prop changes and resizes), from a state in
    which the disposed flag is set on: the flag stays set, the runtime slot
    is and stays empty, the status string does not change, and
    [initialize] makes no further write to either.  Teardown sets the flag
    and empties the slot in one step. *)
Theorem disposed_initialization_is_inert (h : Renderer.Host)
    (props : Renderer.SceneSnapshot) (before after : list Renderer.Event)
    (c c' : Renderer.Component) :
  Renderer.run (Renderer.mount h props) before = Some c →
  Renderer.disposed c = true →
  Renderer.run c after = Some c' →
  Renderer.disposed c' = true ∧
  Renderer.runtimeRef c = None ∧
  Renderer.runtimeRef c' = None ∧
  Renderer.runtimeError c' = Renderer.runtimeError c ∧
  Renderer.initWrites c' = Renderer.initWrites c ∧
  (∀ c0 c1, Renderer.step c0 Renderer.Teardown = Some c1 →
            Renderer.disposed c1 = true ∧ Renderer.runtimeRef c1 = None).
Proof.
  intros Hbefore Hd Hafter.
  assert (Renderer.runtimeRef c = None) as Hslot.
  { by apply (run_invariant slot_released slot_released_step before
                (Renderer.mount h props) c (slot_released_mount h props)). }
  destruct (disposed_run after c c' Hd Hafter) as [Hd' [= Hr He Hw]].
  split_and!; try done; [congruence|].
  intros c0 c1. simpl. destruct (Renderer.cleanupPending c0); [|done].
  by intros [= <-].
Qed.

Lemma disposed_initialization_is_inert_witness :
  ∃ c c',
    Renderer.run (Renderer.mount Samples.host Samples.scene)
      [Renderer.AdapterSettles (Renderer.Fulfilled (Some ()));
       Renderer.Teardown] = Some c ∧
    Renderer.disposed c = true ∧
    Renderer.run c
      [Renderer.DeviceSettles (Renderer.Fulfilled ());
       Renderer.ResizeObserved] = Some c' ∧
    Renderer.runtimeRef c' = None ∧
    Renderer.initWrites c' = Renderer.initWrites c.
Proof.
  destruct (Renderer.run (Renderer.mount Samples.host Samples.scene)
              [Renderer.AdapterSettles (Renderer.Fulfilled (Some ()));
               Renderer.Teardown]) as [c|] eqn:E1;
    [|by vm_compute in E1].
  assert (Renderer.disposed c = true) as Hd
    by (vm_compute in E1; by injection E1 as <-).
  destruct (Renderer.run c
              [Renderer.DeviceSettles (Renderer.Fulfilled ());
               Renderer.ResizeObserved]) as [c'|] eqn:E2;
    [|vm_compute in E1; injection E1 as <-; by vm_compute in E2].
  exists c, c'. split_and!; try done;
    by apply (disposed_initialization_is_inert _ _ _ _ _ _ E1 Hd E2).
Defined.

(** * Failure reports *)

Section FailureReports.
Import Renderer.

Variable c : Component.
Hypothesis gpu_present : navigatorGpu (host c) = GpuPresent.
Hypothesis not_disposed : disposed c = false.

Lemma report_thrown (body : Eff unit) (c' : Component) :
  body (set_initPc Settled c) = (c', Thrown) →
  host c' = host c → disposed c' = false →
  statusText (stretch body c).1 = Some "Failed to initialize WebGPU device.".
Proof.
  intros Hbody Hhost Hd. rewrite (stretch_thrown body c c' Hbody Hd).
  rewrite statusText_present; [done|]. cbn. by rewrite Hhost.
Qed.

Lemma report_adapter_null :
  statusText (stretch (initialize_after_adapter (Fulfilled None)) c).1 =
  Some "WebGPU adapter is unavailable.".
Proof.
  rewrite statusText_present.
  - eff_run. done.
  - by destruct (after_adapter_frame (Fulfilled None) c) as (-> & _).
Qed.

Lemma report_adapter_rejected :
  statusText (stretch (initialize_after_adapter Rejected) c).1 =
  Some "Failed to initialize WebGPU device.".
Proof. by apply (report_thrown _ (set_initPc Settled c)). Qed.

Lemma report_device_rejected :
  statusText (stretch (initialize_after_device Rejected) c).1 =
  Some "Failed to initialize WebGPU device.".
Proof. by apply (report_thrown _ (set_initPc Settled c)). Qed.

Lemma report_context_null :
  throws (host c) ApiGetContext = false → contextAvailable (host c) = false →
  statusText (stretch (initialize_after_device (Fulfilled ())) c).1 =
  Some "Failed to acquire WebGPU context.".
Proof.
  intros Hctx Havail. rewrite statusText_present.
  - eff_run. done.
  - by destruct (after_device_frame (Fulfilled ()) c) as (-> & _).
Qed.

Lemma report_setup_fault :
  throws (host c) ApiGetContext = false → contextAvailable (host c) = true →
  (∃ a, a ∈ setupCalls ∧ throws (host c) a = true) →
  statusText (stretch (initialize_after_device (Fulfilled ())) c).1 =
  Some "Failed to initialize WebGPU device.".
Proof.
  intros Hctx Havail Hfault. rewrite statusText_present.
  - by apply after_device_setup_fault.
  - by destruct (after_device_frame (Fulfilled ()) c) as (-> & _).
Qed.

End FailureReports.

(** C4, as the code has it.  No fault thrown inside [initialize] leaves it:
    every stretch completes normally.  Without the capability (no [gpu] entry
    in [navigator]) the status is "WebGPU is unavailable in this browser."
    and no call is ever issued.  While the component is not disposed: an
    adapter request that yields no adapter reports "WebGPU adapter is
    unavailable."; a context acquisition that yields no context reports
    "Failed to acquire WebGPU context."; and every fault thrown during
    initialization (a rejected adapter request, a rejected device request,
    a failing surface configuration or resource creation) reports "Failed to
    initialize WebGPU device.".  Nothing is retried: over a whole run at most
    one adapter request and one device request are issued, and once
    [initialize] has returned it stays returned. *)
Theorem initialization_failures (h : Renderer.Host)
    (props : Renderer.SceneSnapshot) :
  (∀ body c, (Renderer.stretch body c).2 = Renderer.Normal ()) ∧
  (∀ c, (Renderer.initEffect c).2 = Renderer.Normal ()) ∧
  (Renderer.navigatorGpu h = Renderer.GpuMissing →
   ∀ es c, Renderer.run (Renderer.mount h props) es = Some c →
     Renderer.statusText c = Some "WebGPU is unavailable in this browser." ∧
     Renderer.calls (Renderer.gpu c) = [] ∧
     Renderer.initPc c = Renderer.NotStarted) ∧
  (∀ c,
     Renderer.navigatorGpu (Renderer.host c) = Renderer.GpuPresent →
     Renderer.disposed c = false →
     Renderer.statusText
       (Renderer.stretch
          (Renderer.initialize_after_adapter (Renderer.Fulfilled None)) c).1 =
       Some "WebGPU adapter is unavailable." ∧
     Renderer.statusText
       (Renderer.stretch
          (Renderer.initialize_after_adapter Renderer.Rejected) c).1 =
       Some "Failed to initialize WebGPU device." ∧
     Renderer.statusText
       (Renderer.stretch
          (Renderer.initialize_after_device Renderer.Rejected) c).1 =
       Some "Failed to initialize WebGPU device." ∧
     (Renderer.throws (Renderer.host c) Renderer.ApiGetContext = false →
      Renderer.contextAvailable (Renderer.host c) = false →
      Renderer.statusText
        (Renderer.stretch
           (Renderer.initialize_after_device (Renderer.Fulfilled ())) c).1 =
        Some "Failed to acquire WebGPU context.") ∧
     (Renderer.throws (Renderer.host c) Renderer.ApiGetContext = false →
      Renderer.contextAvailable (Renderer.host c) = true →
      (∃ a, a ∈ setupCalls ∧ Renderer.throws (Renderer.host c) a = true) →
      Renderer.statusText
        (Renderer.stretch
           (Renderer.initialize_after_device (Renderer.Fulfilled ())) c).1 =
        Some "Failed to initialize WebGPU device.") ∧
     (∀ body c',
        body (Renderer.set_initPc Renderer.Settled c) = (c', Renderer.Thrown) →
        Renderer.host c' = Renderer.host c → Renderer.disposed c' = false →
        Renderer.statusText (Renderer.stretch body c).1 =
          Some "Failed to initialize WebGPU device.")) ∧
  (∀ es c, Renderer.run (Renderer.mount h props) es = Some c →
     requestsOf (Renderer.gpu c)
       `prefix_of` [Renderer.RequestAdapter; Renderer.RequestDevice]) ∧
  (∀ c c' e, Renderer.initPc c = Renderer.Settled →
             Renderer.step c e = Some c' →
             Renderer.initPc c' = Renderer.Settled).
Proof.
  split_and!.
  - apply stretch_completes.
  - apply initEffect_completes.
  - intros Hnav es c Hrun.
    assert (idle h c) as (Hh & Hpc & Hr & He & Hcalls).
    { apply (run_invariant (idle h) (idle_step h) es (Renderer.mount h props));
        [|done].
      apply idle_mount. unfold Renderer.resolveGpuNavigator. by rewrite Hnav. }
    split_and!; try done.
    unfold Renderer.statusText, Renderer.browserHasWebGpu. by rewrite Hh, Hnav.
  - intros c Hnav Hd. split_and!.
    + by apply report_adapter_null.
    + by apply report_adapter_rejected.
    + by apply report_device_rejected.
    + by apply report_context_null.
    + by apply report_setup_fault.
    + intros body c'. by apply report_thrown.
  - intros es c Hrun. apply requests_in_step_prefix.
    apply (run_invariant requests_in_step requests_in_step_step es
             (Renderer.mount h props)); [|done].
    apply requests_in_step_mount.
  - apply Settled_step.
Qed.

Lemma initialization_failures_witness :
  Renderer.statusText
    (Renderer.stretch
       (Renderer.initialize_after_device (Renderer.Fulfilled ()))
       (Renderer.newComponent Samples.hostConfigureFails Samples.scene)).1 =
  Some "Failed to initialize WebGPU device.".
Proof.
  destruct (initialization_failures Samples.host Samples.scene)
    as (_ & _ & _ & Hreports & _).
  destruct (Hreports
              (Renderer.newComponent Samples.hostConfigureFails Samples.scene)
              eq_refl eq_refl) as (_ & _ & _ & _ & Hsetup & _).
  apply Hsetup; try reflexivity.
  exists Renderer.ApiConfigure. split; [|reflexivity].
  unfold setupCalls. apply elem_of_cons. right. apply elem_of_cons. by left.
Defined.

(** C4 as stated fails: a rejected adapter request is reported with the
    device-initialization message, not the adapter message, and a failing
    surface configuration likewise, not with the surface message. *)
Lemma failed_requests_report_device_failure :
  (∃ c, Renderer.run (Renderer.mount Samples.host Samples.scene)
          [Renderer.AdapterSettles Renderer.Rejected] = Some c ∧
        Renderer.statusText c = Some "Failed to initialize WebGPU device." ∧
        Renderer.statusText c ≠ Some "WebGPU adapter is unavailable.") ∧
  (∃ c, Renderer.run (Renderer.mount Samples.hostConfigureFails Samples.scene)
          [Renderer.AdapterSettles (Renderer.Fulfilled (Some ()));
           Renderer.DeviceSettles (Renderer.Fulfilled ())] = Some c ∧
        Renderer.statusText c = Some "Failed to initialize WebGPU device." ∧
        Renderer.statusText c ≠ Some "Failed to acquire WebGPU context.").
Proof.
  split.
  - eexists. split; [vm_compute; reflexivity|]. by split.
  - eexists. split; [vm_compute; reflexivity|]. by split.
Qed.

Lemma draw_vertex_counts_witness :
  drawable (Samples.ready Samples.scene) Samples.runtime ∧
  Renderer.vertexCount
    (Renderer.nodeBufferRef (Renderer.draw (Samples.ready Samples.scene))) =
    Renderer.of_nat 12 ∧
  Renderer.vertexCount
    (Renderer.edgeBufferRef (Renderer.draw (Samples.ready Samples.scene))) =
    Renderer.of_nat 56.
Proof.
  assert (drawable (Samples.ready Samples.scene) Samples.runtime) as Hready.
  { split; [reflexivity|]. eexists. split; [reflexivity|]. by split. }
  split; [exact Hready|].
  destruct (draw_vertex_counts Samples.scene (Q2Qc 1))
    as (_ & _ & _ & _ & _ & Hdraw).
  exact (Hdraw (Samples.ready Samples.scene) Samples.runtime Hready
           eq_refl eq_refl).
Defined.

Lemma upload_of_empty_payload_witness :
  drawable (Samples.ready Samples.noNodes) Samples.runtime ∧
  Renderer.vertexCount
    (Renderer.nodeBufferRef (Renderer.draw (Samples.ready Samples.noNodes))) =
    Q2Qc 0.
Proof.
  assert (drawable (Samples.ready Samples.noNodes) Samples.runtime) as Hready.
  { split; [reflexivity|]. eexists. split; [reflexivity|]. by split. }
  split; [exact Hready|].
  destruct (upload_of_empty_payload
              {| Renderer.nextHandle := 0%nat; Renderer.calls := [] |}
              Renderer.emptyBuffer) as (_ & _ & Hnodes & _).
  by destruct (Hnodes (Samples.ready Samples.noNodes) Samples.runtime Hready
                 eq_refl) as (_ & _ & Hcount & _).
Defined.

(** * Further properties of the geometry *)

(** ** Linear arithmetic on numbers

    Orders and equations on [Qc] are those of the underlying fractions;
    [qc_arith] moves a goal there, where [lra] and [nra] apply. *)

Lemma Qc_le_Q (a b : Qc) : a ≤ b ↔ (this a <= this b)%Q.
Proof. reflexivity. Qed.

Lemma Qc_lt_Q (a b : Qc) : a < b ↔ (this a < this b)%Q.
Proof. reflexivity. Qed.

Lemma Qc_eq_Q (a b : Qc) : a = b ↔ (this a == this b)%Q.
Proof. split; [by intros ->|apply Qc_is_canon]. Qed.

Ltac qc_arith :=
  rewrite ?Qc_le_Q, ?Qc_lt_Q, ?Qc_eq_Q in *;
  unfold Qcdiv, Qcminus, Qcplus, Qcmult, Qcopp, Qcinv, Q2Qc in *;
  cbn [this] in *;
  rewrite ?Qred_correct in *;
  repeat match goal with
         | |- context [Qinv (Qmake ?n ?d)] =>
             let v := eval vm_compute in (Qinv (Qmake n d)) in
             change (Qinv (Qmake n d)) with v
         | H : context [Qinv (Qmake ?n ?d)] |- _ =>
             let v := eval vm_compute in (Qinv (Qmake n d)) in
             change (Qinv (Qmake n d)) with v in H
         end;
  repeat match goal with
         | q : Qc |- _ => destruct q as [q ?]; cbn [this] in *
         end.

Section NodeMaps.
Import Geometry.

Lemma createNodeMap_last (nodes : list NodeType) (key : string) :
  createNodeMap nodes !! key = last (filter (λ node, id node = key) nodes).
Proof.
  induction nodes as [|node nodes IH] using rev_ind; [done|].
  rewrite createNodeMap_snoc, filter_app, filter_cons, filter_nil.
  destruct (decide (id node = key)) as [<-|Hne].
  - by rewrite lookup_insert_eq, last_snoc.
  - by rewrite lookup_insert_ne, app_nil_r.
Qed.

Lemma createNodeMap_size (nodes : list NodeType) :
  (size (createNodeMap nodes) ≤ length nodes)%nat.
Proof.
  induction nodes as [|node nodes IH] using rev_ind; [done|].
  rewrite createNodeMap_snoc, length_app. simpl.
  destruct (createNodeMap nodes !! id node) eqn:E.
  - rewrite map_size_insert_Some by done. lia.
  - rewrite map_size_insert_None by done. lia.
Qed.

Lemma createNodeMap_unique (nodes : list NodeType) :
  NoDup (id <$> nodes) →
  size (createNodeMap nodes) = length nodes ∧
  ∀ node, node ∈ nodes → createNodeMap nodes !! id node = Some node.
Proof.
  induction nodes as [|node nodes IH] using rev_ind; intros Hnodup.
  - split; [done|]. by intros node ?%elem_of_nil.
  - rewrite fmap_app in Hnodup. apply NoDup_app in Hnodup as (Hnodes & Hfresh & _).
    destruct (IH Hnodes) as [IHsize IHlookup].
    assert (createNodeMap nodes !! id node = None) as Hnone.
    { apply eq_None_not_Some. rewrite createNodeMap_is_Some.
      intros (other & Hin & Hid). apply (Hfresh (id node)).
      - rewrite <- Hid. by apply list_elem_of_fmap_2.
      - simpl. apply list_elem_of_singleton. done. }
    rewrite createNodeMap_snoc. split.
    + rewrite map_size_insert_None by done. rewrite length_app. simpl. lia.
    + intros other [Hin | ->%list_elem_of_singleton]%elem_of_app.
      * rewrite lookup_insert_ne; [by apply IHlookup|].
        intros Heq. rewrite Heq, IHlookup in Hnone; done.
      * by rewrite lookup_insert_eq.
Qed.

End NodeMaps.

(** X1.  [createNodeMap] is last-write-wins: the node found under an id is
    the last node of the list that carries this id, and nothing is found
    exactly when no node carries it. *)
Theorem createNodeMap_last_wins (nodes : list NodeType) (key : string) :
  Geometry.createNodeMap nodes !! key =
    last (filter (λ node, id node = key) nodes) ∧
  (Geometry.createNodeMap nodes !! key = None ↔
   ∀ node, node ∈ nodes → id node ≠ key) ∧
  (∀ older newer,
     id newer = key →
     Geometry.createNodeMap (older ++ [newer]) !! key = Some newer).
Proof.
  split_and!.
  - apply createNodeMap_last.
  - rewrite eq_None_not_Some, createNodeMap_is_Some. split.
    + intros H node Hin Hid. apply H. by exists node.
    + intros H (node & Hin & Hid). by apply (H node).
  - intros older newer <-. rewrite createNodeMap_snoc. apply lookup_insert_eq.
Qed.

Lemma createNodeMap_last_wins_witness :
  Geometry.createNodeMap
    [Samples.nodeA;
     {| id := "a"; position := {| x := Q2Qc 7; y := Q2Qc 7 |};
        width := Q2Qc 1; height := Q2Qc 1 |}] !! "a" =
  Some {| id := "a"; position := {| x := Q2Qc 7; y := Q2Qc 7 |};
          width := Q2Qc 1; height := Q2Qc 1 |}.
Proof.
  apply (proj2 (proj2 (createNodeMap_last_wins [] "a")) [Samples.nodeA]).
  reflexivity.
Defined.

(** X2.  The node map never has more entries than the list has nodes; when
    the ids of the list are pairwise distinct it has exactly as many, and
    every node of the list is found under its own id. *)
Theorem createNodeMap_distinct_ids (nodes : list NodeType) :
  (size (Geometry.createNodeMap nodes) ≤ length nodes)%nat ∧
  (NoDup (id <$> nodes) →
   size (Geometry.createNodeMap nodes) = length nodes ∧
   ∀ node, node ∈ nodes →
           Geometry.createNodeMap nodes !! id node = Some node).
Proof.
  split; [apply createNodeMap_size|apply createNodeMap_unique].
Qed.

Lemma createNodeMap_distinct_ids_witness :
  size (Geometry.createNodeMap [Samples.nodeA; Samples.nodeB]) = 2%nat.
Proof.
  apply (proj2 (createNodeMap_distinct_ids [Samples.nodeA; Samples.nodeB])).
  apply NoDup_cons. split; [|apply NoDup_singleton].
  by intros ?%list_elem_of_singleton.
Defined.

Section Layers.
Import Geometry.

Lemma getTopNodeAtPoint_find (nodes : list NodeType) (worldX worldY : number) :
  getTopNodeAtPoint nodes worldX worldY =
  find (isPointInsideNode worldX worldY) (rev nodes).
Proof.
  unfold getTopNodeAtPoint. rewrite topNodeBelow_find by done.
  by rewrite firstn_all.
Qed.

Lemma find_app {A : Type} (f : A → bool) (l k : list A) :
  find f (l ++ k) = match find f l with Some a => Some a | None => find f k end.
Proof.
  induction l as [|a l IH]; [done|]. simpl. by destruct (f a).
Qed.

End Layers.

(** X3.  Hit testing respects layering: for nodes drawn [below] and nodes
    drawn [above] them, the hit among all is the hit among [above] when
    there is one, and otherwise the hit among [below]; so a node appended
    to the list wins whenever it contains the point. *)
Theorem getTopNodeAtPoint_layers (below above : list NodeType)
    (worldX worldY : number) :
  Geometry.getTopNodeAtPoint (below ++ above) worldX worldY =
    match Geometry.getTopNodeAtPoint above worldX worldY with
    | Some node => Some node
    | None => Geometry.getTopNodeAtPoint below worldX worldY
    end ∧
  (∀ node,
     Geometry.getTopNodeAtPoint (below ++ [node]) worldX worldY =
     if Geometry.isPointInsideNode worldX worldY node then Some node
     else Geometry.getTopNodeAtPoint below worldX worldY).
Proof.
  split.
  - by rewrite !getTopNodeAtPoint_find, rev_app_distr, find_app.
  - intros node. rewrite !getTopNodeAtPoint_find, rev_app_distr. done.
Qed.

Section BoundsFacts.
Import Geometry.

Lemma inside_within (nodes : list NodeType) (b : NodeBounds)
    (node : NodeType) (px py : number) :
  getNodesBounds nodes = Some b → node ∈ nodes →
  isPointInsideNode px py node = true → within b px py.
Proof.
  intros Hb Hin Hinside.
  destruct (getNodesBounds_extrema nodes b Hb)
    as ([HminX _] & [HminY _] & [HmaxX _] & [HmaxY _]).
  specialize (HminX node Hin). specialize (HminY node Hin).
  specialize (HmaxX node Hin). specialize (HmaxY node Hin).
  apply isPointInsideNode_true in Hinside as (H1 & H2 & H3 & H4).
  unfold left_of, top_of, right_of, bottom_of in *.
  unfold within. split_and!; eapply Qcle_trans; eauto.
Qed.

Lemma getTopNodeAtPoint_Some (nodes : list NodeType) (px py : number)
    (node : NodeType) :
  getTopNodeAtPoint nodes px py = Some node →
  node ∈ nodes ∧ isPointInsideNode px py node = true.
Proof.
  rewrite getTopNodeAtPoint_find. intros [Hin Hf]%find_some.
  split; [|done]. apply list_elem_of_In. by apply in_rev.
Qed.

Lemma least_of_unique (f : NodeType → number) (nodes : list NodeType)
    (m m' : number) :
  least_of f nodes m → least_of f nodes m' → m = m'.
Proof.
  intros [Hlow (w & Hw & ->)] [Hlow' (w' & Hw' & ->)].
  apply Qcle_antisym; auto.
Qed.

Lemma greatest_of_unique (f : NodeType → number) (nodes : list NodeType)
    (m m' : number) :
  greatest_of f nodes m → greatest_of f nodes m' → m = m'.
Proof.
  intros [Hup (w & Hw & ->)] [Hup' (w' & Hw' & ->)].
  apply Qcle_antisym; auto.
Qed.

Lemma least_of_subseteq (f : NodeType → number) (nodes nodes' : list NodeType)
    (m m' : number) :
  nodes ⊆ nodes' → least_of f nodes m → least_of f nodes' m' → m' ≤ m.
Proof.
  intros Hsub [_ (w & Hw & ->)] [Hlow' _]. apply Hlow'. by apply Hsub.
Qed.

Lemma greatest_of_subseteq (f : NodeType → number)
    (nodes nodes' : list NodeType) (m m' : number) :
  nodes ⊆ nodes' → greatest_of f nodes m → greatest_of f nodes' m' → m ≤ m'.
Proof.
  intros Hsub [_ (w & Hw & ->)] [Hup' _]. apply Hup'. by apply Hsub.
Qed.

Lemma least_of_perm (f : NodeType → number) (nodes nodes' : list NodeType)
    (m : number) :
  nodes ≡ₚ nodes' → least_of f nodes m → least_of f nodes' m.
Proof.
  intros Hperm [Hlow (w & Hw & ->)]. split.
  - intros node Hin. apply Hlow. by rewrite Hperm.
  - exists w. split; [by rewrite <- Hperm|done].
Qed.

Lemma greatest_of_perm (f : NodeType → number) (nodes nodes' : list NodeType)
    (m : number) :
  nodes ≡ₚ nodes' → greatest_of f nodes m → greatest_of f nodes' m.
Proof.
  intros Hperm [Hup (w & Hw & ->)]. split.
  - intros node Hin. apply Hup. by rewrite Hperm.
  - exists w. split; [by rewrite <- Hperm|done].
Qed.

(** Bounds are determined by their four extrema. *)
Lemma getNodesBounds_determined (nodes nodes' : list NodeType)
    (b b' : NodeBounds) :
  getNodesBounds nodes = Some b → getNodesBounds nodes' = Some b' →
  minX b = minX b' → minY b = minY b' →
  maxX b = maxX b' → maxY b = maxY b' → b = b'.
Proof.
  intros Hb Hb' H1 H2 H3 H4.
  destruct (getNodesBounds_derived nodes b Hb) as (Hw & Hh & Hcx & Hcy).
  destruct (getNodesBounds_derived nodes' b' Hb') as (Hw' & Hh' & Hcx' & Hcy').
  destruct b, b'. simpl in *. congruence.
Qed.

Lemma getNodesBounds_perm (nodes nodes' : list NodeType) :
  nodes ≡ₚ nodes' → getNodesBounds nodes = getNodesBounds nodes'.
Proof.
  intros Hperm.
  destruct (getNodesBounds nodes) as [b|] eqn:Hb.
  - destruct (getNodesBounds nodes') as [b'|] eqn:Hb'.
    + f_equal.
      destruct (getNodesBounds_extrema nodes b Hb) as (H1 & H2 & H3 & H4).
      destruct (getNodesBounds_extrema nodes' b' Hb') as (H1' & H2' & H3' & H4').
      apply (getNodesBounds_determined nodes nodes'); try done.
      * eapply least_of_unique; [by eapply least_of_perm|done].
      * eapply least_of_unique; [by eapply least_of_perm|done].
      * eapply greatest_of_unique; [by eapply greatest_of_perm|done].
      * eapply greatest_of_unique; [by eapply greatest_of_perm|done].
    + apply getNodesBounds_None in Hb'. subst nodes'.
      apply Permutation_nil_r in Hperm. by subst nodes.
  - apply getNodesBounds_None in Hb. subst nodes.
    apply Permutation_nil_l in Hperm. by subst nodes'.
Qed.

End BoundsFacts.

(** X4.  The bounds contain every node: a point inside any node of the list
    lies within the bounds, so whatever [getTopNodeAtPoint] hits at a point,
    that point lies within [getNodesBounds] of the same list. *)
Theorem bounds_contain_hits (nodes : list NodeType) (b : Geometry.NodeBounds) :
  Geometry.getNodesBounds nodes = Some b →
  (∀ node px py,
     node ∈ nodes → Geometry.isPointInsideNode px py node = true →
     within b px py) ∧
  (∀ node px py,
     Geometry.getTopNodeAtPoint nodes px py = Some node → within b px py).
Proof.
  intros Hb. split.
  - intros node px py. by apply inside_within.
  - intros node px py [Hin Hinside]%getTopNodeAtPoint_Some.
    by apply (inside_within nodes b node).
Qed.

Lemma bounds_contain_hits_witness :
  ∃ b, Geometry.getNodesBounds [Samples.nodeA; Samples.nodeB] = Some b ∧
       within b (Q2Qc 105) (Q2Qc 60).
Proof.
  eexists. split; [reflexivity|].
  eapply (proj2 (bounds_contain_hits [Samples.nodeA; Samples.nodeB] _ eq_refl)
            Samples.nodeB).
  reflexivity.
Defined.

(** X5.  The bounds do not depend on the order of the nodes: permuting the
    list gives the same bounds. *)
Theorem getNodesBounds_order_independent (nodes nodes' : list NodeType) :
  nodes ≡ₚ nodes' →
  Geometry.getNodesBounds nodes = Geometry.getNodesBounds nodes'.
Proof. apply getNodesBounds_perm. Qed.

Lemma getNodesBounds_order_independent_witness :
  Geometry.getNodesBounds [Samples.nodeA; Samples.nodeB] =
  Geometry.getNodesBounds [Samples.nodeB; Samples.nodeA].
Proof.
  apply (getNodesBounds_order_independent [Samples.nodeA; Samples.nodeB]).
  apply perm_swap.
Defined.

(** X6.  The bounds grow with the node set: when every node of a non-empty
    list [nodes] also occurs in [nodes'], the bounds of [nodes'] exist and
    contain the bounds of [nodes]. *)
Theorem getNodesBounds_monotone (nodes nodes' : list NodeType)
    (b : Geometry.NodeBounds) :
  nodes ⊆ nodes' → Geometry.getNodesBounds nodes = Some b →
  ∃ b', Geometry.getNodesBounds nodes' = Some b' ∧ bounds_le b b'.
Proof.
  intros Hsub Hb.
  destruct (Geometry.getNodesBounds nodes') as [b'|] eqn:Hb'.
  - exists b'. split; [done|].
    destruct (getNodesBounds_extrema nodes b Hb) as (H1 & H2 & H3 & H4).
    destruct (getNodesBounds_extrema nodes' b' Hb') as (H1' & H2' & H3' & H4').
    unfold bounds_le. split_and!.
    + by eapply least_of_subseteq.
    + by eapply greatest_of_subseteq.
    + by eapply least_of_subseteq.
    + by eapply greatest_of_subseteq.
  - apply getNodesBounds_None in Hb'. subst nodes'.
    destruct nodes as [|node nodes]; [done|].
    exfalso. apply (not_elem_of_nil node). apply Hsub. by left.
Qed.

Lemma getNodesBounds_monotone_witness :
  ∃ b b', Geometry.getNodesBounds [Samples.nodeB] = Some b ∧
          Geometry.getNodesBounds [Samples.nodeA; Samples.nodeB] = Some b' ∧
          bounds_le b b'.
Proof.
  assert ([Samples.nodeB] ⊆ [Samples.nodeA; Samples.nodeB]) as Hsub.
  { intros node ->%list_elem_of_singleton. right. by left. }
  destruct (getNodesBounds_monotone [Samples.nodeB]
              [Samples.nodeA; Samples.nodeB] _ Hsub eq_refl)
    as (b' & Hb' & Hle).
  eexists _, b'. split; [reflexivity|]. by split.
Defined.

Section Sizes.
Import Geometry.



Lemma bounds_nonneg (nodes : list NodeType) (b : NodeBounds) :
  getNodesBounds nodes = Some b →
  (∀ node, node ∈ nodes → Q2Qc 0 ≤ width node ∧ Q2Qc 0 ≤ height node) →
  Q2Qc 0 ≤ bwidth b ∧ Q2Qc 0 ≤ bheight b ∧
  within b (centerX b) (centerY b).
Proof.
  intros Hb Hsizes.
  destruct (getNodesBounds_extrema nodes b Hb)
    as ([HminX (wx & Hwx & Ewx)] & [HminY (wy & Hwy & Ewy)]
        & [HmaxX _] & [HmaxY _]).
  destruct (getNodesBounds_derived nodes b Hb) as (Hw & Hh & Hcx & Hcy).
  specialize (HmaxX wx Hwx). specialize (HmaxY wy Hwy).
  destruct (Hsizes wx Hwx) as [Hwx0 _]. destruct (Hsizes wy Hwy) as [_ Hwy0].
  unfold left_of, top_of, right_of, bottom_of, within in *.
  rewrite Hw, Hh, Hcx, Hcy.
  destruct wx as [? [wxx wxy] wxw wxh], wy as [? [wyx wyy] wyw wyh].
  destruct b as [cx cy bh mxx mxy mnx mny bw]. cbn in *.
  subst mnx mny. clear Hb Hsizes Hwx Hwy HminX HminY Hw Hh Hcx Hcy.
  split_and!; qc_arith; lra.
Qed.

End Sizes.



(** X8.  When every node has non-negative width and height, the bounds have
    non-negative width and height and contain their own centre. *)
Theorem getNodesBounds_nonneg (nodes : list NodeType)
    (b : Geometry.NodeBounds) :
  Geometry.getNodesBounds nodes = Some b →
  (∀ node, node ∈ nodes → Q2Qc 0 ≤ width node ∧ Q2Qc 0 ≤ height node) →
  Q2Qc 0 ≤ Geometry.bwidth b ∧ Q2Qc 0 ≤ Geometry.bheight b ∧
  within b (Geometry.centerX b) (Geometry.centerY b).
Proof. apply bounds_nonneg. Qed.

Lemma getNodesBounds_nonneg_witness :
  ∃ b, Geometry.getNodesBounds [Samples.nodeA; Samples.nodeB] = Some b ∧
       Q2Qc 0 ≤ Geometry.bwidth b.
Proof.
  eexists. split; [reflexivity|].
  apply (getNodesBounds_nonneg [Samples.nodeA; Samples.nodeB] _ eq_refl).
  intros node [->|[->|[]%elem_of_nil]%elem_of_cons]%elem_of_cons;
    split; discriminate.
Defined.

Section Curves.
Import Geometry.









End Curves.









(** * Further properties of the vertex buffers *)

Section Growth.
Import Renderer.

Lemma ensureVertexBuffer_post (g : Gpu) (state : DynamicVertexBuffer)
    (requiredBytes : Z) :
  is_Some (buffer (ensureVertexBuffer g state requiredBytes).2) ∧
  (requiredBytes ≤ capacityBytes (ensureVertexBuffer g state requiredBytes).2)%Z ∧
  vertexCount (ensureVertexBuffer g state requiredBytes).2 = vertexCount state ∧
  (ensureVertexBuffer g state requiredBytes = (g, state) ∨
   (buffer (ensureVertexBuffer g state requiredBytes).2 = Some (nextHandle g) ∧
    nextHandle (ensureVertexBuffer g state requiredBytes).1 = S (nextHandle g) ∧
    (4096 ≤ capacityBytes (ensureVertexBuffer g state requiredBytes).2)%Z ∧
    (capacityBytes state * 2
       ≤ capacityBytes (ensureVertexBuffer g state requiredBytes).2)%Z)).
Proof.
  unfold ensureVertexBuffer.
  destruct (bool_decide (is_Some (buffer state))) eqn:Hb;
    destruct (bool_decide (capacityBytes state >= requiredBytes)%Z) eqn:Hc;
    cbn [andb].
  - apply bool_decide_eq_true in Hb, Hc. cbn. split_and!; [done|lia|done|by left].
  - destruct (buffer state); cbn; split_and!; try done; try lia; right;
      split_and!; try done; lia.
  - destruct (buffer state); cbn; split_and!; try done; try lia; right;
      split_and!; try done; lia.
  - destruct (buffer state); cbn; split_and!; try done; try lia; right;
      split_and!; try done; lia.
Qed.

(** Uploading a payload again into the state the first upload left. *)
Lemma uploadVertices_again (g g' : Gpu) (state : DynamicVertexBuffer)
    (data : list number) :
  (uploadVertices g' (uploadVertices g state data).2 data).2 =
    (uploadVertices g state data).2 ∧
  nextHandle (uploadVertices g' (uploadVertices g state data).2 data).1 =
    nextHandle g' ∧
  (calls (uploadVertices g' (uploadVertices g state data).2 data).1 = calls g' ∨
   ∃ h, buffer (uploadVertices g state data).2 = Some h ∧
        calls (uploadVertices g' (uploadVertices g state data).2 data).1 =
        calls g' ++ [WriteBuffer h 0 data 0 (Z.of_nat (length data))]).
Proof.
  destruct data as [|d data].
  { rewrite !uploadVertices_nil. cbn. split_and!; try done. by left. }
  set (payload := d :: data).
  assert (payload ≠ []) as Hne by done.
  assert (∃ h, buffer (uploadVertices g state payload).2 = Some h ∧
               (byteLength payload
                  ≤ capacityBytes (uploadVertices g state payload).2)%Z ∧
               vertexCount (uploadVertices g state payload).2 =
                 of_nat (length payload) / of_Z FLOATS_PER_VERTEX)
    as (h & Hbuf & Hcap & Hcount).
  { rewrite vertexCount_uploadVertices.
    unfold uploadVertices. rewrite bool_decide_eq_false_2 by done.
    pose proof (ensureVertexBuffer_post g
                  {| buffer := buffer state;
                     capacityBytes := capacityBytes state;
                     vertexCount := of_nat (length payload) / of_Z FLOATS_PER_VERTEX |}
                  (byteLength payload)) as ([h Hh] & Hreq & _).
    destruct (ensureVertexBuffer g _ _) as [g1 state1]. cbn [snd] in *.
    rewrite Hh. cbn. exists h. by rewrite Hh. }
  rewrite (uploadVertices_fits g' _ payload h Hne Hbuf Hcap). cbn.
  split_and!; try done.
  - destruct (uploadVertices g state payload).2 as [b cap vc]. cbn in *.
    by subst b vc.
  - right. by exists h.
Qed.

Lemma uploadVertices_headroom (g : Gpu) (state : DynamicVertexBuffer)
    (data : list number) (bound : Z) :
  buffer_wf state →
  (capacityBytes state ≤ Z.max 4096 (2 * bound))%Z →
  (byteLength data ≤ bound)%Z →
  (capacityBytes (uploadVertices g state data).2 ≤ Z.max 4096 (2 * bound))%Z.
Proof.
  intros [Hnonneg Hnone] Hcap Hdata.
  destruct data as [|d data]; [by rewrite uploadVertices_nil|].
  set (payload := d :: data) in *.
  assert (payload ≠ []) as Hne by done.
  destruct (decide (byteLength payload ≤ capacityBytes state)%Z) as [Hfit|Hgrow].
  - destruct (buffer state) as [h|] eqn:Hbuf.
    + by rewrite (uploadVertices_fits g state payload h).
    + pose proof (byteLength_pos payload Hne). rewrite Hnone in Hfit by done. lia.
  - rewrite uploadVertices_grows by (done || lia). cbn. lia.
Qed.

Lemma uploadAll_headroom (g : Gpu) (state : DynamicVertexBuffer)
    (payloads : list (list number)) (bound : Z) :
  buffer_wf state →
  (capacityBytes state ≤ Z.max 4096 (2 * bound))%Z →
  (∀ data, data ∈ payloads → (byteLength data ≤ bound)%Z) →
  (capacityBytes (uploadAll g state payloads).2 ≤ Z.max 4096 (2 * bound))%Z.
Proof.
  intros Hwf Hcap. induction payloads as [|data payloads IH] using rev_ind;
    intros Hall; [done|].
  rewrite uploadAll_snoc.
  destruct (uploadAll_monotone g state payloads Hwf) as (Hwf' & _).
  apply uploadVertices_headroom; [done| |].
  - apply IH. intros other Hin. apply Hall, elem_of_app. by left.
  - apply Hall, elem_of_app. right. by apply list_elem_of_singleton.
Qed.

End Growth.

(** X14.  Whatever the buffer state, after [ensureVertexBuffer] the state has
    a handle and a capacity of at least the required bytes, and its
    [vertexCount] is untouched; either nothing was done, or the handle is a
    new one and the capacity is at least 4096 and at least twice the previous
    capacity. *)
Theorem ensureVertexBuffer_postcondition (g : Renderer.Gpu)
    (state : Renderer.DynamicVertexBuffer) (requiredBytes : Z) :
  let result := Renderer.ensureVertexBuffer g state requiredBytes in
  is_Some (Renderer.buffer result.2) ∧
  (requiredBytes ≤ Renderer.capacityBytes result.2)%Z ∧
  Renderer.vertexCount result.2 = Renderer.vertexCount state ∧
  (result = (g, state) ∨
   (Renderer.buffer result.2 = Some (Renderer.nextHandle g) ∧
    Renderer.nextHandle result.1 = S (Renderer.nextHandle g) ∧
    (4096 ≤ Renderer.capacityBytes result.2)%Z ∧
    (Renderer.capacityBytes state * 2 ≤ Renderer.capacityBytes result.2)%Z)).
Proof. apply ensureVertexBuffer_post. Qed.

(** X15.  Bounded headroom: starting from a state the renderer can hold
    whose capacity is at most [max(4096, 2·bound)], any sequence of uploads
    of payloads of at most [bound] bytes leaves the capacity at most
    [max(4096, 2·bound)]; in particular from the empty buffer. *)
Theorem vertex_buffer_headroom (g : Renderer.Gpu)
    (state : Renderer.DynamicVertexBuffer) (payloads : list (list number))
    (bound : Z) :
  buffer_wf state →
  (Renderer.capacityBytes state ≤ Z.max 4096 (2 * bound))%Z →
  (∀ data, data ∈ payloads → (Renderer.byteLength data ≤ bound)%Z) →
  (Renderer.capacityBytes (uploadAll g state payloads).2
     ≤ Z.max 4096 (2 * bound))%Z.
Proof. apply uploadAll_headroom. Qed.

Lemma vertex_buffer_headroom_witness :
  let g := {| Renderer.nextHandle := 0%nat; Renderer.calls := [] |} in
  let big := replicate 3000 (Q2Qc 1) in
  let small := replicate 6 (Q2Qc 1) in
  (Renderer.capacityBytes
     (uploadAll g Renderer.emptyBuffer [small; big; small; big]).2
     ≤ Z.max 4096 (2 * 12000))%Z.
Proof.
  intros g big small.
  apply (vertex_buffer_headroom g Renderer.emptyBuffer
           [small; big; small; big] 12000 buffer_wf_empty).
  - vm_compute. discriminate.
  - intros data Hin.
    assert (data = small ∨ data = big) as [-> | ->].
    { repeat (apply elem_of_cons in Hin as [-> | Hin]; [auto|]).
      by apply elem_of_nil in Hin. }
    + vm_compute. discriminate.
    + vm_compute. discriminate.
Defined.

Section SteadyState.
Import Renderer.

Lemma allocationsOf_issue (k : GpuCall) (g : Gpu) :
  is_allocation k = false → allocationsOf (issue k g) = allocationsOf g.
Proof.
  intros Hk. unfold allocationsOf, issue. cbn [calls].
  rewrite filter_app, filter_cons, filter_nil.
  rewrite decide_False by (by rewrite Hk). by rewrite app_nil_r.
Qed.

Lemma allocationsOf_calls (g g' : Gpu) :
  calls g' = calls g → allocationsOf g' = allocationsOf g.
Proof. unfold allocationsOf. by intros ->. Qed.

Lemma drawBuffer_quiet (pipeline : handle) (state : DynamicVertexBuffer)
    (g : Gpu) :
  nextHandle (drawBuffer pipeline state g) = nextHandle g ∧
  allocationsOf (drawBuffer pipeline state g) = allocationsOf g.
Proof.
  unfold drawBuffer. destruct (buffer state); [|done].
  case_bool_decide; [|done]. split; [done|].
  by rewrite !allocationsOf_issue.
Qed.

Lemma uploadVertices_again_quiet (g g' : Gpu) (state : DynamicVertexBuffer)
    (data : list number) :
  allocationsOf (uploadVertices g' (uploadVertices g state data).2 data).1 =
  allocationsOf g'.
Proof.
  destruct (uploadVertices_again g g' state data) as (_ & _ & [H | (h & _ & H)]).
  - by apply allocationsOf_calls.
  - unfold allocationsOf. rewrite H, filter_app, filter_cons, filter_nil.
    rewrite decide_False by done. by rewrite app_nil_r.
Qed.

Lemma drawable_frame (c : Component) (runtime : Runtime) :
  drawable c runtime → drawable (frame runtime c) runtime.
Proof.
  intros (Hr & canvas & Hc & Hw & Hh). split; [exact Hr|].
  exists canvas. split; [exact Hc|]. by split.
Qed.

(** A frame over buffer states that already hold the vertices of the
    current snapshot. *)
Lemma frame_settled (c : Component) (runtime : Runtime) (ge gn : Gpu)
    (edge0 node0 : DynamicVertexBuffer) :
  edgeBufferRef c =
    (uploadVertices ge edge0 (buildEdgeVertices (sceneRef c) (dprRef c))).2 →
  nodeBufferRef c =
    (uploadVertices gn node0 (buildNodeVertices (sceneRef c) (dprRef c))).2 →
  edgeBufferRef (frame runtime c) = edgeBufferRef c ∧
  nodeBufferRef (frame runtime c) = nodeBufferRef c ∧
  nextHandle (gpu (frame runtime c)) = nextHandle (gpu c) ∧
  allocationsOf (gpu (frame runtime c)) = allocationsOf (gpu c).
Proof.
  intros He Hn. unfold frame.
  cbn [edgeBufferRef nodeBufferRef gpu set_gpu set_nodeBufferRef
       set_edgeBufferRef].
  set (ev := buildEdgeVertices (sceneRef c) (dprRef c)) in *.
  set (nv := buildNodeVertices (sceneRef c) (dprRef c)) in *.
  rewrite He, Hn.
  destruct (uploadVertices_again ge (gpu c) edge0 ev) as (E1 & E2 & _).
  set (eu := uploadVertices (gpu c) (uploadVertices ge edge0 ev).2 ev) in *.
  destruct (uploadVertices_again gn eu.1 node0 nv) as (N1 & N2 & _).
  pose proof (uploadVertices_again_quiet ge (gpu c) edge0 ev) as E3.
  pose proof (uploadVertices_again_quiet gn eu.1 node0 nv) as N3.
  fold eu in E3.
  set (nu := uploadVertices eu.1 (uploadVertices gn node0 nv).2 nv) in *.
  set (g3 := issue (SetBindGroup 0 (bindGroup runtime))
               (issue BeginRenderPass (issue CreateCommandEncoder nu.1))).
  assert (nextHandle g3 = nextHandle (gpu c)) as H3 by (cbn; congruence).
  assert (allocationsOf g3 = allocationsOf (gpu c)) as A3.
  { subst g3. rewrite !allocationsOf_issue by done. congruence. }
  destruct (drawBuffer_quiet (trianglePipeline runtime) nu.2 g3) as [H4 A4].
  destruct (drawBuffer_quiet (linePipeline runtime) eu.2
              (drawBuffer (trianglePipeline runtime) nu.2 g3)) as [H5 A5].
  split_and!; try done.
  - cbn [nextHandle issue]. congruence.
  - rewrite !allocationsOf_issue by done. congruence.
Qed.

Lemma frame_again (c : Component) (runtime : Runtime) :
  edgeBufferRef (frame runtime (frame runtime c)) =
    edgeBufferRef (frame runtime c) ∧
  nodeBufferRef (frame runtime (frame runtime c)) =
    nodeBufferRef (frame runtime c) ∧
  nextHandle (gpu (frame runtime (frame runtime c))) =
    nextHandle (gpu (frame runtime c)) ∧
  allocationsOf (gpu (frame runtime (frame runtime c))) =
    allocationsOf (gpu (frame runtime c)).
Proof. by eapply frame_settled. Qed.

End SteadyState.

(** X16.  Steady state: drawing the same snapshot a second time allocates
    and releases nothing.  For a component that is ready to draw, the frame
    after a frame leaves both buffer states (handle, capacity, vertex count)
    as the first frame left them, creates no handle, and issues no
    [createBuffer] or [destroy]. *)
Theorem second_frame_reuses_buffers (c : Renderer.Component)
    (runtime : Renderer.Runtime) :
  drawable c runtime →
  Renderer.edgeBufferRef (Renderer.draw (Renderer.draw c)) =
    Renderer.edgeBufferRef (Renderer.draw c) ∧
  Renderer.nodeBufferRef (Renderer.draw (Renderer.draw c)) =
    Renderer.nodeBufferRef (Renderer.draw c) ∧
  Renderer.nextHandle (Renderer.gpu (Renderer.draw (Renderer.draw c))) =
    Renderer.nextHandle (Renderer.gpu (Renderer.draw c)) ∧
  allocationsOf (Renderer.gpu (Renderer.draw (Renderer.draw c))) =
    allocationsOf (Renderer.gpu (Renderer.draw c)).
Proof.
  intros Hc. rewrite (draw_drawable c runtime Hc).
  rewrite (draw_drawable _ runtime (drawable_frame c runtime Hc)).
  apply frame_again.
Qed.

Lemma second_frame_reuses_buffers_witness :
  Renderer.nodeBufferRef
    (Renderer.draw (Renderer.draw (Samples.ready Samples.scene))) =
  Renderer.nodeBufferRef (Renderer.draw (Samples.ready Samples.scene)).
Proof.
  apply (second_frame_reuses_buffers (Samples.ready Samples.scene)
           Samples.runtime).
  split; [reflexivity|]. eexists. split; [reflexivity|]. by split.
Defined.

(** * The polyline of an edge *)

Section Polylines.
Import Coordinates Geometry Renderer.

Lemma appendVertex_app (vertices : list number) (px py : number)
    (color : Color) :
  appendVertex vertices px py color = vertices ++ appendVertex [] px py color.
Proof. unfold appendVertex. by destruct color as [[[c0 c1] c2] c3]. Qed.

Lemma edgeSegment_sample (curve : EdgeCurve) (v : ViewportType) (dpr : number)
    (vertices : list number) (k : nat) :
  edgeSegment curve v dpr (vertices, sample curve k) (S k) =
  (vertices ++ boardVertex v dpr EDGE_COLOR (sample curve k)
            ++ boardVertex v dpr EDGE_COLOR (sample curve (S k)),
   sample curve (S k)).
Proof.
  unfold edgeSegment. cbv zeta. fold (sample curve (S k)).
  rewrite (appendVertex_app (appendVertex _ _ _ _)), (appendVertex_app vertices).
  by rewrite <- app_assoc.
Qed.

Lemma foldl_edgeSegment_samples (curve : EdgeCurve) (v : ViewportType)
    (dpr : number) (n k : nat) (vertices : list number) :
  foldl (edgeSegment curve v dpr) (vertices, sample curve k) (seq (S k) n) =
  (vertices
   ++ flat_map (λ i, boardVertex v dpr EDGE_COLOR (sample curve (i - 1))
                     ++ boardVertex v dpr EDGE_COLOR (sample curve i))
        (seq (S k) n),
   sample curve (k + n)).
Proof.
  revert k vertices. induction n as [|n IH]; intros k vertices.
  - simpl. by rewrite app_nil_r, Nat.add_0_r.
  - cbn [seq foldl flat_map]. rewrite edgeSegment_sample, IH.
    replace (S k - 1)%nat with k by lia.
    rewrite <- !app_assoc. do 2 f_equal. lia.
Qed.

Lemma sample_first (curve : EdgeCurve) :
  sample curve 0 = {| x := sx curve; y := sy curve |}.
Proof.
  unfold sample.
  replace (of_nat 0 / of_nat EDGE_SEGMENTS) with (Q2Qc 0)
    by (by apply Qc_literal).
  apply Point_eq; simpl; ring.
Qed.

Lemma sample_last (curve : EdgeCurve) :
  sample curve EDGE_SEGMENTS = {| x := tx curve; y := ty curve |}.
Proof.
  unfold sample.
  replace (of_nat EDGE_SEGMENTS / of_nat EDGE_SEGMENTS) with (Q2Qc 1)
    by (by apply Qc_literal).
  apply Point_eq; simpl; ring.
Qed.

Lemma appendEdge_polyline (nodeMap : gmap string NodeType)
    (v : ViewportType) (dpr : number) (vertices : list number)
    (edge : EdgeType) (s t : NodeType) :
  nodeMap !! source edge = Some s → nodeMap !! target edge = Some t →
  appendEdge nodeMap v dpr vertices edge =
  vertices ++ polyline (getEdgeCurve s t) v dpr.
Proof.
  intros Hs Ht. unfold appendEdge. rewrite Hs, Ht. cbv zeta.
  change (cubicBezierPoint (Q2Qc 0) (getEdgeCurve s t))
    with (sample (getEdgeCurve s t) 0).
  by rewrite (foldl_edgeSegment_samples _ v dpr EDGE_SEGMENTS 0).
Qed.

End Polylines.

(** X17.  The vertices [draw] emits for an edge whose two ids resolve are a
    connected polyline: segment [i] (for [i = 1 .. 28]) runs from the sample
    at [(i−1)/28] to the sample at [i/28] of the edge's curve, so every
    segment starts where the previous one ended; the first sample is the
    centre of the source node and the last the centre of the target node. *)
Theorem edge_polyline (nodeMap : gmap string NodeType) (v : ViewportType)
    (dpr : number) (vertices : list number) (edge : EdgeType)
    (s t : NodeType) :
  nodeMap !! source edge = Some s → nodeMap !! target edge = Some t →
  Renderer.appendEdge nodeMap v dpr vertices edge =
    vertices ++ polyline (Geometry.getEdgeCurve s t) v dpr ∧
  sample (Geometry.getEdgeCurve s t) 0 = Geometry.nodeCenter s ∧
  sample (Geometry.getEdgeCurve s t) Renderer.EDGE_SEGMENTS =
    Geometry.nodeCenter t.
Proof.
  intros Hs Ht. split_and!.
  - by apply appendEdge_polyline.
  - apply sample_first.
  - apply sample_last.
Qed.

Lemma edge_polyline_witness :
  let nodeMap := Geometry.createNodeMap (Renderer.nodes Samples.scene) in
  let edge := {| source := "a"; target := "b" |} in
  Renderer.appendEdge nodeMap (Renderer.viewport Samples.scene) (Q2Qc 2) [] edge =
  polyline (Geometry.getEdgeCurve Samples.nodeA Samples.nodeB)
    (Renderer.viewport Samples.scene) (Q2Qc 2).
Proof.
  intros nodeMap edge.
  apply (edge_polyline nodeMap (Renderer.viewport Samples.scene) (Q2Qc 2) []
           edge Samples.nodeA Samples.nodeB); reflexivity.
Defined.

(** * Further properties of the component *)

Section Resizing.
Import Renderer.

Lemma syncCanvasSize_no_runtime (c : Component) :
  runtimeRef c = None → syncCanvasSize c = c.
Proof. intros Hr. unfold syncCanvasSize. by rewrite Hr. Qed.

Lemma syncCanvasSize_sized (c : Component) (runtime : Runtime)
    (canvas : Canvas) :
  runtimeRef c = Some runtime → canvasRef c = Some canvas →
  canvasRef (syncCanvasSize c) = Some (backingSize (host c)) ∧
  dprRef (syncCanvasSize c) = effectiveDpr (host c) ∧
  gpu (syncCanvasSize c) =
    issue (WriteBuffer (uniformBuffer runtime) 0
             [of_Z (canvas_width (backingSize (host c)));
              of_Z (canvas_height (backingSize (host c))); Q2Qc 0; Q2Qc 0] 0 4)
      (gpu c).
Proof.
  intros Hr Hc. unfold syncCanvasSize. rewrite Hr, Hc.
  fold (effectiveDpr (host c)). cbn [canvasRef dprRef gpu set_gpu set_dprRef
    set_canvasRef]. split_and!; [|done|done].
  f_equal. unfold backingSize. destruct canvas as [w h]. cbn [canvas_width canvas_height].
  repeat case_bool_decide; cbn [orb]; try done. congruence.
Qed.

Lemma effectiveDpr_nonzero (h : Host) : effectiveDpr h ≠ Q2Qc 0.
Proof. unfold effectiveDpr. by case_bool_decide. Qed.

Lemma syncCanvasSize_drawable (c : Component) (runtime : Runtime)
    (canvas : Canvas) :
  runtimeRef c = Some runtime → canvasRef c = Some canvas →
  drawable (syncCanvasSize c) runtime.
Proof.
  intros Hr Hc.
  destruct (syncCanvasSize_sized c runtime canvas Hr Hc) as (Hcanvas & _).
  split.
  - by destruct (control_eq _ _ (control_syncCanvasSize c)) as (_ & _ & _ & -> & _).
  - exists (backingSize (host c)). split; [done|]. cbn. lia.
Qed.

End Resizing.

(** X18.  A resize never skips its frame for lack of area.  With a runtime
    installed and the canvas mounted, [syncCanvasSize] leaves a backing store
    of at least 1×1 pixels, namely [max(1, floor(rect·dpr))] on each axis, a
    device pixel ratio different from 0 (a zero ratio is replaced by 1), and
    the new resolution written to the uniform buffer; so [handleResize]
    always draws the frame.  Without a runtime it does nothing. *)
Theorem resize_always_draws (c : Renderer.Component)
    (runtime : Renderer.Runtime) (canvas : Renderer.Canvas) :
  Renderer.runtimeRef c = Some runtime → Renderer.canvasRef c = Some canvas →
  Renderer.canvasRef (Renderer.syncCanvasSize c) =
    Some (backingSize (Renderer.host c)) ∧
  (1 ≤ Renderer.canvas_width (backingSize (Renderer.host c)))%Z ∧
  (1 ≤ Renderer.canvas_height (backingSize (Renderer.host c)))%Z ∧
  Renderer.dprRef (Renderer.syncCanvasSize c) = effectiveDpr (Renderer.host c) ∧
  effectiveDpr (Renderer.host c) ≠ Q2Qc 0 ∧
  Renderer.gpu (Renderer.syncCanvasSize c) =
    Renderer.issue
      (Renderer.WriteBuffer (Renderer.uniformBuffer runtime) 0
         [Renderer.of_Z (Renderer.canvas_width (backingSize (Renderer.host c)));
          Renderer.of_Z (Renderer.canvas_height (backingSize (Renderer.host c)));
          Q2Qc 0; Q2Qc 0] 0 4)
      (Renderer.gpu c) ∧
  Renderer.handleResize c = frame runtime (Renderer.syncCanvasSize c) ∧
  (∀ c0, Renderer.runtimeRef c0 = None → Renderer.handleResize c0 = c0).
Proof.
  intros Hr Hc.
  destruct (syncCanvasSize_sized c runtime canvas Hr Hc) as (H1 & H2 & H3).
  split_and!; try done.
  - cbn. lia.
  - cbn. lia.
  - apply effectiveDpr_nonzero.
  - unfold Renderer.handleResize. apply draw_drawable.
    by apply (syncCanvasSize_drawable c runtime canvas).
  - apply handleResize_no_runtime.
Qed.

Lemma resize_always_draws_witness :
  Renderer.canvasRef (Renderer.syncCanvasSize (Samples.ready Samples.scene)) =
  Some {| Renderer.canvas_width := 1600; Renderer.canvas_height := 1200 |}.
Proof.
  apply (resize_always_draws (Samples.ready Samples.scene) Samples.runtime
           {| Renderer.canvas_width := 300; Renderer.canvas_height := 150 |});
    reflexivity.
Defined.

Section Teardown.
Import Renderer.

Lemma teardown_calls (c : Component) :
  calls (gpu (teardown c)) =
  calls (gpu c) ++ release (edgeBufferRef c) ++ release (nodeBufferRef c)
  ++ match runtimeRef c with
     | Some runtime =>
         [DestroyBuffer (uniformBuffer runtime); DestroyDevice (device runtime)]
     | None => []
     end.
Proof.
  unfold teardown, destroyBufferOf, release.
  cbn [gpu set_gpu set_runtimeRef set_nodeBufferRef set_edgeBufferRef
       set_disposed edgeBufferRef nodeBufferRef runtimeRef].
  destruct (buffer (edgeBufferRef c)), (buffer (nodeBufferRef c)),
    (runtimeRef c); cbn; rewrite <- ?app_assoc; try done;
    by rewrite ?app_nil_r.
Qed.

Lemma teardown_state (c : Component) :
  disposed (teardown c) = true ∧ runtimeRef (teardown c) = None ∧
  edgeBufferRef (teardown c) = emptyBuffer ∧
  nodeBufferRef (teardown c) = emptyBuffer ∧
  nextHandle (gpu (teardown c)) = nextHandle (gpu c).
Proof.
  unfold teardown, destroyBufferOf. cbn.
  split_and!; try done.
  by destruct (buffer (edgeBufferRef c)), (buffer (nodeBufferRef c)),
    (runtimeRef c).
Qed.

Lemma teardown_idempotent (c : Component) : teardown (teardown c) = teardown c.
Proof.
  destruct c as [h cv [rt|] dpr sc [[eh|] ecap evc] [[nh|] ncap nvc]
                   err d pc wr g]; reflexivity.
Qed.

End Teardown.

(** X19.  Teardown is complete and idempotent.  It issues, after the calls so
    far, exactly one [destroy] for each vertex buffer that holds a handle,
    then for the uniform buffer and the device of an installed runtime; on a
    component that holds nothing (initialization never completed) it issues
    no call.  Afterwards the flag is set, the runtime slot is empty and both
    buffer states are reset; a second teardown changes nothing, and frames
    and resizes are no-ops. *)
Theorem teardown_releases_everything_once (c : Renderer.Component) :
  Renderer.calls (Renderer.gpu (Renderer.teardown c)) =
    Renderer.calls (Renderer.gpu c)
    ++ release (Renderer.edgeBufferRef c) ++ release (Renderer.nodeBufferRef c)
    ++ match Renderer.runtimeRef c with
       | Some runtime =>
           [Renderer.DestroyBuffer (Renderer.uniformBuffer runtime);
            Renderer.DestroyDevice (Renderer.device runtime)]
       | None => []
       end ∧
  Renderer.disposed (Renderer.teardown c) = true ∧
  Renderer.runtimeRef (Renderer.teardown c) = None ∧
  Renderer.edgeBufferRef (Renderer.teardown c) = Renderer.emptyBuffer ∧
  Renderer.nodeBufferRef (Renderer.teardown c) = Renderer.emptyBuffer ∧
  Renderer.teardown (Renderer.teardown c) = Renderer.teardown c ∧
  Renderer.draw (Renderer.teardown c) = Renderer.teardown c ∧
  Renderer.handleResize (Renderer.teardown c) = Renderer.teardown c.
Proof.
  destruct (teardown_state c) as (Hd & Hr & He & Hn & _).
  split_and!.
  - apply teardown_calls.
  - exact Hd.
  - exact Hr.
  - exact He.
  - exact Hn.
  - apply teardown_idempotent.
  - apply draw_not_drawable. intros runtime [Hsome _]. congruence.
  - by apply handleResize_no_runtime.
Qed.

Section AfterDisposal.
Import Renderer.

Lemma disposed_adapter_calls (s : Settlement (option unit)) (c : Component) :
  disposed c = true →
  (calls (gpu (stretch (initialize_after_adapter s) c).1) = calls (gpu c) ∧
   initPc (stretch (initialize_after_adapter s) c).1 = Settled) ∨
  (calls (gpu (stretch (initialize_after_adapter s) c).1) =
     calls (gpu c) ++ [RequestDevice] ∧
   initPc (stretch (initialize_after_adapter s) c).1 = AwaitingDevice).
Proof.
  intros Hd. destruct s as [[[]|]|]; eff_run; rewrite ?Hd; auto.
Qed.

Lemma disposed_device_calls (s : Settlement unit) (c : Component) :
  disposed c = true →
  calls (gpu (stretch (initialize_after_device s) c).1) = calls (gpu c) ∧
  initPc (stretch (initialize_after_device s) c).1 = Settled.
Proof.
  intros Hd. destruct s as [[]|]; eff_run; rewrite ?Hd; auto.
Qed.

(** One event on a disposed component with an empty runtime slot. *)
Lemma disposed_step_calls (c c' : Component) (e : Event) :
  disposed c = true → runtimeRef c = None → step c e = Some c' →
  (calls (gpu c') = calls (gpu c) ∧
   (initPc c' = initPc c ∨ initPc c' = Settled)) ∨
  (initPc c = AwaitingAdapter ∧ initPc c' = AwaitingDevice ∧
   calls (gpu c') = calls (gpu c) ++ [RequestDevice]).
Proof.
  intros Hd Hr Hstep. destruct e as [s|s| |props|]; simpl in Hstep.
  - destruct (initPc c) eqn:Hpc; try done. injection Hstep as <-.
    destruct (disposed_adapter_calls s c Hd) as [[H1 H2]|[H1 H2]]; auto.
  - destruct (initPc c) eqn:Hpc; try done. injection Hstep as <-.
    destruct (disposed_device_calls s c Hd) as [H1 H2]; auto.
  - unfold cleanupPending in Hstep. rewrite Hd in Hstep.
    by destruct (initPc c).
  - injection Hstep as <-. rewrite publishScene_no_runtime by done. auto.
  - injection Hstep as <-. rewrite handleResize_no_runtime by done. auto.
Qed.

Lemma disposed_run_calls (es : list Event) (c c' : Component) :
  disposed c = true → runtimeRef c = None → run c es = Some c' →
  calls (gpu c') = calls (gpu c) ∨
  (initPc c = AwaitingAdapter ∧
   calls (gpu c') = calls (gpu c) ++ [RequestDevice]).
Proof.
  revert c. induction es as [|e es IH]; intros c Hd Hr; simpl.
  - intros [= <-]. by left.
  - destruct (step c e) as [c1|] eqn:E; [|done]. simpl. intros Hrun.
    destruct (disposed_step c c1 e Hd E) as [Hd1 [= Hr1 _ _]].
    rewrite Hr in Hr1.
    specialize (IH c1 Hd1 Hr1 Hrun).
    destruct (disposed_step_calls c c1 e Hd Hr E)
      as [[Hcalls Hpc]|(Hpc & Hpc1 & Hcalls)].
    + destruct IH as [IH|[Hpc1 IH]].
      * left. congruence.
      * right. split; [|congruence].
        destruct Hpc as [Hpc|Hpc]; congruence.
    + destruct IH as [IH|[Hpc1' IH]]; [|congruence].
      right. split; [done|congruence].
Qed.

Lemma installed_late_step (c c' : Component) (e : Event) :
  installed_late c → step c e = Some c' → installed_late c'.
Proof.
  intros Hc Hstep. destruct e as [s|s| |props|]; simpl in Hstep.
  - destruct (initPc c) eqn:Hpc; try done. injection Hstep as <-.
    destruct (after_adapter_frame s c) as (_ & _ & Hr & _).
    intros Hsome. rewrite Hr in Hsome. destruct (Hc Hsome). congruence.
  - destruct (initPc c) eqn:Hpc; try done. injection Hstep as <-.
    destruct (after_device_frame s c) as (_ & Hd & Hpc' & _).
    intros Hsome. split; [done|]. rewrite Hd.
    destruct (disposed c) eqn:Hdc; [|done].
    destruct (disposed_after_device s c Hdc) as [_ [= Hr _ _]].
    rewrite Hr in Hsome. destruct (Hc Hsome). congruence.
  - destruct (cleanupPending c); [|done]. injection Hstep as <-.
    intros [r Hsome]. by destruct (teardown_state c) as (_ & Hr & _); congruence.
  - injection Hstep as <-. unfold installed_late in *.
    destruct (control_eq _ _ (control_publishScene props c))
      as (_ & -> & -> & -> & _). done.
  - injection Hstep as <-. unfold installed_late in *.
    destruct (control_eq _ _ (control_handleResize c))
      as (_ & -> & -> & -> & _). done.
Qed.

Lemma installed_late_mount (h : Host) (props : SceneSnapshot) :
  installed_late (mount h props).
Proof.
  rewrite mount_eq, initEffect_new. intros [r Hsome].
  destruct (resolveGpuNavigator h); [|done].
  destruct (begin_frame (newComponent h props)) as (_ & _ & Hr & _).
  rewrite Hr in Hsome. done.
Qed.

End AfterDisposal.

(** X20.  After disposal the GPU is left alone, except for the device
    request already under way: in every run, from a state in which the
    disposed flag is set, the calls issued later are either none or the
    single [requestDevice] that [initialize] makes when its adapter arrives
    after teardown.  No buffer, pipeline or frame is ever created or drawn
    for a disposed component. *)
Theorem disposed_component_issues_at_most_a_device_request
    (h : Renderer.Host) (props : Renderer.SceneSnapshot)
    (before after : list Renderer.Event) (c c' : Renderer.Component) :
  Renderer.run (Renderer.mount h props) before = Some c →
  Renderer.disposed c = true →
  Renderer.run c after = Some c' →
  Renderer.calls (Renderer.gpu c') = Renderer.calls (Renderer.gpu c) ∨
  (Renderer.initPc c = Renderer.AwaitingAdapter ∧
   Renderer.calls (Renderer.gpu c') =
     Renderer.calls (Renderer.gpu c) ++ [Renderer.RequestDevice]).
Proof.
  intros Hbefore Hd Hafter.
  apply (disposed_run_calls after c c' Hd); [|done].
  by apply (run_invariant slot_released slot_released_step before
              (Renderer.mount h props) c (slot_released_mount h props)).
Qed.

Lemma disposed_component_issues_at_most_a_device_request_witness :
  ∃ c c',
    Renderer.run (Renderer.mount Samples.host Samples.scene)
      [Renderer.Teardown] = Some c ∧
    Renderer.run c
      [Renderer.AdapterSettles (Renderer.Fulfilled (Some ()));
       Renderer.ResizeObserved;
       Renderer.DeviceSettles (Renderer.Fulfilled ());
       Renderer.Publish Samples.noNodes] = Some c' ∧
    Renderer.calls (Renderer.gpu c') =
      Renderer.calls (Renderer.gpu c) ++ [Renderer.RequestDevice].
Proof.
  destruct (Renderer.run (Renderer.mount Samples.host Samples.scene)
              [Renderer.Teardown]) as [c|] eqn:E1; [|by vm_compute in E1].
  assert (Renderer.disposed c = true ∧
          Renderer.calls (Renderer.gpu c) = [Renderer.RequestAdapter])
    as [Hd Hcalls] by (vm_compute in E1; by injection E1 as <-).
  destruct (Renderer.run c
              [Renderer.AdapterSettles (Renderer.Fulfilled (Some ()));
               Renderer.ResizeObserved;
               Renderer.DeviceSettles (Renderer.Fulfilled ());
               Renderer.Publish Samples.noNodes]) as [c'|] eqn:E2;
    [|vm_compute in E1; injection E1 as <-; by vm_compute in E2].
  exists c, c'. split_and!; try done.
  destruct (disposed_component_issues_at_most_a_device_request
              _ _ _ _ _ _ E1 Hd E2) as [Hsame|[_ Hmore]]; [|done].
  exfalso. vm_compute in E1. injection E1 as <-. vm_compute in E2.
  injection E2 as <-. vm_compute in Hsame. discriminate.
Defined.

(** X21.  In every run, a runtime sits in the slot only once [initialize]
    has returned and only while the component is not disposed; so as long as
    initialization is pending, a new snapshot or a resize issues no GPU
    call. *)
Theorem runtime_installed_late (h : Renderer.Host)
    (props : Renderer.SceneSnapshot) (es : list Renderer.Event)
    (c : Renderer.Component) :
  Renderer.run (Renderer.mount h props) es = Some c →
  (is_Some (Renderer.runtimeRef c) →
   Renderer.initPc c = Renderer.Settled ∧ Renderer.disposed c = false) ∧
  (Renderer.initPc c ≠ Renderer.Settled →
   (∀ props', Renderer.gpu (Renderer.publishScene props' c) = Renderer.gpu c) ∧
   Renderer.handleResize c = c).
Proof.
  intros Hrun.
  assert (installed_late c) as Hlate.
  { by apply (run_invariant installed_late installed_late_step es
                (Renderer.mount h props) c (installed_late_mount h props)). }
  split; [exact Hlate|].
  intros Hpending.
  assert (Renderer.runtimeRef c = None) as Hr.
  { destruct (Renderer.runtimeRef c) eqn:E; [|done].
    destruct Hlate as [Hpc _]; [by eexists|done]. }
  split.
  - intros props'. by rewrite publishScene_no_runtime.
  - by apply handleResize_no_runtime.
Qed.

Lemma runtime_installed_late_witness :
  ∃ c, Renderer.run (Renderer.mount Samples.host Samples.scene)
         [Renderer.AdapterSettles (Renderer.Fulfilled (Some ()))] = Some c ∧
       Renderer.handleResize c = c.
Proof.
  destruct (Renderer.run (Renderer.mount Samples.host Samples.scene)
              [Renderer.AdapterSettles (Renderer.Fulfilled (Some ()))])
    as [c|] eqn:E; [|by vm_compute in E].
  exists c. split; [done|].
  apply (runtime_installed_late _ _ _ _ E).
  vm_compute in E. injection E as <-. discriminate.
Defined.

(** X22.  When [navigator] has a [gpu] entry whose value is nullish, the
    component stays silent: in every run no initialization is attempted, no
    GPU call is issued, no runtime is installed and no status text is
    shown. *)
Theorem nullish_gpu_is_silent (h : Renderer.Host)
    (props : Renderer.SceneSnapshot) (es : list Renderer.Event)
    (c : Renderer.Component) :
  Renderer.navigatorGpu h = Renderer.GpuNullish →
  Renderer.run (Renderer.mount h props) es = Some c →
  Renderer.statusText c = None ∧
  Renderer.calls (Renderer.gpu c) = [] ∧
  Renderer.initPc c = Renderer.NotStarted ∧
  Renderer.runtimeRef c = None.
Proof.
  intros Hnav Hrun.
  assert (idle h c) as (Hh & Hpc & Hr & He & Hcalls).
  { apply (run_invariant (idle h) (idle_step h) es (Renderer.mount h props));
      [|done].
    apply idle_mount. unfold Renderer.resolveGpuNavigator. by rewrite Hnav. }
  split_and!; try done.
  unfold Renderer.statusText, Renderer.browserHasWebGpu. by rewrite Hh, Hnav.
Qed.

Lemma nullish_gpu_is_silent_witness :
  let h := {| Renderer.navigatorGpu := Renderer.GpuNullish;
              Renderer.contextAvailable := true;
              Renderer.throws := λ _, false;
              Renderer.rectWidth := Q2Qc 800;
              Renderer.rectHeight := Q2Qc 600;
              Renderer.devicePixelRatio := Q2Qc 1 |} in
  ∃ c, Renderer.run (Renderer.mount h Samples.scene)
         [Renderer.ResizeObserved; Renderer.Publish Samples.noNodes] = Some c ∧
       Renderer.statusText c = None.
Proof.
  intros h.
  destruct (Renderer.run (Renderer.mount h Samples.scene)
              [Renderer.ResizeObserved; Renderer.Publish Samples.noNodes])
    as [c|] eqn:E; [|by vm_compute in E].
  exists c. split; [done|].
  by apply (nullish_gpu_is_silent h Samples.scene _ c eq_refl E).
Defined.

(** * Successful initialization *)

Section Installation.
Import Renderer.

Lemma setup_succeeds_calls (h : Host) :
  setup_succeeds h →
  throws h ApiGetContext = false ∧
  throws h ApiGetPreferredCanvasFormat = false ∧
  throws h ApiConfigure = false ∧
  throws h ApiCreateShaderModule = false ∧
  throws h ApiCreateBindGroupLayout = false ∧
  throws h ApiCreatePipelineLayout = false ∧
  throws h (ApiCreateRenderPipeline TriangleList) = false ∧
  throws h (ApiCreateRenderPipeline LineList) = false ∧
  throws h ApiCreateUniformBuffer = false ∧
  throws h ApiCreateBindGroup = false.
Proof.
  intros [_ H]. unfold setupCalls in H.
  split_and!; apply H; repeat first [by left | right].
Qed.

#[local] Opaque draw syncCanvasSize.

Lemma after_device_installs (c : Component) :
  disposed c = false → setup_succeeds (host c) →
  (stretch (initialize_after_device (Fulfilled ())) c).1 =
  draw (syncCanvasSize (installed c)).
Proof.
  intros Hd Hok.
  destruct (setup_succeeds_calls _ Hok)
    as (H0 & H1 & H2 & H3 & H4 & H5 & H6 & H7 & H8 & H9).
  destruct Hok as [Havail _].
  eff_run. unfold installed, setupRuntime, setupLog.
  destruct c as [h cv rt dpr sc eb nb err d pc wr [n ks]]. cbn.
  do 2 f_equal.
  lazy [set_initWrites set_runtimeError set_runtimeRef set_gpu set_initPc
        issue host canvasRef runtimeRef dprRef sceneRef edgeBufferRef
        nodeBufferRef runtimeError disposed initPc initWrites gpu nextHandle
        calls].
  replace (S (S (S (S (S (S (S (S (S n)))))))))%nat with (n + 9)%nat by lia.
  replace (S (S (S (S (S (S (S (S n))))))))%nat with (n + 8)%nat by lia.
  replace (S (S (S (S (S (S (S n)))))))%nat with (n + 7)%nat by lia.
  replace (S (S (S (S (S (S n))))))%nat with (n + 6)%nat by lia.
  replace (S (S (S (S (S n)))))%nat with (n + 5)%nat by lia.
  replace (S (S (S (S n))))%nat with (n + 4)%nat by lia.
  replace (S (S (S n)))%nat with (n + 3)%nat by lia.
  replace (S (S n))%nat with (n + 2)%nat by lia.
  replace (S n)%nat with (n + 1)%nat by lia.
  rewrite <- ?app_assoc. reflexivity.
Qed.

Lemma after_device_either (s : Settlement unit) (c : Component) :
  runtimeRef (stretch (initialize_after_device s) c).1 = runtimeRef c ∨
  (s = Fulfilled () ∧ disposed c = false ∧ setup_succeeds (host c)).
Proof.
  destruct (disposed c) eqn:Hd.
  { left. by destruct (disposed_after_device s c Hd) as [_ [= -> _ _]]. }
  destruct s as [[]|]; [|left; by eff_run].
  destruct (contextAvailable (host c)) eqn:Havail.
  - eff_run; try (by left).
    right. split_and!; try done. split; [done|].
    intros a Ha. unfold setupCalls in Ha.
    repeat (apply elem_of_cons in Ha as [-> | Ha]; [assumption|]).
    by apply elem_of_nil in Ha.
  - left. eff_run; done.
Qed.

#[local] Transparent draw syncCanvasSize.

Lemma frame_vertexCounts (c : Component) (runtime : Runtime) :
  vertexCount (nodeBufferRef (frame runtime c)) =
    of_nat (6 * length (nodes (sceneRef c))) ∧
  vertexCount (edgeBufferRef (frame runtime c)) =
    of_nat (56 * length (filter (λ e, resolves (Geometry.createNodeMap
                                                   (nodes (sceneRef c))) e = true)
                           (edges (sceneRef c)))).
Proof.
  unfold frame. cbn -[Nat.mul]. rewrite !vertexCount_uploadVertices.
  unfold buildNodeVertices, buildEdgeVertices.
  rewrite length_foldl_appendNode, length_foldl_appendEdge. cbn [length].
  rewrite !Nat.add_0_l, !whole_vertices. split; reflexivity.
Qed.

(** The call log only grows. *)
Lemma extends_issue (k : GpuCall) (g0 g : Gpu) :
  calls g0 `prefix_of` calls g → calls g0 `prefix_of` calls (issue k g).
Proof. intros H. cbn. by apply prefix_app_r. Qed.

Lemma extends_ensureVertexBuffer (g : Gpu) (state : DynamicVertexBuffer)
    (requiredBytes : Z) :
  calls g `prefix_of` calls (ensureVertexBuffer g state requiredBytes).1.
Proof.
  unfold ensureVertexBuffer. case_match; [done|].
  destruct (buffer state); cbn.
  - rewrite <- app_assoc. by apply prefix_app_r.
  - by apply prefix_app_r.
Qed.

Lemma extends_uploadVertices (g : Gpu) (state : DynamicVertexBuffer)
    (data : list number) :
  calls g `prefix_of` calls (uploadVertices g state data).1.
Proof.
  unfold uploadVertices. case_match; [done|].
  pose proof (extends_ensureVertexBuffer g
    {| buffer := buffer state; capacityBytes := capacityBytes state;
       vertexCount := of_nat (length data) / of_Z FLOATS_PER_VERTEX |}
    (byteLength data)) as Hgrow.
  destruct (ensureVertexBuffer _ _ _) as [g' state']. cbn [fst] in Hgrow.
  destruct (buffer state'); cbn [fst]; [by apply extends_issue|done].
Qed.

Lemma extends_drawBuffer (pipeline : handle) (state : DynamicVertexBuffer)
    (g0 g : Gpu) :
  calls g0 `prefix_of` calls g →
  calls g0 `prefix_of` calls (drawBuffer pipeline state g).
Proof.
  intros H. unfold drawBuffer. repeat case_match; try done.
  by do 3 apply extends_issue.
Qed.

Lemma extends_frame (c : Component) (runtime : Runtime) :
  calls (gpu c) `prefix_of` calls (gpu (frame runtime c)) ∧
  last (calls (gpu (frame runtime c))) = Some Submit.
Proof.
  unfold frame. cbn [gpu set_gpu]. split; [|cbn; apply last_snoc].
  do 2 apply extends_issue. do 2 apply extends_drawBuffer.
  do 3 apply extends_issue.
  etrans; [apply extends_uploadVertices|apply extends_uploadVertices].
Qed.

Lemma frame_keeps (c : Component) (runtime : Runtime) :
  control (frame runtime c) = control c ∧
  canvasRef (frame runtime c) = canvasRef c ∧
  dprRef (frame runtime c) = dprRef c.
Proof. done. Qed.

Lemma setup_succeeds_sample : setup_succeeds Samples.host.
Proof. by split. Qed.

End Installation.

(** X23.  The stretch of [initialize] that follows the device request
    installs a runtime exactly when the request was fulfilled, the component
    was not yet disposed, the canvas yields a context and none of the setup
    calls raises: started without a runtime, it ends with one in these cases
    and in no other. *)
Theorem runtime_installed_iff (s : Renderer.Settlement unit)
    (c : Renderer.Component) :
  Renderer.runtimeRef c = None →
  is_Some (Renderer.runtimeRef
             (Renderer.stretch (Renderer.initialize_after_device s) c).1) ↔
  s = Renderer.Fulfilled () ∧ Renderer.disposed c = false ∧
  setup_succeeds (Renderer.host c).
Proof.
  intros Hnone. split.
  - intros Hsome. destruct (after_device_either s c) as [Heq|H]; [|exact H].
    rewrite Heq, Hnone in Hsome. by destruct Hsome.
  - intros (-> & Hd & Hok). rewrite (after_device_installs c Hd Hok).
    destruct (control_eq _ _ (control_draw
      (Renderer.syncCanvasSize (installed c)))) as (_ & _ & _ & -> & _).
    destruct (control_eq _ _ (control_syncCanvasSize (installed c)))
      as (_ & _ & _ & -> & _).
    by eexists.
Qed.

Lemma runtime_installed_iff_witness :
  is_Some (Renderer.runtimeRef
             (Renderer.stretch
                (Renderer.initialize_after_device (Renderer.Fulfilled ()))
                (Renderer.newComponent Samples.host Samples.scene)).1).
Proof.
  apply (runtime_installed_iff (Renderer.Fulfilled ())
           (Renderer.newComponent Samples.host Samples.scene)).
  - reflexivity.
  - split; [reflexivity|]. split; [reflexivity|]. exact setup_succeeds_sample.
Defined.

(** X24.  When the device arrives at a live component with a canvas and the
    setup goes through, the component ends the stretch ready and with its
    first frame drawn: the runtime holds the handles created by the setup,
    the error is cleared, the canvas has the backing size of its client
    rectangle, the calls of the setup and the viewport upload follow the
    earlier log in source order, the log ends with the submission of the
    frame, and the vertex counts are those of the snapshot held at that
    moment. *)
Theorem successful_initialization (c : Renderer.Component)
    (canvas : Renderer.Canvas) :
  Renderer.disposed c = false → Renderer.canvasRef c = Some canvas →
  setup_succeeds (Renderer.host c) →
  let c' := (Renderer.stretch
               (Renderer.initialize_after_device (Renderer.Fulfilled ())) c).1 in
  let n := Renderer.nextHandle (Renderer.gpu c) in
  let size := backingSize (Renderer.host c) in
  Renderer.runtimeRef c' = Some (setupRuntime n) ∧
  Renderer.runtimeError c' = None ∧
  Renderer.initPc c' = Renderer.Settled ∧
  Renderer.canvasRef c' = Some size ∧
  Renderer.dprRef c' = effectiveDpr (Renderer.host c) ∧
  (Renderer.calls (Renderer.gpu c) ++ setupLog n ++
     [Renderer.WriteBuffer (n + 7)%nat 0
        [Renderer.of_Z (Renderer.canvas_width size);
         Renderer.of_Z (Renderer.canvas_height size); Q2Qc 0; Q2Qc 0] 0 4])
    `prefix_of` Renderer.calls (Renderer.gpu c') ∧
  last (Renderer.calls (Renderer.gpu c')) = Some Renderer.Submit ∧
  Renderer.vertexCount (Renderer.nodeBufferRef c') =
    Renderer.of_nat (6 * length (Renderer.nodes (Renderer.sceneRef c))) ∧
  Renderer.vertexCount (Renderer.edgeBufferRef c') =
    Renderer.of_nat
      (56 * length (filter (λ e, resolves (Geometry.createNodeMap
                                             (Renderer.nodes (Renderer.sceneRef c)))
                                   e = true)
                      (Renderer.edges (Renderer.sceneRef c)))).
Proof.
  intros Hd Hc Hok c' n size. subst c'.
  rewrite (after_device_installs c Hd Hok).
  assert (Renderer.runtimeRef (installed c) = Some (setupRuntime n)) as Hr
    by reflexivity.
  assert (Renderer.canvasRef (installed c) = Some canvas) as Hcanvas
    by (by rewrite <- Hc).
  assert (Renderer.host (installed c) = Renderer.host c) as Hhost by reflexivity.
  assert (Renderer.sceneRef (Renderer.syncCanvasSize (installed c)) =
          Renderer.sceneRef c) as Hscene.
  { unfold Renderer.syncCanvasSize. rewrite Hr, Hcanvas. reflexivity. }
  destruct (syncCanvasSize_sized _ _ _ Hr Hcanvas) as (Hsize & Hdpr & Hgpu).
  rewrite Hhost in Hsize, Hdpr, Hgpu.
  pose proof (syncCanvasSize_drawable _ _ _ Hr Hcanvas) as Hdrawable.
  rewrite (draw_drawable _ _ Hdrawable).
  destruct (control_eq _ _ (control_syncCanvasSize (installed c)))
    as (_ & _ & Hpc1 & Hr1 & He1 & _).
  revert Hsize Hdpr Hgpu Hscene Hpc1 Hr1 He1.
  generalize (Renderer.syncCanvasSize (installed c)) as c1.
  intros c1 Hsize Hdpr Hgpu Hscene Hpc1 Hr1 He1.
  destruct (extends_frame c1 (setupRuntime n)) as [Hprefix Hlast].
  destruct (frame_vertexCounts c1 (setupRuntime n)) as [Hnodes Hedges].
  rewrite Hscene in Hnodes, Hedges.
  destruct (frame_keeps c1 (setupRuntime n)) as (Hcontrol & Hcv & Hdp).
  destruct (control_eq _ _ Hcontrol) as (_ & _ & Hpc2 & Hr2 & He2 & _).
  split_and!.
  - by rewrite Hr2, Hr1.
  - by rewrite He2, He1.
  - by rewrite Hpc2, Hpc1.
  - by rewrite Hcv.
  - by rewrite Hdp.
  - etrans; [|exact Hprefix]. rewrite Hgpu.
    unfold Renderer.issue, setupLog; cbn [Renderer.calls installed Renderer.gpu
      Renderer.set_initWrites Renderer.set_runtimeError Renderer.set_runtimeRef
      Renderer.set_gpu Renderer.uniformBuffer setupRuntime].
    by rewrite <- !app_assoc.
  - exact Hlast.
  - exact Hnodes.
  - exact Hedges.
Qed.

Lemma successful_initialization_witness :
  let c' := (Renderer.stretch
               (Renderer.initialize_after_device (Renderer.Fulfilled ()))
               (Renderer.newComponent Samples.host Samples.scene)).1 in
  Renderer.runtimeRef c' = Some (setupRuntime 0%nat) ∧
  Renderer.vertexCount (Renderer.edgeBufferRef c') = Renderer.of_nat 56.
Proof.
  destruct (successful_initialization
              (Renderer.newComponent Samples.host Samples.scene)
              {| Renderer.canvas_width := 300; Renderer.canvas_height := 150 |}
              eq_refl eq_refl setup_succeeds_sample)
    as (Hr & _ & _ & _ & _ & _ & _ & _ & He).
  split; [exact Hr|exact He].
Defined.
